(** * libusbnet client library (src/usbnet.c): device-tree synchronisation
      and one-shot remote calls

    The development embeds [usbnet.c] function by function.  Heap objects
    ([struct usb_bus], [struct usb_device], [usb_dev_handle]) live in typed
    heaps indexed by address, so that node identity, dangling pointers and
    double frees are visible.  Undefined behaviour of the C program
    (null dereference, access to a freed object, write past a buffer, read
    of an uninitialised field) is an explicit [Fault] outcome; [exit(1)]
    runs the exit hook the library has registered and then is an [Exit]
    outcome.

    The packet codec ([protocol.h]: [Packet], [Iterator], [pkt_begin],
    [iter_next], [iter_enter], [as_int], ...) is not part of the sources;
    it is a parameter of the development (class [PacketCodec]).  Concrete
    scenarios are run on the instance of module [Wire].

    A call is modelled from [init_hostfd] to its return value.  What the
    daemon answers is an argument of the call ([reply], [None] when
    [pkt_recv] delivers nothing).  The request ([pkt_init], [pkt_append],
    [pkt_send]) is never read back by the library and appears only through
    the memory it reads; [call_lock]/[call_release] and the debug output
    have no effect on a single thread and are left out. *)

From Stdlib Require Import ZArith List Bool Lia.
From stdpp Require Import base option list gmap.

Local Open Scope Z_scope.

(** ** C data *)

(** Bytes are integers in [0, 256). *)
Abbreviation byte := Z (only parsing).

Inductive ptr : Type :=
| NULL
| Ptr (a : nat).

Global Instance ptr_eq_dec : EqDecision ptr.
Proof. solve_decision. Defined.

Definition ptr_is_null (p : ptr) : bool :=
  match p with NULL => true | Ptr _ => false end.

(** Conversions a C assignment performs on the integer it stores. *)
Definition to_int (z : Z) : Z := (z + 2 ^ 31) mod 2 ^ 32 - 2 ^ 31.
Definition to_u32 (z : Z) : Z := z mod 2 ^ 32.
Definition to_u8 (z : Z) : Z := z mod 2 ^ 8.

(** Layout constants of libusb-0.1 [<usb.h>] (LP64) and [<limits.h>]. *)
Definition PATH_MAX : Z := 4096.
Definition sizeof_usb_device_descriptor : Z := 18.
Definition sizeof_usb_config_descriptor : Z := 40.
Definition sizeof_usb_interface_descriptor : Z := 40.
Definition sizeof_usb_endpoint_descriptor : Z := 32.

(** [struct usb_endpoint_descriptor].  [ep_raw] is the prefix of the object
    that [memcpy] wrote; bytes beyond it are uninitialised heap memory. *)
Record usb_endpoint_descriptor : Type := {
  ep_raw : list byte;
  ep_extra : ptr;
  ep_extralen : Z
}.

(** [struct usb_interface_descriptor].  [endpoint = None]: the pointer was
    not assigned by the library (wire bytes or uninitialised memory). *)
Record usb_interface_descriptor : Type := {
  as_raw : list byte;
  endpoint : option (list usb_endpoint_descriptor);
  as_extra : ptr;
  as_extralen : Z
}.

(** [struct usb_interface].  [altsetting = None]: never assigned. *)
Record usb_interface : Type := {
  altsetting : option (list usb_interface_descriptor);
  num_altsetting : Z
}.

(** [struct usb_config_descriptor].  [interface = None] is [NULL]. *)
Record usb_config_descriptor : Type := {
  cfg_raw : list byte;
  interface : option (list usb_interface);
  cfg_extra : ptr;
  cfg_extralen : Z
}.

(** A [u_int8_t] field at byte offset [off] of a partially written object. *)
Definition field_u8 (raw : list byte) (off : nat) : option Z := raw !! off.

Definition bNumInterfaces (c : usb_config_descriptor) : option Z :=
  field_u8 (cfg_raw c) 4.
Definition bNumEndpoints (a : usb_interface_descriptor) : option Z :=
  field_u8 (as_raw a) 4.

(** A little-endian [u_int16_t] field of [struct usb_device_descriptor]. *)
Definition field_u16 (raw : list byte) (off : nat) : Z :=
  nth off raw 0 + 256 * nth (S off) raw 0.

Definition idVendor (descriptor : list byte) : Z := field_u16 descriptor 8.
Definition idProduct (descriptor : list byte) : Z := field_u16 descriptor 10.

(** [struct usb_device]; [config = None] is [NULL]. *)
Record usb_device : Type := {
  dev_next : ptr;
  dev_prev : ptr;
  filename : list byte;
  dev_bus : ptr;
  descriptor : list byte;
  config : option usb_config_descriptor;
  devnum : Z;
  children : ptr
}.

(** [struct usb_bus]. *)
Record usb_bus : Type := {
  bus_next : ptr;
  bus_prev : ptr;
  dirname : list byte;
  devices : ptr;
  location : Z;
  root_dev : ptr
}.

(** [usb_dev_handle] ([usbnet.h]). *)
Record usb_dev_handle : Type := {
  h_fd : Z;
  h_bus : ptr;
  h_device : ptr;
  h_config : Z;
  h_interface : Z;
  h_altsetting : Z
}.

(** What [memset(p, 0, sizeof *p)] leaves in a fresh node. *)
Definition zero_device : usb_device :=
  {| dev_next := NULL; dev_prev := NULL; filename := [];
     dev_bus := NULL;
     descriptor := replicate (Z.to_nat sizeof_usb_device_descriptor) 0;
     config := None; devnum := 0; children := NULL |}.

Definition zero_bus : usb_bus :=
  {| bus_next := NULL; bus_prev := NULL; dirname := [];
     devices := NULL; location := 0; root_dev := NULL |}.

(** ** Outcomes and process state *)

Inductive fault : Type :=
| NullDeref        (* access through a null pointer *)
| UseAfterFree     (* access to an object that is not live *)
| DoubleFree       (* free of an object that is not live *)
| OutOfBounds      (* copy or index past the end of an object *)
| UninitRead       (* read of a byte nothing has written *)
| OutOfFuel.       (* a loop did not end within its bound *)

(** Lines the library prints about the IPC channel. *)
Inductive ipc_line : Type :=
| IpcAccessing
| IpcAttaching
| IpcRemoteFd (fd : Z)
| IpcUnable.

Record state : Type := {
  remote_fd : Z;                     (* __remote_fd *)
  exitf_hooked : bool;
  remote_bus : ptr;                  (* __remote_bus *)
  usb_busses : ptr;
  bus_heap : gmap nat usb_bus;
  dev_heap : gmap nat usb_device;
  hdl_heap : gmap nat usb_dev_handle;
  brk : nat;                         (* next address handed out *)
  console : list ipc_line
}.

Definition set_remote_fd (v : Z) (s : state) : state :=
  {| remote_fd := v; exitf_hooked := exitf_hooked s;
     remote_bus := remote_bus s; usb_busses := usb_busses s;
     bus_heap := bus_heap s; dev_heap := dev_heap s; hdl_heap := hdl_heap s;
     brk := brk s; console := console s |}.

Definition set_exitf_hooked (v : bool) (s : state) : state :=
  {| remote_fd := remote_fd s; exitf_hooked := v;
     remote_bus := remote_bus s; usb_busses := usb_busses s;
     bus_heap := bus_heap s; dev_heap := dev_heap s; hdl_heap := hdl_heap s;
     brk := brk s; console := console s |}.

Definition set_remote_bus (v : ptr) (s : state) : state :=
  {| remote_fd := remote_fd s; exitf_hooked := exitf_hooked s;
     remote_bus := v; usb_busses := usb_busses s;
     bus_heap := bus_heap s; dev_heap := dev_heap s; hdl_heap := hdl_heap s;
     brk := brk s; console := console s |}.

Definition set_usb_busses (v : ptr) (s : state) : state :=
  {| remote_fd := remote_fd s; exitf_hooked := exitf_hooked s;
     remote_bus := remote_bus s; usb_busses := v;
     bus_heap := bus_heap s; dev_heap := dev_heap s; hdl_heap := hdl_heap s;
     brk := brk s; console := console s |}.

Definition set_bus_heap (v : gmap nat usb_bus) (s : state) : state :=
  {| remote_fd := remote_fd s; exitf_hooked := exitf_hooked s;
     remote_bus := remote_bus s; usb_busses := usb_busses s;
     bus_heap := v; dev_heap := dev_heap s; hdl_heap := hdl_heap s;
     brk := brk s; console := console s |}.

Definition set_dev_heap (v : gmap nat usb_device) (s : state) : state :=
  {| remote_fd := remote_fd s; exitf_hooked := exitf_hooked s;
     remote_bus := remote_bus s; usb_busses := usb_busses s;
     bus_heap := bus_heap s; dev_heap := v; hdl_heap := hdl_heap s;
     brk := brk s; console := console s |}.

Definition set_hdl_heap (v : gmap nat usb_dev_handle) (s : state) : state :=
  {| remote_fd := remote_fd s; exitf_hooked := exitf_hooked s;
     remote_bus := remote_bus s; usb_busses := usb_busses s;
     bus_heap := bus_heap s; dev_heap := dev_heap s; hdl_heap := v;
     brk := brk s; console := console s |}.

Definition set_brk (v : nat) (s : state) : state :=
  {| remote_fd := remote_fd s; exitf_hooked := exitf_hooked s;
     remote_bus := remote_bus s; usb_busses := usb_busses s;
     bus_heap := bus_heap s; dev_heap := dev_heap s; hdl_heap := hdl_heap s;
     brk := v; console := console s |}.

Definition set_console (v : list ipc_line) (s : state) : state :=
  {| remote_fd := remote_fd s; exitf_hooked := exitf_hooked s;
     remote_bus := remote_bus s; usb_busses := usb_busses s;
     bus_heap := bus_heap s; dev_heap := dev_heap s; hdl_heap := hdl_heap s;
     brk := brk s; console := v |}.

(** The process before its first call. *)
Definition initial_state : state :=
  {| remote_fd := -1; exitf_hooked := false;
     remote_bus := NULL; usb_busses := NULL;
     bus_heap := ∅; dev_heap := ∅; hdl_heap := ∅;
     brk := 1; console := [] |}.

(** Result of a computation that touches no global: a value or a fault. *)
Inductive res (A : Type) : Type :=
| Ok (a : A)
| Err (f : fault).
Arguments Ok {A} a.
Arguments Err {A} f.

(** Sequencing, written in the order of the C statements. *)
Class Seq (F : Type → Type) : Type := {
  ret : ∀ {A}, A → F A;
  bind : ∀ {A B}, F A → (A → F B) → F B
}.

Declare Scope seq_scope.
Notation "x ← m ; k" := (bind m (λ x, k))
  (at level 20, m at level 100, k at level 200, only parsing) : seq_scope.
Notation "m ;; k" := (bind m (λ _, k))
  (at level 100, k at level 200, right associativity, only parsing)
  : seq_scope.
Local Open Scope seq_scope.

Global Instance res_seq : Seq res := {
  ret A a := Ok a;
  bind A B m k := match m with Ok a => k a | Err f => Err f end
}.

(** Result of a library call: it returns, exits the process, or faults. *)
Inductive outcome (A : Type) : Type :=
| Ret (a : A) (s : state)
| Exit (code : Z) (s : state)
| Fault (f : fault).
Arguments Ret {A} a s.
Arguments Exit {A} code s.
Arguments Fault {A} f.

Definition M (A : Type) : Type := state → outcome A.

Global Instance M_seq : Seq M := {
  ret A a := λ s, Ret a s;
  bind A B m k := λ s,
    match m s with
    | Ret a s' => k a s'
    | Exit c s' => Exit c s'
    | Fault f => Fault f
    end
}.

Definition skip : M unit := ret tt.

Definition get {A} (f : state → A) : M A := λ s, Ret (f s) s.
Definition modify (f : state → state) : M unit := λ s, Ret tt (f s).
Definition raise {A} (f : fault) : M A := λ _, Fault f.
Definition lift {A} (r : res A) : M A :=
  match r with Ok a => ret a | Err f => raise f end.

(** ** Memory operations *)

(** [memcpy(dst, src, n)] into an initialised object of [length dst] bytes
    from an object of [length src] bytes.  A count beyond either is a
    fault: what lies past them is another object. *)
Definition memcpy (dst src : list byte) (n : Z) : res (list byte) :=
  if (n <? 0) || (Z.of_nat (length dst) <? n) || (Z.of_nat (length src) <? n)
  then Err OutOfBounds
  else Ok (take (Z.to_nat n) src ++ drop (Z.to_nat n) dst).

(** [strcpy(dst, s)] into a [char] array of [cap] bytes; [s] is the string
    without its terminator. *)
Definition strcpy (cap : Z) (s : list byte) : res (list byte) :=
  if cap <? Z.of_nat (length s) + 1 then Err OutOfBounds else Ok s.

(** [malloc]: the new object lives at an address where nothing lives.  The
    allocator here takes addresses in increasing order.  The C library may
    also hand out a block that was freed: that a freed address stays
    unused is no property of the program. *)
Definition malloc_bus (b : usb_bus) : M nat := λ s,
  Ret (brk s) (set_brk (S (brk s)) (set_bus_heap (<[brk s := b]> (bus_heap s)) s)).

Definition malloc_dev (d : usb_device) : M nat := λ s,
  Ret (brk s) (set_brk (S (brk s)) (set_dev_heap (<[brk s := d]> (dev_heap s)) s)).

Definition malloc_hdl (h : usb_dev_handle) : M nat := λ s,
  Ret (brk s) (set_brk (S (brk s)) (set_hdl_heap (<[brk s := h]> (hdl_heap s)) s)).

Definition load_bus (p : ptr) : M usb_bus := λ s,
  match p with
  | NULL => Fault NullDeref
  | Ptr a => match bus_heap s !! a with
             | Some b => Ret b s
             | None => Fault UseAfterFree
             end
  end.

Definition store_bus (p : ptr) (f : usb_bus → usb_bus) : M unit :=
  b ← load_bus p;
  match p with
  | NULL => raise NullDeref
  | Ptr a => modify (λ s, set_bus_heap (<[a := f b]> (bus_heap s)) s)
  end.

Definition load_dev (p : ptr) : M usb_device := λ s,
  match p with
  | NULL => Fault NullDeref
  | Ptr a => match dev_heap s !! a with
             | Some d => Ret d s
             | None => Fault UseAfterFree
             end
  end.

Definition store_dev (p : ptr) (f : usb_device → usb_device) : M unit :=
  d ← load_dev p;
  match p with
  | NULL => raise NullDeref
  | Ptr a => modify (λ s, set_dev_heap (<[a := f d]> (dev_heap s)) s)
  end.

Definition load_hdl (p : ptr) : M usb_dev_handle := λ s,
  match p with
  | NULL => Fault NullDeref
  | Ptr a => match hdl_heap s !! a with
             | Some h => Ret h s
             | None => Fault UseAfterFree
             end
  end.

Definition store_hdl (p : ptr) (f : usb_dev_handle → usb_dev_handle) : M unit :=
  h ← load_hdl p;
  match p with
  | NULL => raise NullDeref
  | Ptr a => modify (λ s, set_hdl_heap (<[a := f h]> (hdl_heap s)) s)
  end.

(** [free(p)]; [free(NULL)] does nothing. *)
Definition free_dev (p : ptr) : M unit := λ s,
  match p with
  | NULL => Ret tt s
  | Ptr a => match dev_heap s !! a with
             | Some _ => Ret tt (set_dev_heap (delete a (dev_heap s)) s)
             | None => Fault DoubleFree
             end
  end.

Definition free_hdl (p : ptr) : M unit := λ s,
  match p with
  | NULL => Ret tt s
  | Ptr a => match hdl_heap s !! a with
             | Some _ => Ret tt (set_hdl_heap (delete a (hdl_heap s)) s)
             | None => Fault DoubleFree
             end
  end.

(** An object with automatic storage whose address is taken ([vbus],
    [vdev]) is a cell of its own, at an address no other object has, for
    the duration of its block. *)
Definition local_bus (b : usb_bus) : M nat := malloc_bus b.
Definition local_dev (d : usb_device) : M nat := malloc_dev d.
Definition pop_bus (a : nat) : M unit :=
  modify (λ s, set_bus_heap (delete a (bus_heap s)) s).
Definition pop_dev (a : nat) : M unit :=
  modify (λ s, set_dev_heap (delete a (dev_heap s)) s).

(** Field updates. *)
Definition with_bus_next (v : ptr) (b : usb_bus) : usb_bus :=
  {| bus_next := v; bus_prev := bus_prev b; dirname := dirname b;
     devices := devices b; location := location b; root_dev := root_dev b |}.
Definition with_bus_prev (v : ptr) (b : usb_bus) : usb_bus :=
  {| bus_next := bus_next b; bus_prev := v; dirname := dirname b;
     devices := devices b; location := location b; root_dev := root_dev b |}.
Definition with_dirname (v : list byte) (b : usb_bus) : usb_bus :=
  {| bus_next := bus_next b; bus_prev := bus_prev b; dirname := v;
     devices := devices b; location := location b; root_dev := root_dev b |}.
Definition with_devices (v : ptr) (b : usb_bus) : usb_bus :=
  {| bus_next := bus_next b; bus_prev := bus_prev b; dirname := dirname b;
     devices := v; location := location b; root_dev := root_dev b |}.
Definition with_location (v : Z) (b : usb_bus) : usb_bus :=
  {| bus_next := bus_next b; bus_prev := bus_prev b; dirname := dirname b;
     devices := devices b; location := v; root_dev := root_dev b |}.

Definition with_dev_next (v : ptr) (d : usb_device) : usb_device :=
  {| dev_next := v; dev_prev := dev_prev d; filename := filename d;
     dev_bus := dev_bus d; descriptor := descriptor d; config := config d;
     devnum := devnum d; children := children d |}.
Definition with_dev_prev (v : ptr) (d : usb_device) : usb_device :=
  {| dev_next := dev_next d; dev_prev := v; filename := filename d;
     dev_bus := dev_bus d; descriptor := descriptor d; config := config d;
     devnum := devnum d; children := children d |}.
Definition with_filename (v : list byte) (d : usb_device) : usb_device :=
  {| dev_next := dev_next d; dev_prev := dev_prev d; filename := v;
     dev_bus := dev_bus d; descriptor := descriptor d; config := config d;
     devnum := devnum d; children := children d |}.
Definition with_dev_bus (v : ptr) (d : usb_device) : usb_device :=
  {| dev_next := dev_next d; dev_prev := dev_prev d; filename := filename d;
     dev_bus := v; descriptor := descriptor d; config := config d;
     devnum := devnum d; children := children d |}.
Definition with_descriptor (v : list byte) (d : usb_device) : usb_device :=
  {| dev_next := dev_next d; dev_prev := dev_prev d; filename := filename d;
     dev_bus := dev_bus d; descriptor := v; config := config d;
     devnum := devnum d; children := children d |}.
Definition with_config (v : option usb_config_descriptor) (d : usb_device)
  : usb_device :=
  {| dev_next := dev_next d; dev_prev := dev_prev d; filename := filename d;
     dev_bus := dev_bus d; descriptor := descriptor d; config := v;
     devnum := devnum d; children := children d |}.
Definition with_devnum (v : Z) (d : usb_device) : usb_device :=
  {| dev_next := dev_next d; dev_prev := dev_prev d; filename := filename d;
     dev_bus := dev_bus d; descriptor := descriptor d; config := config d;
     devnum := v; children := children d |}.

Definition with_h_config (v : Z) (h : usb_dev_handle) : usb_dev_handle :=
  {| h_fd := h_fd h; h_bus := h_bus h; h_device := h_device h;
     h_config := v; h_interface := h_interface h;
     h_altsetting := h_altsetting h |}.
Definition with_h_altsetting (v : Z) (h : usb_dev_handle) : usb_dev_handle :=
  {| h_fd := h_fd h; h_bus := h_bus h; h_device := h_device h;
     h_config := h_config h; h_interface := h_interface h;
     h_altsetting := v |}.

(** ** The packet codec (interface of [protocol.h]) *)

(** Field tags the library tests for. *)
Inductive tag : Type :=
| InvalidType
| IntegerType
| OctetType
| RawType
| StructureType
| SequenceType
| OtherType (t : Z).

Global Instance tag_eq_dec : EqDecision tag.
Proof. solve_decision. Defined.

(** Operation codes, the leading byte of a packet. *)
Inductive Op : Type :=
| UsbInit | UsbFindBusses | UsbFindDevices | UsbOpen | UsbClose
| UsbSetConfiguration | UsbSetAltInterface | UsbResetEp | UsbClearHalt
| UsbReset | UsbClaimInterface | UsbReleaseInterface | UsbControlMsg
| UsbBulkRead | UsbBulkWrite | UsbInterruptWrite | UsbInterruptRead
| UsbDetachKernelDriver.

Global Instance Op_eq_dec : EqDecision Op.
Proof. solve_decision. Defined.

(** The codec as the library uses it.  [pkt_op] is the operation that
    [buf[0]] names, if any.  [pkt_begin] is the cursor [pkt_begin] fills
    in, [pkt_begin_ok] whether it returned a non-null pointer.  [it_val]
    are the [it.len] bytes of the field at [it.val]; [it.val] points into
    the packet buffer, and [it_behind] is what the buffer holds behind the
    field, up to its end.  [iter_next] returns the advanced cursor and
    whether the C function returned a non-null pointer.  [as_int] and
    [as_uint] return a C [int] / [unsigned]; [as_string] returns the
    string without its terminator. *)
Class PacketCodec : Type := {
  Packet : Type;
  Iterator : Type;
  pkt_op : Packet → option Op;
  pkt_begin : Packet → Iterator;
  pkt_begin_ok : Packet → bool;
  it_type : Iterator → tag;
  it_val : Iterator → list byte;
  it_behind : Iterator → list byte;
  iter_next : Iterator → Iterator * bool;
  iter_enter : Iterator → Iterator;
  as_int : list byte → Z;
  as_uint : list byte → Z;
  as_string : list byte → list byte
}.

(** ** Cleanup at exit *)

(** [dev->descriptor.bNumConfigurations] *)
Definition bNumConfigurations (descriptor : list byte) : Z :=
  nth 17 descriptor 0.

(** A pointer field of a [malloc]ed object that the library never
    assigned, read from the eight bytes at offset [off]: [true] for a null
    pointer.  Bytes that [memcpy] did not write are uninitialised. *)
Definition stray_pointer_is_null (raw : list byte) (off : nat) : res bool :=
  if (length raw <? off + 8)%nat then Err UninitRead
  else Ok (forallb (λ b, b =? 0) (take 8 (drop off raw))).

(** [free(p)] of a pointer to an object the library never allocates
    ([extra], [children]): nothing for [NULL], an invalid free otherwise. *)
Definition free_foreign (p : ptr) : res unit :=
  if ptr_is_null p then Ok tt else Err DoubleFree.

(** [for (k = 0; k < as->bNumEndpoints; k++)] of
    [usb_destroy_configuration], from index [i] on, [n] iterations. *)
Fixpoint destroy_endpoints (n i : nat) (eps : list usb_endpoint_descriptor)
  : res unit :=
  match n with
  | O => Ok tt
  | S n' =>
      ep ← match eps !! i with Some x => Ok x | None => Err OutOfBounds end;
      free_foreign (ep_extra ep);;
      destroy_endpoints n' (S i) eps
  end.

(** The body of [for (j = 0; j < ifp->num_altsetting; j++)].  The
    [endpoint] pointer is assigned only for a positive endpoint count;
    otherwise it holds what [memcpy] wrote there, the eight bytes at offset
    16 of the structure (nine descriptor bytes, padding, then the
    pointer, on the 64-bit target the size 40 belongs to). *)
Definition destroy_altsetting (a : usb_interface_descriptor) : res unit :=
  free_foreign (as_extra a);;
  match endpoint a with
  | Some eps =>
      n ← match bNumEndpoints a with Some v => Ok v | None => Err UninitRead end;
      destroy_endpoints (Z.to_nat n) 0 eps
  | None =>
      match stray_pointer_is_null (as_raw a) 16 with
      | Err f => Err f
      | Ok true => Ok tt
      | Ok false =>
          match bNumEndpoints a with
          | None => Err UninitRead
          | Some n => if 0 <? n then Err OutOfBounds else Err DoubleFree
          end
      end
  end.

Fixpoint destroy_altsettings (n i : nat) (alts : list usb_interface_descriptor)
  : res unit :=
  match n with
  | O => Ok tt
  | S n' =>
      a ← match alts !! i with Some x => Ok x | None => Err OutOfBounds end;
      destroy_altsetting a;;
      destroy_altsettings n' (S i) alts
  end.

(** The body of [for (i = 0; i < cf->bNumInterfaces; i++)].  The
    [altsetting] pointer of an array element that was never assigned is
    uninitialised memory. *)
Definition destroy_interface (ifp : usb_interface) : res unit :=
  match altsetting ifp with
  | None => Err UninitRead
  | Some alts => destroy_altsettings (Z.to_nat (num_altsetting ifp)) 0 alts
  end.

Fixpoint destroy_interfaces (n i : nat) (ifs : list usb_interface) : res unit :=
  match n with
  | O => Ok tt
  | S n' =>
      ifp ← match ifs !! i with Some x => Ok x | None => Err OutOfBounds end;
      destroy_interface ifp;;
      destroy_interfaces n' (S i) ifs
  end.

(** [usb_destroy_configuration].  [dev->config] is one
    [struct usb_config_descriptor]: index 0 is that object, any further
    index is past it. *)
Definition usb_destroy_configuration (d : usb_device) : res unit :=
  match config d with
  | None => Ok tt
  | Some cf =>
      let nc := bNumConfigurations (descriptor d) in
      (if 0 <? nc then
         (match interface cf with
          | None => Ok tt
          | Some ifs =>
              n ← match bNumInterfaces cf with
                  | Some v => Ok v
                  | None => Err UninitRead
                  end;
              destroy_interfaces (Z.to_nat n) 0 ifs
          end);;
         if 1 <? nc then Err OutOfBounds else Ok tt
       else Ok tt)
  end.

(** [free(cur)] of a bus node. *)
Definition free_bus (p : ptr) : M unit := λ s,
  match p with
  | NULL => Ret tt s
  | Ptr a => match bus_heap s !! a with
             | Some _ => Ret tt (set_bus_heap (delete a (bus_heap s)) s)
             | None => Fault DoubleFree
             end
  end.

(** [while(cur->devices != NULL)] of [deinit_hostfd]. *)
Fixpoint free_bus_devices (fuel : nat) (cur : ptr) : M unit :=
  b ← load_bus cur;
  if ptr_is_null (devices b) then skip
  else
    let dev := devices b in
    d ← load_dev dev;
    match fuel with
    | O => raise OutOfFuel
    | S fuel' =>
        store_bus cur (with_devices (dev_next d));;
        lift (usb_destroy_configuration d);;
        lift (free_foreign (children d));;
        free_dev dev;;
        free_bus_devices fuel' cur
    end.

(** [while(__remote_bus != NULL)] of [deinit_hostfd]. *)
Fixpoint free_busses (fuel : nat) : M unit :=
  cur ← get remote_bus;
  if ptr_is_null cur then skip
  else
    b ← load_bus cur;
    match fuel with
    | O => raise OutOfFuel
    | S fuel' =>
        modify (set_remote_bus (bus_next b));;
        live ← get (λ s, size (dev_heap s));
        free_bus_devices live cur;;
        free_bus cur;;
        free_busses fuel'
    end.

(** [deinit_hostfd] *)
Definition deinit_hostfd : M unit :=
  modify (set_usb_busses NULL);;
  live ← get (λ s, size (bus_heap s));
  free_busses live.

(** [exit(code)]: the functions registered with [atexit] run, then the
    process ends.  The one function the library registers is
    [deinit_hostfd], and [exitf_hooked] says that it has done so. *)
Definition exit {A} (code : Z) : M A := λ s,
  if exitf_hooked s then
    match deinit_hostfd s with
    | Ret _ s' => Exit code s'
    | Exit c s' => Exit c s'
    | Fault f => Fault f
    end
  else Exit code s.

(** ** The transport provider *)

(** What the operating system answers to [init_hostfd]: whether [shmget]
    finds the segment, the descriptor stored in it when [shmat] succeeds,
    and for which descriptors [getpeername] succeeds. *)
Record ipc : Type := {
  shmget_ok : bool;
  shmat_fd : option Z;
  getpeername_ok : Z → bool
}.

Definition say (l : ipc_line) : M unit :=
  modify (λ s, set_console (console s ++ [l]) s).

(** [init_hostfd] *)
Definition init_hostfd (env : ipc) : M Z :=
  hooked ← get exitf_hooked;
  (if hooked then skip else modify (set_exitf_hooked true));;
  fd ← get remote_fd;
  (if fd =? -1 then
     say IpcAccessing;;
     (if shmget_ok env then
        say IpcAttaching;;
        match shmat_fd env with
        | Some v => modify (set_remote_fd v)
        | None => skip
        end
      else skip);;
     fd ← get remote_fd;
     say (IpcRemoteFd fd)
   else skip);;
  fd ← get remote_fd;
  (if getpeername_ok env fd then skip else modify (set_remote_fd (-1)));;
  fd ← get remote_fd;
  if fd =? -1 then say IpcUnable;; exit 1 else ret fd.

(** What [init_hostfd] leaves alone: the cache and the heaps. *)
Definition frame (s s' : state) : Prop :=
  remote_bus s' = remote_bus s ∧ usb_busses s' = usb_busses s ∧
  bus_heap s' = bus_heap s ∧ dev_heap s' = dev_heap s ∧
  hdl_heap s' = hdl_heap s ∧ brk s' = brk s.

(** What the exit hook leaves alone: the transport, the handles, the
    allocator and the console. *)
Definition hook_frame (s s' : state) : Prop :=
  remote_fd s' = remote_fd s ∧ exitf_hooked s' = exitf_hooked s ∧
  hdl_heap s' = hdl_heap s ∧ brk s' = brk s ∧ console s' = console s.

(** What [__remote_fd] holds after a process without a descriptor has
    asked the transport provider: the descriptor in the segment, or still
    [-1] when there is no segment or it cannot be attached. *)
Definition acquired (env : ipc) : Z :=
  if shmget_ok env then
    match shmat_fd env with Some v => v | None => -1 end
  else -1.

(** A computation that leaves component [f] of the state alone, however
    it ends. *)
Definition keeps {A B} (f : state → B) (m : M A) : Prop :=
  ∀ s, match m s with
       | Ret _ s' | Exit _ s' => f s' = f s
       | Fault _ => True
       end.

(** The singly linked device list that starts at [p]: the addresses of
    its nodes, in order, all live, the last one with a null successor. *)
Fixpoint dev_chain (s : state) (p : ptr) (l : list nat) : Prop :=
  match l with
  | [] => p = NULL
  | a :: l' =>
      p = Ptr a ∧ ∃ d, dev_heap s !! a = Some d ∧ dev_chain s (dev_next d) l'
  end.

(** The [next] pointers of the live device nodes. *)
Definition links (s : state) : gmap nat ptr := dev_next <$> dev_heap s.

(** The [next] and [prev] pointers of the live bus nodes. *)
Definition bus_links (s : state) : gmap nat (ptr * ptr) :=
  (λ b, (bus_next b, bus_prev b)) <$> bus_heap s.

(** The state of the device loop of one bus: the local head [v] starts the
    list [v :: l] of distinct live nodes, the [devices] pointer of the bus
    [rb] is the successor of the local head, and no device node lives at
    or above the address the allocator hands out next. *)
Definition device_loop (s : state) (rb v : nat) (l : list nat) : Prop :=
  dev_chain s (Ptr v) (v :: l) ∧ NoDup (v :: l) ∧
  (∃ b dv, bus_heap s !! rb = Some b ∧ dev_heap s !! v = Some dv ∧
           devices b = dev_next dv) ∧
  (∀ k, (brk s ≤ k)%nat → dev_heap s !! k = None).

Section Library.
Context `{PacketCodec}.

Definition it_len (it : Iterator) : Z := Z.of_nat (length (it_val it)).

Definition is_type (it : Iterator) (t : tag) : bool :=
  bool_decide (it_type it = t).

(** [szlen = sizeof(...); if (szlen > it.len) szlen = it.len;] *)
Definition clip_len (size : Z) (it : Iterator) : Z :=
  if size >? it_len it then it_len it else size.

(** ** [usb_find_devices]: the configuration subtree *)

(** An element of a fresh [malloc]ed [struct usb_interface] array; its
    count is written before it is read. *)
Definition blank_interface : usb_interface :=
  {| altsetting := None; num_altsetting := 0 |}.

(** [for(k = 0; k < altsetting->bNumEndpoints; ++k)] over a fresh array. *)
Fixpoint load_endpoints (n : nat) (it : Iterator)
  : list usb_endpoint_descriptor * Iterator :=
  match n with
  | O => ([], it)
  | S n' =>
      let szlen := clip_len sizeof_usb_endpoint_descriptor it in
      let ep := {| ep_raw := take (Z.to_nat szlen) (it_val it);
                   ep_extra := NULL; ep_extralen := 0 |} in
      let it := (iter_next it).1 in
      let '(eps, it) := load_endpoints n' it in
      (ep :: eps, it)
  end.

(** [for(j = 0; j < iface->num_altsetting; ++j)] over a fresh array. *)
Fixpoint load_altsettings (n : nat) (it : Iterator)
  : res (list usb_interface_descriptor * Iterator) :=
  match n with
  | O => ret ([], it)
  | S n' =>
      let szlen := clip_len sizeof_usb_interface_descriptor it in
      let raw := take (Z.to_nat szlen) (it_val it) in
      let it := (iter_next it).1 in
      ne ← match field_u8 raw 4 with
           | Some v => Ok v
           | None => Err UninitRead
           end;
      let '(eps, it) :=
        if 0 <? ne
        then let '(l, it') := load_endpoints (Z.to_nat ne) it in (Some l, it')
        else (None, it) in
      let alt := {| as_raw := raw; endpoint := eps;
                    as_extra := NULL; as_extralen := 0 |} in
      r ← load_altsettings n' it;
      ret (alt :: r.1, r.2)
  end.

(** [for(i = 0; i < dev->config->bNumInterfaces; ++i)] from index [i] on,
    [n] iterations, over the array [ifs] the configuration points to. *)
Fixpoint load_interfaces (n i : nat) (ifs : list usb_interface)
    (it : Iterator) : res (list usb_interface * Iterator) :=
  match n with
  | O => ret (ifs, it)
  | S n' =>
      iface ← match ifs !! i with
              | Some x => Ok x
              | None => Err OutOfBounds
              end;
      let na := as_int (it_val it) in
      let it := (iter_next it).1 in
      r ← (if 0 <? na then
             r ← load_altsettings (Z.to_nat na) it;
             ret (Some r.1, r.2)
           else if na =? 0 then ret (altsetting iface, it)
           else (* [j < (unsigned) na] holds: the stale pointer is used *)
             match altsetting iface with
             | None => Err UninitRead
             | Some _ => Err OutOfBounds
             end);
      load_interfaces n' (S i)
        (<[i := {| altsetting := r.1; num_altsetting := na |}]> ifs) r.2
  end.

(** The block [if(it.type == RawType) { ... dev->config = malloc ... }]. *)
Definition read_config (dev : ptr) (it : Iterator) : M Iterator :=
  if is_type it RawType then
    let szlen := clip_len sizeof_usb_config_descriptor it in
    let raw := take (Z.to_nat szlen) (it_val it) in
    n ← lift (match field_u8 raw 4 with
              | Some v => Ok v
              | None => Err UninitRead
              end);
    let ifs := if 0 <? n then Some (replicate (Z.to_nat n) blank_interface)
               else None in
    store_dev dev (with_config (Some {| cfg_raw := raw; interface := ifs;
                                        cfg_extra := NULL;
                                        cfg_extralen := 0 |}));;
    ret (iter_next it).1
  else ret it.

(** The block [// Load interfaces]. *)
Definition read_interfaces (dev : ptr) (it : Iterator) : M Iterator :=
  d ← load_dev dev;
  match config d with
  | None => raise NullDeref
  | Some cfg =>
      n ← lift (match bNumInterfaces cfg with
                | Some v => Ok v
                | None => Err UninitRead
                end);
      if 0 <? n then
        match interface cfg with
        | None => raise NullDeref
        | Some ifs =>
            r ← lift (load_interfaces (Z.to_nat n) 0 ifs it);
            store_dev dev (with_config
              (Some {| cfg_raw := cfg_raw cfg; interface := Some r.1;
                       cfg_extra := cfg_extra cfg;
                       cfg_extralen := cfg_extralen cfg |}));;
            ret r.2
        end
      else ret it
  end.

(** ** [usb_find_devices]: devices of one bus *)

(** The block [// Initialize] and [dev = dev->next]: the node for the
    next device, the successor of [dev] if there is one, a new node linked
    behind [dev] otherwise. *)
Definition next_device (rbus : ptr) (vdev : nat) (dev : ptr) : M ptr :=
  d ← load_dev dev;
  (if ptr_is_null (dev_next d) then
     n ← malloc_dev zero_device;
     store_dev dev (with_dev_next (Ptr n));;
     store_dev (Ptr n) (with_dev_bus rbus);;
     (if bool_decide (dev = Ptr vdev) then skip
      else store_dev (Ptr n) (with_dev_prev dev));;
     b ← load_bus rbus;
     (if ptr_is_null (devices b) then store_bus rbus (with_devices (Ptr n))
      else skip)
   else skip);;
  d ← load_dev dev;
  ret (dev_next d).

(** The reads [// Read filename] to [// Read devnum] into node [dev]. *)
Definition fill_device (dev : ptr) (it : Iterator) : M Iterator :=
  it ← (if is_type it OctetType then
          s ← lift (strcpy (PATH_MAX + 1) (as_string (it_val it)));
          store_dev dev (with_filename s);;
          ret (iter_next it).1
        else ret it);
  it ← (if is_type it RawType then
          d ← load_dev dev;
          v ← lift (memcpy (descriptor d) (it_val it) (it_len it));
          store_dev dev (with_descriptor v);;
          ret (iter_next it).1
        else ret it);
  it ← read_config dev it;
  it ← read_interfaces dev it;
  if is_type it IntegerType then
    store_dev dev (with_devnum (to_u8 (as_int (it_val it))));;
    ret (iter_next it).1
  else ret it.

(** One iteration of [while(it.type == SequenceType)]. *)
Definition read_device (rbus : ptr) (vdev : nat) (dev : ptr) (it : Iterator)
  : M (ptr * Iterator) :=
  let it := iter_enter it in
  dev ← next_device rbus vdev dev;
  it ← fill_device dev it;
  ret (dev, it).

Fixpoint read_devices (fuel : nat) (rbus : ptr) (vdev : nat) (dev : ptr)
    (it : Iterator) : M (ptr * Iterator) :=
  if is_type it SequenceType then
    match fuel with
    | O => raise OutOfFuel
    | S fuel' =>
        r ← read_device rbus vdev dev it;
        read_devices fuel' rbus vdev r.1 r.2
    end
  else ret (dev, it).

(** [// Free unused devices] *)
Fixpoint free_unused_devices (fuel : nat) (dev : ptr) : M unit :=
  d ← load_dev dev;
  if ptr_is_null (dev_next d) then skip
  else
    match fuel with
    | O => raise OutOfFuel
    | S fuel' =>
        let ddev := dev_next d in
        dd ← load_dev ddev;
        store_dev dev (with_dev_next (dev_next dd));;
        free_dev ddev;;
        free_unused_devices fuel' dev
    end.

(** ** [usb_find_devices]: busses *)

(** The size of the receive buffer, [char buf[4096]]: a field takes at
    least one byte of it, which bounds the iterations of the two cursor
    driven loops. *)
Definition BUFSIZE : nat := 4096.

(** The block [// Allocate bus]: the node for the next bus, the successor
    of [rbus] if there is one, a new node linked behind [rbus] otherwise. *)
Definition next_bus (rbus : ptr) : M ptr :=
  b ← load_bus rbus;
  if ptr_is_null (bus_next b) then
    nbus ← malloc_bus zero_bus;
    store_bus rbus (with_bus_next (Ptr nbus));;
    store_bus (Ptr nbus) (with_bus_prev rbus);;
    ret (Ptr nbus)
  else ret (bus_next b).

(** The reads [// Read dirname] and [// Read location] into node [rbus]. *)
Definition fill_bus (rbus : ptr) (it : Iterator) : M Iterator :=
  it ← (if is_type it OctetType then
          s ← lift (strcpy (PATH_MAX + 1) (as_string (it_val it)));
          store_bus rbus (with_dirname s);;
          ret (iter_next it).1
        else ret it);
  if is_type it IntegerType then
    store_bus rbus (with_location (to_u32 (as_int (it_val it))));;
    ret (iter_next it).1
  else ret it.

(** The branch [if(it.type == StructureType)] of the bus loop. *)
Definition read_bus (rbus : ptr) (it : Iterator) : M (ptr * Iterator) :=
  let it := iter_enter it in
  rbus ← next_bus rbus;
  it ← fill_bus rbus it;
  b ← load_bus rbus;
  vdev ← local_dev (with_dev_next (devices b) zero_device);
  r ← read_devices BUFSIZE rbus vdev (Ptr vdev) it;
  live ← get (λ s, size (dev_heap s));
  free_unused_devices live r.1;;
  pop_dev vdev;;
  ret (rbus, r.2).

(** [while(iter_next(&it) != NULL)] *)
Fixpoint read_busses (fuel : nat) (rbus : ptr) (it : Iterator) : M ptr :=
  let '(it, more) := iter_next it in
  if more then
    match fuel with
    | O => raise OutOfFuel
    | S fuel' =>
        if is_type it StructureType then
          r ← read_bus rbus it;
          read_busses fuel' r.1 r.2
        else
          read_busses fuel' rbus (iter_next it).1
    end
  else ret rbus.

(** [// Deallocate unnecessary busses] *)
Fixpoint unlink_unused_busses (fuel : nat) (rbus : ptr) : M unit :=
  b ← load_bus rbus;
  if ptr_is_null (bus_next b) then skip
  else
    match fuel with
    | O => raise OutOfFuel
    | S fuel' =>
        bus ← load_bus (bus_next b);
        store_bus rbus (with_bus_next (bus_next bus));;
        unlink_unused_busses fuel' rbus
    end.

(** [usb_find_devices]; [reply] is the packet [pkt_recv] delivers, [None]
    when it returns no data. *)
Definition usb_find_devices (env : ipc) (reply : option Packet) : M Z :=
  fd ← init_hostfd env;
  match reply with
  | Some pkt =>
      let it := pkt_begin pkt in
      let res := if is_type it IntegerType then to_int (as_uint (it_val it))
                 else 0 in
      head ← get remote_bus;
      vbus ← local_bus (with_bus_next head zero_bus);
      rbus ← read_busses BUFSIZE (Ptr vbus) it;
      live ← get (λ s, size (bus_heap s));
      unlink_unused_busses live rbus;;
      vb ← load_bus (Ptr vbus);
      modify (set_remote_bus (bus_next vb));;
      head ← get remote_bus;
      modify (set_usb_busses head);;
      pop_bus vbus;;
      ret res
  | None => ret 0
  end.

(** [usb_get_busses] *)
Definition usb_get_busses : M ptr := get remote_bus.

(** [usb_init] *)
Definition usb_init (env : ipc) : M unit :=
  fd ← init_hostfd env;
  skip.

(** [usb_find_busses] *)
Definition usb_find_busses (env : ipc) (reply : option Packet) : M Z :=
  fd ← init_hostfd env;
  match reply with
  | Some pkt =>
      if pkt_begin_ok pkt then
        let it := pkt_begin pkt in
        ret (if is_type it IntegerType then to_int (as_uint (it_val it))
             else 0)
      else ret 0
  | None => ret 0
  end.

(** ** One-shot remote calls *)

(** [pkt_recv(fd, &pkt) > 0 && pkt.buf[0] == op], then [pkt_begin]: the
    cursor on the first field of a reply that echoes the operation. *)
Definition answer (op : Op) (reply : option Packet) : option Iterator :=
  match reply with
  | Some pkt =>
      if bool_decide (pkt_op pkt = Some op) then Some (pkt_begin pkt)
      else None
  | None => None
  end.

(** [if(it.type == IntegerType) { res = as_int(it.val, it.len);
    iter_next(&it); }] with [res] preset to [-1]. *)
Definition read_result (it : Iterator) : Z * Iterator :=
  if is_type it IntegerType then (as_int (it_val it), (iter_next it).1)
  else (-1, it).

(** The result of a call that decodes nothing but [res]. *)
Definition result_of (op : Op) (reply : option Packet) : Z :=
  match answer op reply with
  | Some it => (read_result it).1
  | None => -1
  end.

(** [pkt_append(pkt, OctetType, size, bytes)] reads [size] bytes of the
    caller's buffer. *)
Definition append_octets (bytes : list byte) (size : Z) : M unit :=
  if (size <? 0) || (Z.of_nat (length bytes) <? size) then raise OutOfBounds
  else skip.

(** [if(it.type == OctetType) if(res > 0) { minlen = (res > size) ? size :
    res; memcpy(bytes, it.val, minlen); }].  The count does not depend on
    [it.len]: the copy takes [minlen] bytes of the packet buffer from
    [it.val] on, the field's and then those behind it. *)
Definition copy_payload (it : Iterator) (res : Z) (bytes : list byte)
    (size : Z) : M (list byte) :=
  if is_type it OctetType then
    if 0 <? res then
      let minlen := if res >? size then size else res in
      lift (memcpy bytes (it_val it ++ it_behind it) minlen)
    else ret bytes
  else ret bytes.

(** [usb_open] *)
Definition usb_open (env : ipc) (reply : option Packet) (dev : ptr) : M ptr :=
  fd ← init_hostfd env;
  d ← load_dev dev;
  b ← load_bus (dev_bus d);
  let '(res, devfd) :=
    match answer UsbOpen reply with
    | Some it =>
        let '(res, it) := read_result it in
        (res, if is_type it IntegerType then as_int (it_val it) else -1)
    | None => (-1, -1)
    end in
  if 0 <=? res then
    udev ← malloc_hdl {| h_fd := devfd; h_bus := dev_bus d; h_device := dev;
                         h_config := -1; h_interface := -1;
                         h_altsetting := -1 |};
    ret (Ptr udev)
  else ret NULL.

(** [usb_close] *)
Definition usb_close (env : ipc) (reply : option Packet) (dev : ptr) : M Z :=
  fd ← init_hostfd env;
  h ← load_hdl dev;
  free_hdl dev;;
  ret (result_of UsbClose reply).

(** [usb_set_configuration] *)
Definition usb_set_configuration (env : ipc) (reply : option Packet)
    (dev : ptr) (configuration : Z) : M Z :=
  fd ← init_hostfd env;
  h ← load_hdl dev;
  let '(res, configuration) :=
    match answer UsbSetConfiguration reply with
    | Some it =>
        let '(res, it) := read_result it in
        (res, if is_type it IntegerType then as_int (it_val it)
              else configuration)
    | None => (-1, configuration)
    end in
  store_hdl dev (with_h_config configuration);;
  ret res.

(** [usb_set_altinterface] *)
Definition usb_set_altinterface (env : ipc) (reply : option Packet)
    (dev : ptr) (alternate : Z) : M Z :=
  fd ← init_hostfd env;
  h ← load_hdl dev;
  let '(res, alternate) :=
    match answer UsbSetAltInterface reply with
    | Some it =>
        let '(res, it) := read_result it in
        (res, if is_type it IntegerType then as_int (it_val it)
              else alternate)
    | None => (-1, alternate)
    end in
  store_hdl dev (with_h_altsetting alternate);;
  ret res.

(** [usb_resetep] *)
Definition usb_resetep (env : ipc) (reply : option Packet) (dev : ptr)
    (ep : Z) : M Z :=
  fd ← init_hostfd env;
  h ← load_hdl dev;
  ret (result_of UsbResetEp reply).

(** [usb_clear_halt] *)
Definition usb_clear_halt (env : ipc) (reply : option Packet) (dev : ptr)
    (ep : Z) : M Z :=
  fd ← init_hostfd env;
  h ← load_hdl dev;
  ret (result_of UsbClearHalt reply).

(** [usb_reset] *)
Definition usb_reset (env : ipc) (reply : option Packet) (dev : ptr) : M Z :=
  fd ← init_hostfd env;
  h ← load_hdl dev;
  ret (result_of UsbReset reply).

(** [usb_claim_interface] *)
Definition usb_claim_interface (env : ipc) (reply : option Packet)
    (dev : ptr) (interface : Z) : M Z :=
  fd ← init_hostfd env;
  h ← load_hdl dev;
  ret (result_of UsbClaimInterface reply).

(** [usb_release_interface] *)
Definition usb_release_interface (env : ipc) (reply : option Packet)
    (dev : ptr) (interface : Z) : M Z :=
  fd ← init_hostfd env;
  h ← load_hdl dev;
  ret (result_of UsbReleaseInterface reply).

(** [usb_control_msg]; returns [res] and the caller's buffer. *)
Definition usb_control_msg (env : ipc) (reply : option Packet) (dev : ptr)
    (requesttype request value index : Z) (bytes : list byte)
    (size timeout : Z) : M (Z * list byte) :=
  fd ← init_hostfd env;
  h ← load_hdl dev;
  append_octets bytes size;;
  match answer UsbControlMsg reply with
  | Some it =>
      let '(res, it) := read_result it in
      bytes ← copy_payload it res bytes size;
      ret (res, bytes)
  | None => ret (-1, bytes)
  end.

(** [usb_bulk_read]: the leading byte is stored in [op] and not tested. *)
Definition usb_bulk_read (env : ipc) (reply : option Packet) (dev : ptr)
    (ep : Z) (bytes : list byte) (size timeout : Z) : M (Z * list byte) :=
  fd ← init_hostfd env;
  h ← load_hdl dev;
  match reply with
  | Some pkt =>
      let '(res, it) := read_result (pkt_begin pkt) in
      bytes ← copy_payload it res bytes size;
      ret (res, bytes)
  | None => ret (-1, bytes)
  end.

(** [usb_bulk_write] *)
Definition usb_bulk_write (env : ipc) (reply : option Packet) (dev : ptr)
    (ep : Z) (bytes : list byte) (size timeout : Z) : M Z :=
  fd ← init_hostfd env;
  h ← load_hdl dev;
  append_octets bytes size;;
  ret (result_of UsbBulkWrite reply).

(** [usb_interrupt_write] *)
Definition usb_interrupt_write (env : ipc) (reply : option Packet)
    (dev : ptr) (ep : Z) (bytes : list byte) (size timeout : Z) : M Z :=
  fd ← init_hostfd env;
  h ← load_hdl dev;
  append_octets bytes size;;
  ret (result_of UsbInterruptWrite reply).

(** [usb_interrupt_read] *)
Definition usb_interrupt_read (env : ipc) (reply : option Packet)
    (dev : ptr) (ep : Z) (bytes : list byte) (size timeout : Z)
  : M (Z * list byte) :=
  fd ← init_hostfd env;
  h ← load_hdl dev;
  match answer UsbInterruptRead reply with
  | Some it =>
      let '(res, it) := read_result it in
      bytes ← copy_payload it res bytes size;
      ret (res, bytes)
  | None => ret (-1, bytes)
  end.

(** [usb_detach_kernel_driver_np] *)
Definition usb_detach_kernel_driver_np (env : ipc) (reply : option Packet)
    (dev : ptr) (interface : Z) : M Z :=
  fd ← init_hostfd env;
  h ← load_hdl dev;
  ret (result_of UsbDetachKernelDriver reply).

(** ** Sequences of calls on handles *)

(** A call of the API that takes a device handle, with its arguments. *)
Inductive call : Type :=
| Close
| SetConfiguration (configuration : Z)
| SetAltinterface (alternate : Z)
| Resetep (ep : Z)
| ClearHalt (ep : Z)
| Reset
| ClaimInterface (interface : Z)
| ReleaseInterface (interface : Z)
| ControlMsg (requesttype request value index : Z) (bytes : list byte)
    (size timeout : Z)
| BulkRead (ep : Z) (bytes : list byte) (size timeout : Z)
| BulkWrite (ep : Z) (bytes : list byte) (size timeout : Z)
| InterruptWrite (ep : Z) (bytes : list byte) (size timeout : Z)
| InterruptRead (ep : Z) (bytes : list byte) (size timeout : Z)
| DetachKernelDriver (interface : Z).

(** The operation code a call puts in its request. *)
Definition request_op (c : call) : Op :=
  match c with
  | Close => UsbClose
  | SetConfiguration _ => UsbSetConfiguration
  | SetAltinterface _ => UsbSetAltInterface
  | Resetep _ => UsbResetEp
  | ClearHalt _ => UsbClearHalt
  | Reset => UsbReset
  | ClaimInterface _ => UsbClaimInterface
  | ReleaseInterface _ => UsbReleaseInterface
  | ControlMsg _ _ _ _ _ _ _ => UsbControlMsg
  | BulkRead _ _ _ _ => UsbBulkRead
  | BulkWrite _ _ _ _ => UsbBulkWrite
  | InterruptWrite _ _ _ _ => UsbInterruptWrite
  | InterruptRead _ _ _ _ => UsbInterruptRead
  | DetachKernelDriver _ => UsbDetachKernelDriver
  end.

(** The buffer the caller passes, for the calls that have one. *)
Definition caller_buffer (c : call) : list byte :=
  match c with
  | ControlMsg _ _ _ _ bytes _ _ | BulkRead _ bytes _ _
  | BulkWrite _ bytes _ _ | InterruptWrite _ bytes _ _
  | InterruptRead _ bytes _ _ => bytes
  | _ => []
  end.

(** What a caller owes to [pkt_append(pkt, OctetType, size, bytes)]: the
    calls that send their buffer read [size] bytes of it. *)
Definition sends_within_buffer (c : call) : Prop :=
  match c with
  | ControlMsg _ _ _ _ bytes size _ | BulkWrite _ bytes size _
  | InterruptWrite _ bytes size _ => 0 ≤ size ≤ Z.of_nat (length bytes)
  | _ => True
  end.

(** What a caller owes for the buffer of a transfer: [size] bytes of it
    exist. *)
Definition buffer_holds_size (c : call) : Prop :=
  match c with
  | ControlMsg _ _ _ _ bytes size _ | BulkRead _ bytes size _
  | BulkWrite _ bytes size _ | InterruptWrite _ bytes size _
  | InterruptRead _ bytes size _ => 0 ≤ size ≤ Z.of_nat (length bytes)
  | _ => True
  end.

(** The [size] argument of a call that copies a payload out of its reply,
    0 for the other calls. *)
Definition transfer_size (c : call) : Z :=
  match c with
  | ControlMsg _ _ _ _ _ size _ | BulkRead _ _ size _
  | InterruptRead _ _ size _ => size
  | _ => 0
  end.

(** A transfer receives its reply in the packet it has made with
    [pkt_new(size + 128, op)].  [buffer_covers reply size]: from the start
    of the field behind the result, that buffer has [size] bytes left. *)
Definition buffer_covers (reply : option Packet) (size : Z) : Prop :=
  match reply with
  | Some pkt =>
      let it := (read_result (pkt_begin pkt)).2 in
      size ≤ Z.of_nat (length (it_val it ++ it_behind it))
  | None => True
  end.

Definition keep (bytes : list byte) (m : M Z) : M (Z * list byte) :=
  r ← m; ret (r, bytes).

(** Runs one call on handle [dev]; returns its result and the caller's
    buffer after the call. *)
Definition perform (env : ipc) (reply : option Packet) (dev : ptr) (c : call)
  : M (Z * list byte) :=
  match c with
  | Close => keep [] (usb_close env reply dev)
  | SetConfiguration v => keep [] (usb_set_configuration env reply dev v)
  | SetAltinterface v => keep [] (usb_set_altinterface env reply dev v)
  | Resetep ep => keep [] (usb_resetep env reply dev ep)
  | ClearHalt ep => keep [] (usb_clear_halt env reply dev ep)
  | Reset => keep [] (usb_reset env reply dev)
  | ClaimInterface i => keep [] (usb_claim_interface env reply dev i)
  | ReleaseInterface i => keep [] (usb_release_interface env reply dev i)
  | ControlMsg rt rq v i bytes size t =>
      usb_control_msg env reply dev rt rq v i bytes size t
  | BulkRead ep bytes size t => usb_bulk_read env reply dev ep bytes size t
  | BulkWrite ep bytes size t =>
      keep bytes (usb_bulk_write env reply dev ep bytes size t)
  | InterruptWrite ep bytes size t =>
      keep bytes (usb_interrupt_write env reply dev ep bytes size t)
  | InterruptRead ep bytes size t =>
      usb_interrupt_read env reply dev ep bytes size t
  | DetachKernelDriver i =>
      keep [] (usb_detach_kernel_driver_np env reply dev i)
  end.

(** One step of a client: a call on some handle, opening a device, or one
    of the enumeration calls, together with what the transport and the
    daemon answer to it. *)
Inductive step : Type :=
| OnHandle (dev : ptr) (c : call) (env : ipc) (reply : option Packet)
| Open (d : ptr) (env : ipc) (reply : option Packet)
| Init (env : ipc)
| FindBusses (env : ipc) (reply : option Packet)
| FindDevices (env : ipc) (reply : option Packet).

Definition run_step (st : step) : M unit :=
  match st with
  | OnHandle dev c env reply => perform env reply dev c;; skip
  | Open d env reply => usb_open env reply d;; skip
  | Init env => usb_init env
  | FindBusses env reply => usb_find_busses env reply;; skip
  | FindDevices env reply => usb_find_devices env reply;; skip
  end.

Fixpoint run_steps (sts : list step) : M unit :=
  match sts with
  | [] => skip
  | st :: rest => run_step st;; run_steps rest
  end.


(** ** String descriptors *)

(** Constants of [<usb.h>] and [<errno.h>]. *)
Definition USB_ENDPOINT_IN : Z := 0x80.
Definition USB_REQ_GET_DESCRIPTOR : Z := 0x06.
Definition USB_DT_STRING : Z := 0x03.
Definition EIO : Z := 5.
Definition EFBIG : Z := 27.

(** A [char] read as the [int] it promotes to ([char] is signed, as on
    x86), and an [int] converted to [size_t]. *)
Definition to_i8 (z : Z) : Z := (z + 2 ^ 7) mod 2 ^ 8 - 2 ^ 7.
Definition to_size (z : Z) : Z := z mod 2 ^ 64.

(** [buf[i] = c] in the caller's array. *)
Definition poke (buf : list byte) (i : Z) (c : byte) : res (list byte) :=
  if (i <? 0) || (Z.of_nat (length buf) <=? i) then Err OutOfBounds
  else Ok (<[Z.to_nat i := c]> buf).

(** [usb_get_string] *)
Definition usb_get_string (env : ipc) (reply : option Packet) (dev : ptr)
    (index langid : Z) (buf : list byte) (buflen : Z) : M (Z * list byte) :=
  usb_control_msg env reply dev USB_ENDPOINT_IN USB_REQ_GET_DESCRIPTOR
    (to_int (USB_DT_STRING * 2 ^ 8 + index)) langid buf (to_int buflen) 1000.

(** The loop [for (di = 0, si = 2; si < tbuf[0]; si += 2)] of
    [usb_get_string_simple], from [si], [di] on. *)
Fixpoint copy_chars (fuel : nat) (tbuf : list byte) (buflen si di : Z)
    (buf : list byte) : res (Z * list byte) :=
  if si <? to_i8 (nth 0 tbuf 0) then
    if to_size (buflen - 1) <=? to_size di then Ok (di, buf)
    else
      match fuel with
      | O => Err OutOfFuel
      | S fuel' =>
          let c := if to_i8 (nth (Z.to_nat (si + 1)) tbuf 0) =? 0
                   then to_u8 (nth (Z.to_nat si) tbuf 0)
                   else 63 in
          buf ← poke buf di c;
          copy_chars fuel' tbuf buflen (si + 2) (di + 1) buf
      end
  else Ok (di, buf).

(** [langid = tbuf[2] | (tbuf[3] << 8)] *)
Definition langid_of (tbuf : list byte) : Z :=
  Z.lor (to_i8 (nth 2 tbuf 0)) (Z.shiftl (to_i8 (nth 3 tbuf 0)) 8).

(** [usb_get_string_simple].  The two control transfers have their own
    answers.  [junk] is what the stack holds where [char tbuf[255]] is
    placed.  Returns the result and the caller's [buf]. *)
Definition usb_get_string_simple (env1 env2 : ipc)
    (reply1 reply2 : option Packet) (junk : list byte) (dev : ptr)
    (index : Z) (buf : list byte) (buflen : Z) : M (Z * list byte) :=
  let tbuf := resize 255 0 junk in
  r ← usb_get_string env1 reply1 dev 0 0 tbuf 255;
  if r.1 <? 0 then ret (r.1, buf)
  else if r.1 <? 4 then ret (- EIO, buf)
  else
    let tbuf := r.2 in
    let langid := langid_of tbuf in
    r ← usb_get_string env2 reply2 dev index langid tbuf 255;
    let tbuf := r.2 in
    if r.1 <? 0 then ret (r.1, buf)
    else if negb (to_i8 (nth 1 tbuf 0) =? USB_DT_STRING) then ret (- EIO, buf)
    else if to_i8 (nth 0 tbuf 0) >? r.1 then ret (- EFBIG, buf)
    else
      c ← lift (copy_chars (Z.to_nat (to_i8 (nth 0 tbuf 0))) tbuf buflen 2 0
                  buf);
      buf ← lift (poke c.2 c.1 0);
      ret (c.1, buf).

End Library.

(** ** Shapes of the cache *)

(** The singly linked bus list that starts at [p]. *)
Fixpoint bus_chain (s : state) (p : ptr) (l : list nat) : Prop :=
  match l with
  | [] => p = NULL
  | a :: l' =>
      p = Ptr a ∧ ∃ b, bus_heap s !! a = Some b ∧ bus_chain s (bus_next b) l'
  end.

(** The cache that starts at [p]: the addresses of its busses, each with
    the addresses of its devices, in list order. *)
Fixpoint cache_tree (s : state) (p : ptr) (t : list (nat * list nat)) : Prop :=
  match t with
  | [] => p = NULL
  | (a, ds) :: t' =>
      p = Ptr a ∧
      ∃ b, bus_heap s !! a = Some b ∧ dev_chain s (devices b) ds ∧
           cache_tree s (bus_next b) t'
  end.

(** An endpoint, alternate setting or interface as the synchroniser
    leaves it: arrays of the decoded counts, images no longer than their
    structures, no extra descriptors. *)
Definition endpoint_loaded (e : usb_endpoint_descriptor) : Prop :=
  Z.of_nat (length (ep_raw e)) ≤ sizeof_usb_endpoint_descriptor ∧
  ep_extra e = NULL ∧ ep_extralen e = 0.

Definition altsetting_loaded (a : usb_interface_descriptor) : Prop :=
  Z.of_nat (length (as_raw a)) ≤ sizeof_usb_interface_descriptor ∧
  as_extra a = NULL ∧ as_extralen a = 0 ∧
  ∃ n, bNumEndpoints a = Some n ∧
       if 0 <? n
       then ∃ eps, endpoint a = Some eps ∧ Z.of_nat (length eps) = n ∧
                   Forall endpoint_loaded eps
       else endpoint a = None.

Definition interface_loaded (i : usb_interface) : Prop :=
  0 ≤ num_altsetting i ∧
  (0 < num_altsetting i →
   ∃ alts, altsetting i = Some alts ∧
           Z.of_nat (length alts) = num_altsetting i ∧
           Forall altsetting_loaded alts).

(** The string descriptor of USB 2.0, section 9.6.7, for the UTF-16 code
    units [us]: length, type, then each unit low byte first.  It states
    what [usb_get_string_simple] decodes. *)
Definition string_descriptor (us : list Z) : list byte :=
  [2 + 2 * Z.of_nat (length us); USB_DT_STRING]
  ++ flat_map (λ u, [u mod 2 ^ 8; u / 2 ^ 8]) us.

(** The character [usb_get_string_simple] stores for a code unit. *)
Definition narrowed (u : Z) : byte := if u / 2 ^ 8 =? 0 then u else 63.

(** An alternate setting whose [endpoint] pointer was never assigned is
    safe to destroy only if the bytes copied over the pointer are null. *)
Definition endpoints_freeable (a : usb_interface_descriptor) : Prop :=
  endpoint a = None → stray_pointer_is_null (as_raw a) 16 = Ok true.

(** A device that the exit hook can destroy. *)
Definition destroyable (d : usb_device) : Prop :=
  usb_destroy_configuration d = Ok tt ∧ children d = NULL.

(** ** A concrete codec for the scenarios *)

Module Wire.

(** Modelled from the spec: the fields of a packet, which the missing
    [protocol.c] decodes.  A field has a tag and raw bytes; a structure or
    sequence element holds the fields nested in it. *)
#[warnings="-register-all"]
Inductive item : Type :=
| Item (t : tag) (val : list byte) (sub : list item).

(** Modelled from the spec: a packet is its leading operation code and the
    fields that follow it.  [slack] is what the packet buffer holds behind
    the field a transfer copies from (for the replies below, the last
    one): the rest of the buffer, which is larger than the reply. *)
Record packet : Type := {
  op : option Op;
  fields : list item;
  slack : list byte
}.

(** Modelled from the spec: the cursor of the missing [protocol.c].  It
    exposes the tag and bytes of the current field; [todo] are the fields
    after it in wire order.  Past the last field the cursor is invalid.
    [cur_slack] is the [slack] of the packet. *)
Record cursor : Type := {
  cur_type : tag;
  cur_val : list byte;
  cur_sub : list item;
  todo : list item;
  cur_slack : list byte
}.

(** Modelled from the spec: "advance" moves to the field that follows the
    current one, skipping what is nested in it (missing [iter_next]). *)
Definition next (c : cursor) : cursor * bool :=
  match todo c with
  | [] => ({| cur_type := InvalidType; cur_val := []; cur_sub := [];
              todo := []; cur_slack := cur_slack c |}, false)
  | Item t v sub :: tl =>
      ({| cur_type := t; cur_val := v; cur_sub := sub; todo := tl;
          cur_slack := cur_slack c |}, true)
  end.

(** Modelled from the spec: "descend" moves to the first field nested in
    the current one (missing [iter_enter]). *)
Definition enter (c : cursor) : cursor :=
  (next {| cur_type := cur_type c; cur_val := cur_val c; cur_sub := [];
           todo := cur_sub c ++ todo c; cur_slack := cur_slack c |}).1.

(** Modelled from the spec: the cursor on the first field (missing
    [pkt_begin]), and whether there is a first field. *)
Definition begin (p : packet) : cursor :=
  (next {| cur_type := InvalidType; cur_val := []; cur_sub := [];
           todo := fields p; cur_slack := slack p |}).1.

Definition begin_ok (p : packet) : bool :=
  (next {| cur_type := InvalidType; cur_val := []; cur_sub := [];
           todo := fields p; cur_slack := slack p |}).2.

(** The value of a byte string, least significant byte first. *)
Definition le_value (bs : list byte) : Z :=
  foldr (λ b acc, b + 256 * acc) 0 bs.

(** Modelled from the spec: an integer of the declared byte width, read
    unsigned and returned as a C [unsigned] (missing [as_uint]). *)
Definition uint_of (bs : list byte) : Z := to_u32 (le_value bs).

(** Modelled from the spec: the same bytes read as a signed integer of
    that width and returned as a C [int] (missing [as_int]). *)
Definition int_of (bs : list byte) : Z :=
  let w := 8 * Z.of_nat (length bs) in
  to_int (if (0 <? w) && (2 ^ (w - 1) <=? le_value bs)
          then le_value bs - 2 ^ w
          else le_value bs).

(** Modelled from the spec: the characters before the terminator (missing
    [as_string]). *)
Fixpoint string_of (bs : list byte) : list byte :=
  match bs with
  | [] => []
  | b :: tl => if b =? 0 then [] else b :: string_of tl
  end.

Global Instance codec : PacketCodec := {
  Packet := packet;
  Iterator := cursor;
  pkt_op := op;
  pkt_begin := begin;
  pkt_begin_ok := begin_ok;
  it_type := cur_type;
  it_val := cur_val;
  it_behind := cur_slack;
  iter_next := next;
  iter_enter := enter;
  as_int := int_of;
  as_uint := uint_of;
  as_string := string_of
}.

Definition Int (bs : list byte) : item := Item IntegerType bs [].
Definition Octet (bs : list byte) : item := Item OctetType bs [].
Definition Raw (bs : list byte) : item := Item RawType bs [].
Definition Struct (sub : list item) : item := Item StructureType [] sub.
Definition Sequence (sub : list item) : item := Item SequenceType [] sub.

(** A transport that is up: the segment holds descriptor 5 and the peer of
    every non-negative descriptor answers. *)
Definition up : ipc :=
  {| shmget_ok := true; shmat_fd := Some 5;
     getpeername_ok := λ fd, 0 <=? fd |}.

(** *** Enumeration payloads *)

(** The characters of a directory or file name, with the terminator. *)
Definition name_001 : list byte := [48; 48; 49; 0].
Definition name_003 : list byte := [48; 48; 51; 0].

(** A device descriptor of a root hub, vendor [0x1d6b], product [0x0002];
    the other bytes are left to the caller. *)
Definition hub_descriptor (b0 b1 b2 b3 b4 b5 b6 b7 b12 b13 b14 b15 b16 b17 : Z)
  : list byte :=
  [b0; b1; b2; b3; b4; b5; b6; b7; 107; 29; 2; 0; b12; b13; b14; b15; b16; b17].

(** A configuration descriptor with [n] interfaces. *)
Definition config_bytes (n : Z) (c0 c1 c2 c3 c5 c6 c7 c8 : Z) : list byte :=
  [c0; c1; c2; c3; n; c5; c6; c7; c8].

(** An interface descriptor with [n] endpoints. *)
Definition altsetting_bytes (n : Z) (a0 a1 a2 a3 a5 a6 a7 a8 : Z) : list byte :=
  [a0; a1; a2; a3; n; a5; a6; a7; a8].

Definition linux_hub : list byte :=
  hub_descriptor 18 1 0 2 9 0 1 64 6 5 3 2 1 1.

(** Device "003", number 3: one interface, one alternate setting, no
    endpoint. *)
Definition device_003 (desc cfg alt : list byte) : item :=
  Sequence [Octet name_003; Raw desc; Raw cfg; Int [1; 0; 0; 0]; Raw alt;
            Int [3]].

(** A reply to find-devices: the change count, then bus "001" at location
    1 with the devices [devs]. *)
Definition enumeration (count : list byte) (devs : list item) : packet :=
  {| op := Some UsbFindDevices;
     fields := [Int count; Struct (Octet name_001 :: Int [1; 0; 0; 0] :: devs)];
     slack := [] |}.

Definition one_device : packet :=
  enumeration [1; 0; 0; 0]
    [device_003 linux_hub (config_bytes 1 9 2 25 0 1 0 224 0)
       (altsetting_bytes 0 9 4 0 0 9 0 0 0)].

(** The same bus with no device left on it. *)
Definition no_device : packet := enumeration [1; 0; 0; 0] [].

(** A reply that reports no bus at all. *)
Definition no_bus : packet :=
  {| op := Some UsbFindDevices; fields := [Int [1; 0; 0; 0]]; slack := [] |}.

(** A device record whose second raw field (the configuration) is absent. *)
Definition device_without_config : packet :=
  enumeration [1; 0; 0; 0] [Sequence [Octet name_003; Raw linux_hub; Int [3]]].

(** A device record whose descriptor field is one byte longer than
    [struct usb_device_descriptor]. *)
Definition long_descriptor : packet :=
  enumeration [1; 0; 0; 0]
    [device_003 (linux_hub ++ [255]) (config_bytes 1 9 2 25 0 1 0 224 0)
       (altsetting_bytes 0 9 4 0 0 9 0 0 0)].

(** The state a call leaves, when it returns. *)
Definition after {A} (o : outcome A) : option state :=
  match o with Ret _ s => Some s | _ => None end.

(** [usb_find_devices] on each reply in turn, while the calls return. *)
Fixpoint syncs (replies : list packet) (s : state) : outcome Z :=
  match replies with
  | [] => Ret 0 s
  | [p] => usb_find_devices up (Some p) s
  | p :: rest =>
      match usb_find_devices up (Some p) s with
      | Ret _ s' => syncs rest s'
      | o => o
      end
  end.

(** *** Replies to one-shot calls *)

(** A reply with leading operation [o], result [res] and an integer
    [v] after it. *)
Definition reply2 (o : Op) (res v : list byte) : packet :=
  {| op := Some o; fields := [Int res; Int v]; slack := [] |}.

(** A reply with leading operation [o], result [res] and payload [data],
    in a buffer that holds [rest] behind it. *)
Definition reply_in_buffer (o : Op) (res data rest : list byte) : packet :=
  {| op := Some o; fields := [Int res; Octet data]; slack := rest |}.

(** The same when the reply fills its buffer. *)
Definition reply_data (o : Op) (res data : list byte) : packet :=
  reply_in_buffer o res data [].

Definition minus_one : list byte := [255; 255; 255; 255].

(** The state after [one_device] was synchronised into the empty cache:
    bus at address 2, device at address 4. *)
Definition enumerated : state :=
  match usb_find_devices up (Some one_device) initial_state with
  | Ret _ s => s
  | _ => initial_state
  end.

(** ... and after the device was opened with reply (result 0, token 7):
    handle at address 5. *)
Definition opened : state :=
  match usb_open up (Some (reply2 UsbOpen [0; 0; 0; 0] [7; 0; 0; 0])) (Ptr 4)
          enumerated with
  | Ret _ s => s
  | _ => enumerated
  end.

(** A process that cached descriptor 5 while the daemon's socket is now
    descriptor 6: 5 fails the peer check, the segment offers 6. *)
Definition stale : state := set_remote_fd 5 initial_state.
Definition moved : ipc :=
  {| shmget_ok := true; shmat_fd := Some 6;
     getpeername_ok := λ fd, fd =? 6 |}.

(** The daemon is gone: the segment still holds descriptor 5, and no peer
    answers. *)
Definition gone : ipc :=
  {| shmget_ok := true; shmat_fd := Some 5; getpeername_ok := λ _, false |}.

(** *** Further scenario data *)

(** The transport once the shared memory segment is gone while the socket
    is still alive. *)
Definition detached : ipc :=
  {| shmget_ok := false; shmat_fd := None;
     getpeername_ok := λ fd, 0 <=? fd |}.

(** Device "004", number 4: one interface, one alternate setting, one
    interrupt endpoint. *)
Definition name_004 : list byte := [48; 48; 52; 0].
Definition endpoint_bytes : list byte := [7; 5; 129; 3; 8; 0; 10].
Definition device_004 : item :=
  Sequence [Octet name_004; Raw linux_hub;
            Raw (config_bytes 1 9 2 34 0 1 0 160 50); Int [1; 0; 0; 0];
            Raw (altsetting_bytes 1 9 4 0 0 3 1 2 0); Raw endpoint_bytes;
            Int [4]].

Definition one_mouse : packet := enumeration [1; 0; 0; 0] [device_004].

(** The state after [one_mouse] was synchronised into the empty cache:
    bus at address 2, device at address 4. *)
Definition with_mouse : state :=
  match usb_find_devices up (Some one_mouse) initial_state with
  | Ret _ s => s
  | _ => initial_state
  end.

(** The state after [one_device] and then [no_device] were synchronised. *)
Definition emptied : state :=
  match syncs [one_device; no_device] initial_state with
  | Ret _ s => s
  | _ => initial_state
  end.

(** The state [enumerated] on entry to the bus loop of a further
    synchronisation: the local [vbus] is at address 5. *)
Definition resync_entry : state :=
  match local_bus (with_bus_next (remote_bus enumerated) zero_bus)
          enumerated with
  | Ret _ s => s
  | _ => enumerated
  end.

(** The empty cache on entry to the bus loop of a first synchronisation:
    the local [vbus] is at address 1. *)
Definition first_entry : state :=
  match local_bus (with_bus_next (remote_bus initial_state) zero_bus)
          initial_state with
  | Ret _ s => s
  | _ => initial_state
  end.

(** A cache of two busses without devices, at addresses 2 and 3. *)
Definition two_busses : state :=
  set_remote_bus (Ptr 2)
    (set_brk 4
       (set_bus_heap (<[2%nat := with_bus_next (Ptr 3) zero_bus]>
                        (<[3%nat := with_bus_prev (Ptr 2) zero_bus]> ∅))
          initial_state)).

(** The answers to the two control transfers of a string request: the
    language table with the one language [0x0409], and the descriptor of
    the code units [us]. *)
Definition languages : packet :=
  reply_data UsbControlMsg [4; 0; 0; 0] [4; 3; 9; 4].
Definition string_reply (us : list Z) : packet :=
  reply_data UsbControlMsg [2 + 2 * Z.of_nat (length us); 0; 0; 0]
    (string_descriptor us).

End Wire.

(** * Properties *)

Create HintDb monad.
#[local] Hint Unfold get modify say skip raise lift : monad.
#[local] Hint Unfold load_hdl store_hdl free_hdl malloc_hdl load_dev load_bus
  keep append_octets copy_payload : monad.

Ltac run := autounfold with monad; cbn.

(** ** Leaving the process *)

Lemma free_bus_devices_outcome fuel :
  ∀ cur s,
    match free_bus_devices fuel cur s with
    | Ret _ s' =>
        hook_frame s s' ∧ remote_bus s' = remote_bus s ∧
        usb_busses s' = usb_busses s
    | Exit _ _ => False
    | Fault _ => True
    end.
Proof.
  unfold hook_frame.
  induction fuel as [|fuel IH]; intros cur s; cbn [free_bus_devices].
  all: cbn [bind M_seq]; unfold load_bus, load_dev.
  all: destruct cur as [|a]; [done|].
  all: destruct (bus_heap s !! a) as [b|] eqn:Hb; [|done].
  all: destruct (devices b) as [|d] eqn:Hd; cbn [ptr_is_null]; [done|].
  all: destruct (dev_heap s !! d) as [dv|] eqn:Hdv; [|done].
  - done.
  - unfold store_bus, load_bus, modify, lift, free_dev, raise.
    cbn [bind M_seq ret]. rewrite Hb.
    destruct (usb_destroy_configuration dv); [|done]. cbn [ret M_seq].
    destruct (free_foreign (children dv)); [|done]. cbn [ret M_seq dev_heap
      set_bus_heap]. rewrite Hdv.
    match goal with |- context [free_bus_devices fuel ?c ?s1] =>
      specialize (IH c s1); destruct (free_bus_devices fuel c s1)
    end; [|done..].
    cbn in IH. exact IH.
Qed.

Lemma free_busses_outcome fuel :
  ∀ s,
    match free_busses fuel s with
    | Ret _ s' =>
        hook_frame s s' ∧ remote_bus s' = NULL ∧ usb_busses s' = usb_busses s
    | Exit _ _ => False
    | Fault _ => True
    end.
Proof.
  unfold hook_frame.
  induction fuel as [|fuel IH]; intros s; cbn [free_busses].
  all: cbn [bind M_seq]; unfold get.
  all: destruct (remote_bus s) as [|a] eqn:Hr; cbn [ptr_is_null];
    [by cbn|].
  all: unfold load_bus; destruct (bus_heap s !! a) as [b|] eqn:Hb; [|done].
  - done.
  - unfold modify. cbn [bind M_seq].
    match goal with |- context [free_bus_devices ?n ?c ?s1] =>
      pose proof (free_bus_devices_outcome n c s1) as Hd;
      destruct (free_bus_devices n c s1) as [[] s2| |]
    end; [|done..].
    unfold hook_frame in Hd. cbn in Hd.
    unfold free_bus. destruct (bus_heap s2 !! a); [|done].
    match goal with |- context [free_busses fuel ?s1] =>
      specialize (IH s1); destruct (free_busses fuel s1)
    end; [|done..].
    cbn in IH. destruct Hd as ((? & ? & ? & ? & ?) & ? & ?).
    destruct IH as ((? & ? & ? & ? & ?) & ? & ?).
    split_and!; congruence.
Qed.

(** The exit hook returns or faults.  When it returns, the list head and
    the public variable are null, and the transport, the handles, the
    allocator and the console are as they were. *)
Lemma deinit_hostfd_outcome s :
  match deinit_hostfd s with
  | Ret _ s' => hook_frame s s' ∧ remote_bus s' = NULL ∧ usb_busses s' = NULL
  | Exit _ _ => False
  | Fault _ => True
  end.
Proof.
  unfold deinit_hostfd, modify, get. cbn [bind M_seq].
  match goal with |- context [free_busses ?n ?s1] =>
    pose proof (free_busses_outcome n s1) as Hb;
    destruct (free_busses n s1)
  end; [|done..].
  exact Hb.
Qed.

Arguments exit : simpl never.
Arguments deinit_hostfd : simpl never.

(** [exit] ends the process.  With the hook registered, it faults exactly
    as the hook does on the state at the call, and otherwise exits with
    the given status in the state the hook leaves. *)
Lemma exit_outcome {A} (code : Z) (s : state) :
  exitf_hooked s = true →
  match exit (A := A) code s with
  | Ret _ _ => False
  | Exit c s' =>
      c = code ∧ hook_frame s s' ∧ remote_bus s' = NULL ∧ usb_busses s' = NULL
  | Fault f => deinit_hostfd s = Fault f
  end.
Proof.
  intros Hk. unfold exit. rewrite Hk.
  pose proof (deinit_hostfd_outcome s) as Hd.
  destruct (deinit_hostfd s); done.
Qed.

(** ** The transport *)

(** One run of [init_hostfd].  [fd0] is the descriptor the peer check is
    applied to and [lines] what is printed before it: the cached
    descriptor and nothing, or, when none is cached, what the provider
    hands out and the lines of the one access to it.  The call returns
    [fd0] if it is a descriptor that passes the check, and goes to
    [exit(1)] otherwise. *)
Lemma init_hostfd_run env s :
  ∃ fd0 lines,
    (remote_fd s ≠ -1 → fd0 = remote_fd s ∧ lines = []) ∧
    (remote_fd s = -1 →
     fd0 = acquired env ∧
     ∃ rest, lines = IpcAccessing :: rest ∧ IpcAccessing ∉ rest) ∧
    ((fd0 ≠ -1 ∧ getpeername_ok env fd0 = true ∧
      ∃ s', init_hostfd env s = Ret fd0 s' ∧ frame s s' ∧
            remote_fd s' = fd0 ∧ exitf_hooked s' = true ∧
            console s' = console s ++ lines) ∨
     ((fd0 = -1 ∨ getpeername_ok env fd0 = false) ∧
      ∃ s0, init_hostfd env s = exit 1 s0 ∧ frame s s0 ∧
            remote_fd s0 = -1 ∧ exitf_hooked s0 = true ∧
            console s0 = console s ++ lines ++ [IpcUnable])).
Proof.
  exists (if remote_fd s =? -1 then acquired env else remote_fd s),
    (if remote_fd s =? -1
     then IpcAccessing :: (if shmget_ok env then [IpcAttaching] else [])
                          ++ [IpcRemoteFd (acquired env)]
     else []).
  unfold init_hostfd, frame, acquired. run.
  destruct (exitf_hooked s) eqn:Hk; run.
  all: destruct (remote_fd s =? -1) eqn:E; run.
  all: try (destruct (shmget_ok env); run; [destruct (shmat_fd env); run|]).
  all: try (apply Z.eqb_eq in E; rewrite ?E).
  all: match goal with
       | |- context [getpeername_ok ?e ?x] =>
           destruct (getpeername_ok e x) eqn:G
       end; run.
  all: try match goal with
           | |- context [?x =? -1] => destruct (x =? -1) eqn:E2
           end; run.
  all: rewrite ?E.
  all: (split; [intros ?; first [lia | split; reflexivity]|]).
  all: (split; [intros ?; first [lia | split; [reflexivity|];
                  eexists; split; [reflexivity|];
                  rewrite ?not_elem_of_cons; repeat split; try discriminate;
                  apply not_elem_of_nil]|]).
  all: first
    [ left; split; [lia|]; split; [done|]; eexists;
      split; [reflexivity|]; cbn; rewrite <- ?app_assoc, ?app_nil_r;
      split_and!; try done; lia
    | right; split; [first [left; lia | right; done]|]; eexists;
      split; [reflexivity|]; cbn; rewrite <- ?app_assoc;
      split_and!; try done; lia ].
Qed.

Lemma init_hostfd_cases env s :
  (∃ fd s', init_hostfd env s = Ret fd s' ∧ frame s s' ∧ remote_fd s' = fd ∧
            fd ≠ -1 ∧ getpeername_ok env fd = true ∧ exitf_hooked s' = true) ∨
  (∃ s0, init_hostfd env s = exit 1 s0 ∧ frame s s0 ∧ remote_fd s0 = -1 ∧
         exitf_hooked s0 = true ∧ last (console s0) = Some IpcUnable).
Proof.
  destruct (init_hostfd_run env s) as (fd0 & lines & _ & _ & [R|X]).
  - destruct R as (Hne & Hp & s' & E & F & Hfd & Hk & _). left. eauto 10.
  - destruct X as (_ & s0 & E & F & Hfd & Hk & Hc). right.
    exists s0. split_and!; try done.
    by rewrite Hc, app_assoc, last_snoc.
Qed.

Lemma init_hostfd_frame env s fd s' :
  init_hostfd env s = Ret fd s' → frame s s'.
Proof.
  destruct (init_hostfd_cases env s)
    as [(fd' & s1 & E & F & _)|(s0 & E & _ & _ & Hk & _)]; rewrite E.
  - intros [= <- <-]; exact F.
  - pose proof (exit_outcome (A := Z) 1 s0 Hk) as Hx. intros Hr.
    by rewrite Hr in Hx.
Qed.

(** C9, as stated, fails.  The process of [Wire.stale] holds descriptor 5,
    which fails the peer check, while the provider would hand out the live
    descriptor 6: [init_hostfd] exits with status 1 and its only output is
    the line "unable to access remote fd"; the segment was not accessed. *)
Lemma probe_failure_exits_without_reacquisition :
  getpeername_ok Wire.moved 5 = false ∧
  shmat_fd Wire.moved = Some 6 ∧ getpeername_ok Wire.moved 6 = true ∧
  ∃ s', init_hostfd Wire.moved Wire.stale = Exit 1 s' ∧
        console s' = [IpcUnable] ∧ remote_fd s' = -1.
Proof.
  split_and!; [reflexivity..|]. eexists.
  split; [vm_compute; reflexivity|]. split; reflexivity.
Qed.

(** C9, amended.  When the cached transport descriptor fails the per-call
    peer check, [init_hostfd] invalidates it and goes to [exit(1)] at
    once, without asking the transport provider again: the call never
    returns, the only line printed is the failure message, and the
    process ends with status 1 unless the exit hook, which [exit] runs,
    faults on the cache.  A cached descriptor that passes the check is
    returned without asking the provider either.  The provider is asked
    only when no descriptor is cached on entry, and then exactly once,
    before the peer check: the check is applied to what the provider
    handed out, which is returned if it passes, while [exit(1)] follows
    if it fails or nothing was handed out. *)
Theorem probe_failure_is_fatal_at_once (env : ipc) (s : state) :
  (remote_fd s ≠ -1 → getpeername_ok env (remote_fd s) = false →
   match init_hostfd env s with
   | Ret _ _ => False
   | Exit code s' =>
       code = 1 ∧ remote_fd s' = -1 ∧ console s' = console s ++ [IpcUnable]
   | Fault f => ∃ s0, frame s s0 ∧ deinit_hostfd s0 = Fault f
   end) ∧
  (remote_fd s ≠ -1 → getpeername_ok env (remote_fd s) = true →
   ∃ s', init_hostfd env s = Ret (remote_fd s) s' ∧
         remote_fd s' = remote_fd s ∧ console s' = console s) ∧
  (remote_fd s = -1 →
   ∃ rest, (IpcAccessing ∉ rest) ∧
     match init_hostfd env s with
     | Ret fd s' =>
         fd = acquired env ∧ fd ≠ -1 ∧ getpeername_ok env fd = true ∧
         remote_fd s' = fd ∧ console s' = console s ++ IpcAccessing :: rest
     | Exit code s' =>
         (acquired env = -1 ∨ getpeername_ok env (acquired env) = false) ∧
         code = 1 ∧ remote_fd s' = -1 ∧
         console s' = console s ++ IpcAccessing :: rest ++ [IpcUnable]
     | Fault f =>
         (acquired env = -1 ∨ getpeername_ok env (acquired env) = false) ∧
         ∃ s0, frame s s0 ∧ deinit_hostfd s0 = Fault f
     end).
Proof.
  destruct (init_hostfd_run env s) as (fd0 & lines & Hc & Hn & Hrun).
  split_and!.
  - intros Hfd Hp. destruct (Hc Hfd) as [-> ->].
    destruct Hrun as [(_ & Hp' & _)|(_ & s0 & E & F & Hfd0 & Hk & Hl)];
      [congruence|].
    rewrite E. pose proof (exit_outcome (A := Z) 1 s0 Hk) as Hx.
    destruct (exit 1 s0) as [| c s' | f]; [done| |by eauto].
    destruct Hx as (-> & (Hr & _ & _ & _ & Hcs) & _).
    split_and!; [done|congruence|]. by rewrite Hcs, Hl.
  - intros Hfd Hp. destruct (Hc Hfd) as [-> ->].
    destruct Hrun as [(_ & _ & s' & E & _ & Hfd' & _ & Hl)|([?|?] & _)];
      [|congruence..].
    exists s'. rewrite app_nil_r in Hl. done.
  - intros Hfd. destruct (Hn Hfd) as (-> & rest & -> & Hrest).
    exists rest. split; [exact Hrest|].
    destruct Hrun as [(Hne & Hp & s' & E & _ & Hfd' & _ & Hl)
                     |(Hbad & s0 & E & F & Hfd0 & Hk & Hl)]; rewrite E.
    + done.
    + pose proof (exit_outcome (A := Z) 1 s0 Hk) as Hx.
      destruct (exit 1 s0) as [| c s' | f]; [done| |by eauto].
      destruct Hx as (-> & (Hr & _ & _ & _ & Hcs) & _).
      split_and!; [done|done|congruence|]. by rewrite Hcs, Hl.
Qed.

(** The amended property at work: a cached descriptor that fails the
    check, one that passes it, a process without a descriptor that obtains
    one, and one that obtains a descriptor whose peer is gone. *)
Lemma probe_failure_is_fatal_at_once_witness :
  (∃ s', init_hostfd Wire.moved Wire.stale = Exit 1 s' ∧ remote_fd s' = -1 ∧
         console s' = [IpcUnable]) ∧
  (∃ s', init_hostfd Wire.up Wire.stale = Ret 5 s' ∧
         remote_fd s' = 5 ∧ console s' = []) ∧
  (∃ s', init_hostfd Wire.moved initial_state = Ret 6 s' ∧
         remote_fd s' = 6 ∧
         console s' = [IpcAccessing; IpcAttaching; IpcRemoteFd 6]) ∧
  (∃ s', init_hostfd Wire.gone initial_state = Exit 1 s' ∧
         remote_fd s' = -1 ∧
         console s'
         = [IpcAccessing; IpcAttaching; IpcRemoteFd 5; IpcUnable]).
Proof.
  split_and!.
  - destruct (probe_failure_is_fatal_at_once Wire.moved Wire.stale)
      as (H1 & _ & _).
    assert (remote_fd Wire.stale ≠ -1) as Hfd by (vm_compute; discriminate).
    specialize (H1 Hfd eq_refl).
    destruct (init_hostfd Wire.moved Wire.stale) as [fd s'|c s'|f] eqn:E;
      [destruct H1| |vm_compute in E; discriminate].
    destruct H1 as (-> & Hr & Hc). exists s'. split_and!; done.
  - destruct (probe_failure_is_fatal_at_once Wire.up Wire.stale)
      as (_ & H2 & _).
    assert (remote_fd Wire.stale ≠ -1) as Hfd by (vm_compute; discriminate).
    exact (H2 Hfd eq_refl).
  - destruct (probe_failure_is_fatal_at_once Wire.moved initial_state)
      as (_ & _ & H3).
    destruct (H3 eq_refl) as (rest & _ & Hm).
    destruct (init_hostfd Wire.moved initial_state) as [fd s'|c s'|f] eqn:E;
      [|vm_compute in E; discriminate..].
    destruct Hm as (-> & _ & _ & Hr & _). exists s'.
    split_and!; [reflexivity|exact Hr|].
    vm_compute in E. by injection E as <-.
  - destruct (probe_failure_is_fatal_at_once Wire.gone initial_state)
      as (_ & _ & H3).
    destruct (H3 eq_refl) as (rest & _ & Hm).
    destruct (init_hostfd Wire.gone initial_state) as [fd s'|c s'|f] eqn:E;
      [vm_compute in E; discriminate| |vm_compute in E; discriminate].
    destruct Hm as (_ & -> & Hr & _). exists s'.
    split_and!; [reflexivity|exact Hr|].
    vm_compute in E. by injection E as <-.
Defined.

(** ** One-shot remote calls *)

Arguments init_hostfd : simpl never.

Section AnyCodec.
Context `{PacketCodec}.

Ltac enter_call Hi :=
  cbn [bind M_seq];
  match goal with
  | |- context [init_hostfd ?e ?s] =>
      let fd := fresh "fd" in
      let s0 := fresh "s0" in
      destruct (init_hostfd e s) as [fd s0| |] eqn:Hi; try discriminate
  end.

Ltac unfold_calls :=
  unfold usb_close, usb_set_configuration, usb_set_altinterface,
    usb_resetep, usb_clear_halt, usb_reset, usb_claim_interface,
    usb_release_interface, usb_control_msg, usb_bulk_read, usb_bulk_write,
    usb_interrupt_write, usb_interrupt_read, usb_detach_kernel_driver_np.

Lemma mismatch_answer op reply :
  match reply with Some pkt => pkt_op pkt ≠ Some op | None => True end →
  answer op reply = None.
Proof.
  unfold answer. destruct reply as [pkt|]; [|done].
  intros Hne. rewrite bool_decide_eq_false_2; done.
Qed.

Lemma mismatch_result op reply :
  match reply with Some pkt => pkt_op pkt ≠ Some op | None => True end →
  result_of op reply = -1.
Proof. intros Hm. unfold result_of. by rewrite mismatch_answer. Qed.

(** Every call except the bulk read tests the leading byte of the reply:
    on a reply for another operation it returns [-1] and leaves the
    caller's buffer as it was. *)
Lemma opcode_mismatch_no_result env reply dev c s r bytes s' :
  (∀ ep b sz t, c ≠ BulkRead ep b sz t) →
  match reply with
  | Some pkt => pkt_op pkt ≠ Some (request_op c)
  | None => True
  end →
  perform env reply dev c s = Ret (r, bytes) s' →
  r = -1 ∧ bytes = caller_buffer c.
Proof.
  intros Hc Hm.
  pose proof (mismatch_result _ _ Hm) as Hr.
  pose proof (mismatch_answer _ _ Hm) as Ha.
  destruct c; cbn in Hr, Ha; cbn [perform caller_buffer].
  10: { exfalso. by eapply Hc. }
  all: unfold_calls; rewrite ?Hr, ?Ha.
  all: unfold keep; enter_call Hi.
  all: destruct dev as [|a]; run; try discriminate.
  all: destruct (hdl_heap s0 !! a) eqn:Hh; run; try discriminate.
  all: rewrite ?Hh; run.
  all: repeat (case_match; run; try discriminate).
  all: intros ?; simplify_eq; done.
Qed.

(** The primary result [usb_open] decodes is the one every call decodes. *)
Lemma open_result reply :
  match answer UsbOpen reply with
  | Some it => (read_result it).1
  | None => -1
  end = result_of UsbOpen reply.
Proof. reflexivity. Qed.

(** C7: [usb_open] returns a handle exactly when the primary result of the
    reply is non-negative; the handle is a fresh object whose token is the
    integer that follows the result, and whose selectors are unset.  With a
    negative (or missing) result it returns [NULL] and allocates nothing.
    [usb_close] frees the handle whatever the reply is. *)
Theorem usb_open_close_contract (env : ipc) (reply : option Packet)
    (s s0 : state) (fd : Z) :
  init_hostfd env s = Ret fd s0 →
  (∀ dev d b,
     dev_heap s !! dev = Some d → dev_bus d = Ptr b →
     is_Some (bus_heap s !! b) →
     ∃ p s1,
       usb_open env reply (Ptr dev) s = Ret p s1 ∧
       (p ≠ NULL ↔ 0 ≤ result_of UsbOpen reply) ∧
       match p with
       | NULL => s1 = s0
       | Ptr a =>
           a = brk s ∧ brk s1 = S (brk s) ∧
           ∃ h, hdl_heap s1 = <[a := h]> (hdl_heap s) ∧
                h_device h = Ptr dev ∧ h_bus h = Ptr b ∧
                h_config h = -1 ∧ h_interface h = -1 ∧
                h_altsetting h = -1 ∧
                ∀ pkt, reply = Some pkt →
                  it_type (iter_next (pkt_begin pkt)).1 = IntegerType →
                  h_fd h = as_int (it_val (iter_next (pkt_begin pkt)).1)
       end) ∧
  (∀ a h,
     hdl_heap s !! a = Some h →
     ∃ s1,
       usb_close env reply (Ptr a) s = Ret (result_of UsbClose reply) s1 ∧
       hdl_heap s1 = delete a (hdl_heap s) ∧ hdl_heap s1 !! a = None).
Proof.
  intros Hi. destruct (init_hostfd_frame _ _ _ _ Hi) as (_ & _ & Fb & Fd & Fh & Fk).
  split.
  - intros dev d b Hd Hb [bb Hbb].
    unfold usb_open. cbn [bind M_seq]. rewrite Hi. run.
    rewrite Fd, Hd. run. rewrite Hb, Fb, Hbb. run.
    rewrite <- open_result. unfold answer.
    destruct reply as [pkt|]; [|run].
    2: { eexists _, _. split; [reflexivity|]. split; [|reflexivity]. split; [done|lia]. }
    destruct (bool_decide (pkt_op pkt = Some UsbOpen)); run.
    2: { eexists _, _. split; [reflexivity|]. split; [|reflexivity]. split; [done|lia]. }
    unfold read_result, is_type.
    destruct (bool_decide (it_type (pkt_begin pkt) = IntegerType)) eqn:E1; run.
    2: { eexists _, _. split; [reflexivity|]. split; [|reflexivity]. split; [done|lia]. }
    destruct (0 <=? as_int (it_val (pkt_begin pkt))) eqn:E2; run.
    2: { eexists _, _. split; [reflexivity|]. split; [|reflexivity]. split; [done|lia]. }
    eexists _, _. split; [reflexivity|]. split; [split; [lia|done]|].
    cbn. rewrite Fk, Fh. repeat split; try done.
    eexists. split; [reflexivity|]. cbn. repeat split; try done.
    intros pkt' [= <-] Ht. by rewrite bool_decide_eq_true_2.
  - intros a h Hh. unfold usb_close. cbn [bind M_seq]. rewrite Hi. run.
    rewrite Fh, Hh. run. rewrite ?Fh, ?Hh. run.
    eexists. split; [reflexivity|]. cbn. rewrite ?Fh.
    split; [reflexivity|]. apply lookup_delete_eq.
Qed.

(** C8, amended: a returning call to [usb_set_configuration] (resp.
    [usb_set_altinterface]) always overwrites the cached configuration
    (resp. alternate setting) of the handle.  The value stored is the
    integer that follows the result in a reply that echoes the operation,
    whatever the sign of the result; when the reply is missing, is for
    another operation, or carries no such integer, the value stored is the
    caller's request value. *)
Theorem selector_overwritten_by_echo_or_request (env : ipc)
    (reply : option Packet) (a : nat) (h : usb_dev_handle) (v : Z)
    (s s0 : state) (fd : Z) :
  init_hostfd env s = Ret fd s0 →
  hdl_heap s !! a = Some h →
  (∃ s1 sel,
     usb_set_configuration env reply (Ptr a) v s
       = Ret (result_of UsbSetConfiguration reply) s1 ∧
     hdl_heap s1 = <[a := with_h_config sel h]> (hdl_heap s) ∧
     (answer UsbSetConfiguration reply = None → sel = v) ∧
     ∀ it, answer UsbSetConfiguration reply = Some it →
       (it_type (read_result it).2 = IntegerType →
        sel = as_int (it_val (read_result it).2)) ∧
       (it_type (read_result it).2 ≠ IntegerType → sel = v)) ∧
  (∃ s1 sel,
     usb_set_altinterface env reply (Ptr a) v s
       = Ret (result_of UsbSetAltInterface reply) s1 ∧
     hdl_heap s1 = <[a := with_h_altsetting sel h]> (hdl_heap s) ∧
     (answer UsbSetAltInterface reply = None → sel = v) ∧
     ∀ it, answer UsbSetAltInterface reply = Some it →
       (it_type (read_result it).2 = IntegerType →
        sel = as_int (it_val (read_result it).2)) ∧
       (it_type (read_result it).2 ≠ IntegerType → sel = v)).
Proof.
  intros Hi Hh.
  destruct (init_hostfd_frame _ _ _ _ Hi) as (_ & _ & _ & _ & Fh & _).
  split.
  all: unfold_calls; cbn [bind M_seq]; rewrite Hi; run.
  all: rewrite Fh, Hh; run; unfold result_of.
  all: match goal with |- context [answer ?o ?r] =>
         destruct (answer o r) as [it|] eqn:Ea end; run.
  all: try destruct (read_result it) as [res it'] eqn:Er; run.
  all: rewrite ?Fh, ?Hh; run.
  all: eexists _, _; split; [reflexivity|]; cbn; rewrite Fh.
  all: split; [reflexivity|]; split; [try done|].
  all: try (intros it0 [= <-]; rewrite Er; cbn; unfold is_type; split; intros Ht;
            [by rewrite bool_decide_eq_true_2 | by rewrite bool_decide_eq_false_2]).
  all: try done.
Qed.

(** [usb_bulk_read] never looks at the leading byte: two replies with the
    same fields get the same treatment. *)
Lemma bulk_read_ignores_opcode env pkt pkt' dev ep bytes size timeout s :
  pkt_begin pkt = pkt_begin pkt' →
  usb_bulk_read env (Some pkt) dev ep bytes size timeout s
  = usb_bulk_read env (Some pkt') dev ep bytes size timeout s.
Proof. intros E. unfold usb_bulk_read. by rewrite E. Qed.

(** *** Copies and absent fields in the synchroniser *)

(** The copy of the device descriptor takes the length from the wire: a
    field longer than the destination is a write past its end. *)
Lemma memcpy_past_destination (dst src : list byte) :
  (length dst < length src)%nat →
  memcpy dst src (Z.of_nat (length src)) = Err OutOfBounds.
Proof.
  intros Hlen. unfold memcpy.
  assert ((Z.of_nat (length dst) <? Z.of_nat (length src)) = true) as ->
    by lia.
  by rewrite orb_true_r.
Qed.

(** A field that is not raw leaves the configuration as it was and the
    cursor where it was. *)
Lemma read_config_absent dev it :
  is_type it RawType = false → read_config dev it = ret it.
Proof. intros E. unfold read_config. by rewrite E. Qed.

(** The interface loop dereferences [dev->config] whatever it is. *)
Lemma read_interfaces_null_config a d it s :
  dev_heap s !! a = Some d → config d = None →
  read_interfaces (Ptr a) it s = Fault NullDeref.
Proof.
  intros Hd Hc. unfold read_interfaces, load_dev. cbn [bind M_seq].
  by rewrite Hd, Hc.
Qed.

(** *** Frame rules: what the synchroniser does not touch *)

Lemma keeps_ret {A B} (f : state → B) (a : A) : keeps f (ret a).
Proof. intros s. reflexivity. Qed.

Lemma keeps_bind {A B C} (f : state → C) (m : M A) (k : A → M B) :
  keeps f m → (∀ a, keeps f (k a)) → keeps f (bind m k).
Proof.
  intros Hm Hk s. specialize (Hm s). cbn [bind M_seq].
  destruct (m s) as [a s1|c s1|e]; [|exact Hm|exact I].
  specialize (Hk a s1). destruct (k a s1); try rewrite Hk; done.
Qed.

Lemma keeps_returns {A B} (f : state → B) (m : M A) s a s' :
  keeps f m → m s = Ret a s' → f s' = f s.
Proof. intros Hk E. specialize (Hk s). by rewrite E in Hk. Qed.

Lemma keeps_modify {B} (f : state → B) (g : state → state) :
  (∀ s, f (g s) = f s) → keeps f (modify g).
Proof. intros Hf s. apply Hf. Qed.

Lemma keeps_pure {B} (f : state → B) :
  (∀ A (g : state → A), keeps f (get g)) ∧
  (∀ A (e : fault), keeps f (raise (A := A) e)) ∧
  (∀ A (r : res A), keeps f (lift r)).
Proof. repeat split; intros; intros s; try destruct r; done. Qed.

Lemma keeps_hdl_heap_init_hostfd env : keeps hdl_heap (init_hostfd env).
Proof.
  intros s.
  destruct (init_hostfd_cases env s)
    as [(fd & s1 & E & F & _)|(s1 & E & F & _ & Hk & _)]; rewrite E;
    [apply F|].
  pose proof (exit_outcome (A := Z) 1 s1 Hk) as Hx.
  destruct (exit 1 s1) as [|c s'|f]; [done| |done].
  destruct Hx as (_ & (_ & _ & Hh & _) & _).
  destruct F as (_ & _ & _ & _ & Fh & _). congruence.
Qed.

Lemma keeps_hdl_heap_ops :
  (∀ p, keeps hdl_heap (load_bus p)) ∧ (∀ p, keeps hdl_heap (load_dev p)) ∧
  (∀ b, keeps hdl_heap (malloc_bus b)) ∧
  (∀ d, keeps hdl_heap (malloc_dev d)) ∧
  (∀ p, keeps hdl_heap (free_dev p)).
Proof.
  repeat split; intros x s.
  all: unfold load_bus, load_dev, malloc_bus, malloc_dev, free_dev.
  all: repeat case_match; simplify_eq; done.
Qed.

Lemma keeps_bus_heap_ops :
  (∀ p, keeps bus_heap (load_dev p)) ∧ (∀ d, keeps bus_heap (malloc_dev d)) ∧
  (∀ p, keeps bus_heap (free_dev p)).
Proof.
  repeat split; intros x s.
  all: unfold load_dev, malloc_dev, free_dev.
  all: repeat case_match; simplify_eq; done.
Qed.

Ltac keeps_step :=
  first
    [ apply keeps_ret
    | apply keeps_hdl_heap_ops
    | apply keeps_bus_heap_ops
    | apply keeps_pure
    | apply keeps_hdl_heap_init_hostfd
    | apply keeps_bind; [|intros ?]
    | apply keeps_modify; intros ?; reflexivity
    | progress unfold skip, store_bus, store_dev, local_bus, local_dev,
        pop_bus, pop_dev
    | assumption
    | match goal with
      | |- keeps _ (match ?x with _ => _ end) => destruct x
      | |- keeps _ (let '(_, _) := ?x in _) => destruct x
      end ].

Ltac keeps := repeat keeps_step.

Lemma keeps_hdl_heap_read_device rbus vdev dev it :
  keeps hdl_heap (read_device rbus vdev dev it).
Proof.
  unfold read_device, next_device, fill_device, read_config, read_interfaces.
  keeps.
Qed.

Lemma keeps_hdl_heap_read_devices fuel rbus vdev :
  ∀ dev it, keeps hdl_heap (read_devices fuel rbus vdev dev it).
Proof.
  induction fuel as [|fuel IH]; intros dev it; cbn [read_devices].
  all: destruct (is_type it SequenceType); [|keeps].
  - keeps.
  - apply keeps_bind; [apply keeps_hdl_heap_read_device|].
    intros r. apply IH.
Qed.

Lemma keeps_hdl_heap_free_unused_devices fuel dev :
  keeps hdl_heap (free_unused_devices fuel dev).
Proof. induction fuel as [|fuel IH]; cbn [free_unused_devices]; keeps. Qed.

Lemma keeps_hdl_heap_read_bus rbus it : keeps hdl_heap (read_bus rbus it).
Proof.
  unfold read_bus, next_bus, fill_bus. keeps.
  - apply keeps_hdl_heap_read_devices.
  - apply keeps_hdl_heap_free_unused_devices.
Qed.

Lemma keeps_hdl_heap_read_busses fuel :
  ∀ rbus it, keeps hdl_heap (read_busses fuel rbus it).
Proof.
  induction fuel as [|fuel IH]; intros rbus it; cbn [read_busses].
  all: destruct (iter_next it) as [it' more]; destruct more; [|keeps].
  - keeps.
  - destruct (is_type it' StructureType); [|apply IH].
    apply keeps_bind; [apply keeps_hdl_heap_read_bus|].
    intros r. apply IH.
Qed.

Lemma keeps_hdl_heap_unlink_unused_busses fuel rbus :
  keeps hdl_heap (unlink_unused_busses fuel rbus).
Proof. induction fuel as [|fuel IH]; cbn [unlink_unused_busses]; keeps. Qed.

Lemma keeps_hdl_heap_usb_find_devices env reply :
  keeps hdl_heap (usb_find_devices env reply).
Proof.
  unfold usb_find_devices. keeps.
  - apply keeps_hdl_heap_read_busses.
  - apply keeps_hdl_heap_unlink_unused_busses.
Qed.

Lemma keeps_hdl_heap_usb_find_busses env reply :
  keeps hdl_heap (usb_find_busses env reply).
Proof. unfold usb_find_busses. keeps. Qed.

Lemma keeps_hdl_heap_usb_init env : keeps hdl_heap (usb_init env).
Proof. unfold usb_init. keeps. Qed.

(** The device trim never writes a bus node: the [devices] pointer of the
    bus it trims keeps the value it had, whatever gets freed. *)
Lemma free_unused_devices_keeps_busses fuel dev :
  keeps bus_heap (free_unused_devices fuel dev).
Proof. induction fuel as [|fuel IH]; cbn [free_unused_devices]; keeps. Qed.

(** *** Positional reuse *)

Lemma keeps_dom_dev_ops :
  (∀ p, keeps (λ s, dom (dev_heap s)) (load_dev p)) ∧
  (∀ p, keeps (λ s, dom (dev_heap s)) (load_bus p)) ∧
  (∀ p f, keeps (λ s, dom (dev_heap s)) (store_dev p f)) ∧
  (∀ p f, keeps (λ s, dom (dev_heap s)) (store_bus p f)).
Proof.
  repeat split; intros p; intros; intros s.
  all: unfold store_dev, store_bus, load_dev, load_bus, modify; cbn.
  all: destruct p as [|a]; [done|].
  all: match goal with
       | |- context [match ?m !! ?k with _ => _ end] =>
           destruct (m !! k) eqn:Hl
       end; cbn; try done.
  all: rewrite dom_insert_L.
  all: apply subseteq_union_1_L, singleton_subseteq_l.
  all: exact (elem_of_dom_2 _ _ _ Hl).
Qed.

Lemma keeps_dom_bus_ops :
  (∀ p, keeps (λ s, dom (bus_heap s)) (load_dev p)) ∧
  (∀ p, keeps (λ s, dom (bus_heap s)) (load_bus p)) ∧
  (∀ p f, keeps (λ s, dom (bus_heap s)) (store_dev p f)) ∧
  (∀ p f, keeps (λ s, dom (bus_heap s)) (store_bus p f)).
Proof.
  repeat split; intros p; intros; intros s.
  all: unfold store_dev, store_bus, load_dev, load_bus, modify; cbn.
  all: destruct p as [|a]; [done|].
  all: match goal with
       | |- context [match ?m !! ?k with _ => _ end] =>
           destruct (m !! k) eqn:Hl
       end; cbn; try done.
  all: rewrite dom_insert_L.
  all: apply subseteq_union_1_L, singleton_subseteq_l.
  all: exact (elem_of_dom_2 _ _ _ Hl).
Qed.

Ltac keeps_dom_step :=
  first
    [ apply keeps_ret
    | apply keeps_dom_dev_ops
    | apply keeps_dom_bus_ops
    | apply keeps_pure
    | apply keeps_bind; [|intros ?]
    | progress unfold skip
    | match goal with
      | |- keeps _ (match ?x with _ => _ end) => destruct x
      | |- keeps _ (let '(_, _) := ?x in _) => destruct x
      end ].

Ltac keeps_dom := repeat keeps_dom_step.

(** Lines 243-253: on a node that has a successor, the bus loop moves to
    the successor and changes nothing. *)
Lemma next_bus_reuses_node a b n s :
  bus_heap s !! a = Some b → bus_next b = Ptr n →
  next_bus (Ptr a) s = Ret (Ptr n) s.
Proof.
  intros Hb Hn. unfold next_bus, load_bus. cbn [bind M_seq].
  by rewrite Hb, Hn.
Qed.

(** Lines 275-285: on a node that has a successor, the device loop moves
    to the successor and changes nothing. *)
Lemma next_device_reuses_node rbus vdev a d n s :
  dev_heap s !! a = Some d → dev_next d = Ptr n →
  next_device rbus vdev (Ptr a) s = Ret (Ptr n) s.
Proof.
  intros Hd Hn. unfold next_device, load_dev. cbn [bind M_seq].
  rewrite Hd, Hn. cbn. by rewrite Hd, Hn.
Qed.

(** The field reads write into the node they are given: no bus or device
    node appears or disappears. *)
Lemma fill_bus_keeps_nodes rbus it :
  keeps (λ s, dom (bus_heap s)) (fill_bus rbus it) ∧
  keeps (λ s, dom (dev_heap s)) (fill_bus rbus it).
Proof. split; unfold fill_bus; keeps_dom. Qed.

Lemma fill_device_keeps_nodes dev it :
  keeps (λ s, dom (bus_heap s)) (fill_device dev it) ∧
  keeps (λ s, dom (dev_heap s)) (fill_device dev it).
Proof.
  split; unfold fill_device, read_config, read_interfaces; keeps_dom.
Qed.

(** One iteration of the device loop on a node with a successor: the
    record is decoded into the successor, and the bus and device nodes in
    memory are those there were. *)
Lemma read_device_reuses_node rbus vdev a d n it s r it' s' :
  dev_heap s !! a = Some d → dev_next d = Ptr n →
  read_device rbus vdev (Ptr a) it s = Ret (r, it') s' →
  r = Ptr n ∧ dom (dev_heap s') = dom (dev_heap s) ∧
  dom (bus_heap s') = dom (bus_heap s).
Proof.
  intros Hd Hn. unfold read_device. cbn [bind M_seq].
  rewrite (next_device_reuses_node _ _ _ _ _ _ Hd Hn).
  destruct (fill_device (Ptr n) (iter_enter it) s) as [it1 s1| |] eqn:E;
    try discriminate.
  intros [= <- <- <-]. split; [done|].
  destruct (fill_device_keeps_nodes (Ptr n) (iter_enter it)) as [Kb Kd].
  split; [exact (keeps_returns _ _ _ _ _ Kd E)
         |exact (keeps_returns _ _ _ _ _ Kb E)].
Qed.

(** *** The device trim *)

Lemma dev_chain_frame s s' l :
  ∀ p, (∀ x, x ∈ l → dev_heap s' !! x = dev_heap s !! x) →
       dev_chain s p l → dev_chain s' p l.
Proof.
  induction l as [|a l IH]; intros p Hsame; cbn; [done|].
  intros (-> & d & Hd & Hrest). split; [done|]. exists d. split.
  - rewrite Hsame; [done|]. apply list_elem_of_here.
  - apply IH; [|done]. intros x Hx. apply Hsame. by apply list_elem_of_further.
Qed.

Lemma lookup_foldr_delete {A} (m : gmap nat A) (l : list nat) (x : nat) :
  foldr delete m l !! x = if decide (x ∈ l) then None else m !! x.
Proof.
  induction l as [|c l IH]; cbn.
  - rewrite decide_False; [done|]. apply not_elem_of_nil.
  - destruct (decide (x = c)) as [->|Hxc].
    + rewrite lookup_delete_eq, decide_True; [done|]. apply list_elem_of_here.
    + rewrite lookup_delete_ne, IH by done.
      destruct (decide (x ∈ l)) as [Hl|Hl].
      * rewrite decide_True; [done|]. by apply list_elem_of_further.
      * rewrite decide_False; [done|]. rewrite not_elem_of_cons. done.
Qed.

(** The device trim on a well-formed tail: every node behind [dev] is
    freed, [dev] becomes the last node, nothing else changes. *)
Lemma free_unused_devices_frees_tail l :
  ∀ fuel a d s,
    dev_heap s !! a = Some d → dev_chain s (dev_next d) l →
    a ∉ l → NoDup l → (length l ≤ fuel)%nat →
    ∃ s', free_unused_devices fuel (Ptr a) s = Ret tt s' ∧
          dev_heap s' = <[a := with_dev_next NULL d]>
                          (foldr delete (dev_heap s) l) ∧
          bus_heap s' = bus_heap s.
Proof.
  induction l as [|b l IH]; intros fuel a d s Hd Hch Ha Hnd Hfuel.
  - cbn in Hch. destruct fuel; cbn [free_unused_devices bind M_seq].
    all: unfold load_dev; rewrite Hd, Hch; cbn.
    all: eexists; split; [reflexivity|]; split; [|reflexivity].
    all: symmetry; apply insert_id; rewrite Hd; f_equal.
    all: destruct d; cbn in *; by subst.
  - destruct Hch as (Hn & db & Hb & Hrest).
    destruct fuel as [|fuel]; [cbn in Hfuel; lia|].
    cbn [free_unused_devices bind M_seq].
    unfold load_dev at 1. rewrite Hd, Hn. cbn [ptr_is_null].
    unfold load_dev at 1. rewrite Hb.
    unfold store_dev, load_dev, modify. cbn [bind M_seq]. rewrite Hd. cbn.
    apply not_elem_of_cons in Ha as [Hab Hal].
    apply NoDup_cons in Hnd as [Hbl Hnd].
    rewrite lookup_insert_ne, Hb by done. cbn.
    match goal with |- context [free_unused_devices fuel _ ?s1] =>
      destruct (IH fuel a (with_dev_next (dev_next db) d) s1)
        as (s' & E & Hheap & Hbus)
    end.
    + cbn. rewrite lookup_delete_ne by done. apply lookup_insert_eq.
    + cbn. eapply dev_chain_frame; [|exact Hrest].
      intros x Hx. cbn.
      rewrite lookup_delete_ne by (intros ->; done).
      rewrite lookup_insert_ne by (intros ->; done). done.
    + done.
    + done.
    + cbn in Hfuel. lia.
    + exists s'. split; [exact E|]. split; [|exact Hbus].
      rewrite Hheap. cbn.
      apply map_eq. intros x.
      destruct (decide (x = a)) as [->|Hxa].
      { by rewrite !lookup_insert_eq. }
      rewrite !lookup_insert_ne by done.
      rewrite !lookup_foldr_delete. destruct (decide (x ∈ l)) as [Hxl|Hxl].
      * destruct (decide (x = b)) as [->|Hxb].
        { by rewrite lookup_delete_eq. }
        rewrite lookup_delete_ne by done.
        by rewrite lookup_foldr_delete, decide_True.
      * destruct (decide (x = b)) as [->|Hxb].
        { by rewrite !lookup_delete_eq. }
        rewrite !lookup_delete_ne by done.
        rewrite lookup_insert_ne by done.
        by rewrite lookup_foldr_delete, decide_False.
Qed.

(** The trim after a bus record without devices: the loop still stands on
    the local [vdev], whose successor is the head of the cached list.  All
    cached devices are freed, and the bus keeps its [devices] pointer: it
    now points at a freed node. *)
Lemma emptied_list_leaves_head_dangling fuel vdev dv ra b first l s :
  dev_heap s !! vdev = Some dv → bus_heap s !! ra = Some b →
  dev_next dv = devices b → dev_chain s (devices b) (first :: l) →
  vdev ∉ first :: l → NoDup (first :: l) → (length (first :: l) ≤ fuel)%nat →
  ∃ s', free_unused_devices fuel (Ptr vdev) s = Ret tt s' ∧
        bus_heap s' !! ra = Some b ∧ devices b = Ptr first ∧
        dev_heap s' !! first = None.
Proof.
  intros Hv Hb Hn Hch Hnin Hnd Hfuel. rewrite <- Hn in Hch.
  destruct (free_unused_devices_frees_tail _ fuel vdev dv s Hv Hch Hnin Hnd
              Hfuel) as (s' & E & Hheap & Hbus).
  exists s'. split; [exact E|]. rewrite Hbus, Hheap. split; [exact Hb|].
  rewrite Hn in Hch. destruct Hch as (Hfirst & _). split; [exact Hfirst|].
  apply not_elem_of_cons in Hnin as [Hne _].
  rewrite lookup_insert_ne by done.
  rewrite lookup_foldr_delete, decide_True; [done|]. apply list_elem_of_here.
Qed.

Lemma dev_chain_live s l :
  ∀ p, dev_chain s p l → ∀ x, x ∈ l → is_Some (dev_heap s !! x).
Proof.
  induction l as [|a l IH]; intros p Hch x Hx.
  - by apply not_elem_of_nil in Hx.
  - destruct Hch as (_ & d & Hd & Hrest).
    apply elem_of_cons in Hx as [->|Hx]; [by eexists|]. by eapply IH.
Qed.

Lemma NoDup_live_length {A} (m : gmap nat A) (l : list nat) :
  NoDup l → (∀ x, x ∈ l → is_Some (m !! x)) → (length l ≤ size m)%nat.
Proof.
  revert m. induction l as [|a l IH]; intros m Hnd Hlive; cbn; [lia|].
  apply NoDup_cons in Hnd as [Ha Hnd].
  destruct (Hlive a) as [v Hv]; [apply list_elem_of_here|].
  rewrite <- (insert_delete_id m a v Hv) at 1.
  rewrite map_size_insert_None by apply lookup_delete_eq.
  apply le_n_S, IH; [done|]. intros x Hx.
  rewrite lookup_delete_ne by (intros ->; done).
  apply Hlive. by apply list_elem_of_further.
Qed.

(** The defect behind C1 and C2, for every codec.  The bus loop stands on
    a node whose successor [n] is reused; the record for it has no device
    (after directory name and location the cursor is not on a sequence
    element) while the cached device list of [n] is [first :: l].  Then
    [read_bus] returns, every cached device of [n] has been freed, and
    [n]'s [devices] pointer is still [first]. *)
Lemma read_bus_without_devices_leaves_head_dangling
    a b n it it1 s s1 bn first l :
  bus_heap s !! a = Some b → bus_next b = Ptr n →
  fill_bus (Ptr n) (iter_enter it) s = Ret it1 s1 →
  is_type it1 SequenceType = false →
  bus_heap s1 !! n = Some bn →
  dev_chain s1 (devices bn) (first :: l) → NoDup (first :: l) →
  dev_heap s1 !! brk s1 = None →
  ∃ s', read_bus (Ptr a) it s = Ret (Ptr n, it1) s' ∧
        bus_heap s' !! n = Some bn ∧ devices bn = Ptr first ∧
        dev_heap s' !! first = None.
Proof.
  intros Hb Hn Hfill Hseq Hbn Hch Hnd Hfresh.
  unfold read_bus. cbn [bind M_seq].
  rewrite (next_bus_reuses_node _ _ _ _ Hb Hn), Hfill.
  unfold load_bus at 1. rewrite Hbn.
  unfold local_dev, malloc_dev.
  set (s2 := set_brk _ _).
  assert (read_devices BUFSIZE (Ptr n) (brk s1) (Ptr (brk s1)) it1 s2
          = Ret (Ptr (brk s1), it1) s2) as ->.
  { unfold BUFSIZE. cbn [read_devices]. by rewrite Hseq. }
  unfold get. cbn [fst snd].
  assert (brk s1 ∉ first :: l) as Hnin.
  { intros Hin. destruct (dev_chain_live _ _ _ Hch _ Hin) as [v Hv].
    by rewrite Hfresh in Hv. }
  assert (dev_chain s2 (devices bn) (first :: l)) as Hch2.
  { eapply dev_chain_frame; [|exact Hch]. intros x Hx. subst s2. cbn.
    rewrite lookup_insert_ne; [done|]. intros Heq. apply Hnin. by rewrite Heq. }
  destruct (emptied_list_leaves_head_dangling (size (dev_heap s2)) (brk s1)
              (with_dev_next (devices bn) zero_device) n bn first l s2)
    as (s3 & E & Hb3 & Hfirst & Hgone); try done.
  - subst s2. cbn. apply lookup_insert_eq.
  - apply NoDup_live_length; [done|]. by eapply dev_chain_live.
  - rewrite E. unfold pop_dev, modify. cbn.
    eexists. split; [reflexivity|]. cbn. split; [done|]. split; [done|].
    rewrite lookup_delete_ne; [done|].
    intros Heq. apply Hnin. rewrite Heq. apply list_elem_of_here.
Qed.

(** ... and the next synchronisation of the same record follows that
    pointer: the trim reads the freed node. *)
Lemma read_bus_follows_dangling_head a b n it it1 s s1 bn first :
  bus_heap s !! a = Some b → bus_next b = Ptr n →
  fill_bus (Ptr n) (iter_enter it) s = Ret it1 s1 →
  is_type it1 SequenceType = false →
  bus_heap s1 !! n = Some bn → devices bn = Ptr first →
  dev_heap s1 !! first = None → dev_heap s1 !! brk s1 = None →
  first ≠ brk s1 →
  read_bus (Ptr a) it s = Fault UseAfterFree.
Proof.
  intros Hb Hn Hfill Hseq Hbn Hfirst Hgone Hfresh Hne.
  unfold read_bus. cbn [bind M_seq].
  rewrite (next_bus_reuses_node _ _ _ _ Hb Hn), Hfill.
  unfold load_bus at 1. rewrite Hbn.
  unfold local_dev, malloc_dev.
  set (s2 := set_brk _ _).
  assert (read_devices BUFSIZE (Ptr n) (brk s1) (Ptr (brk s1)) it1 s2
          = Ret (Ptr (brk s1), it1) s2) as ->.
  { unfold BUFSIZE. cbn [read_devices]. by rewrite Hseq. }
  unfold get. cbn [fst snd].
  assert (size (dev_heap s2) = S (size (dev_heap s1))) as ->.
  { subst s2. cbn. by apply map_size_insert_None. }
  cbn [free_unused_devices bind M_seq].
  unfold load_dev at 1. subst s2. cbn. rewrite lookup_insert_eq. cbn.
  rewrite Hfirst. cbn. by rewrite lookup_insert_ne, Hgone.
Qed.

Ltac heap_inv Inv :=
  first
    [ apply Inv
    | match goal with
      | |- context [delete ?p _ !! ?a] =>
          destruct (decide (p = a)) as [->|];
          [ rewrite lookup_delete_eq; discriminate
          | rewrite lookup_delete_ne by done; apply Inv ]
      end
    | match goal with
      | |- context [<[?p := _]> _ !! ?a] =>
          destruct (decide (p = a)) as [->|];
          [ rewrite lookup_insert_eq; intros [= <-]; cbn;
            first [ reflexivity | by apply Inv ]
          | rewrite lookup_insert_ne by done; apply Inv ]
      end ].

(** Calls on handles and [usb_open] never write the interface selector:
    whatever object lives at an address has it unset after a step if it
    had before. *)
Lemma run_step_interface (a : nat) (st : step) (s s' : state) :
  (∀ h, hdl_heap s !! a = Some h → h_interface h = -1) →
  run_step st s = Ret tt s' →
  ∀ h, hdl_heap s' !! a = Some h → h_interface h = -1.
Proof.
  intros Inv.
  destruct st as [dev c env reply|d env reply|env|env reply|env reply];
    cbn [run_step].
  3-5: intros E h.
  3: rewrite (keeps_returns hdl_heap _ _ _ _ (keeps_hdl_heap_usb_init env) E).
  4: rewrite (keeps_returns hdl_heap _ _ _ _
                (keeps_bind _ _ _ (keeps_hdl_heap_usb_find_busses env reply)
                   (λ _, keeps_ret _ tt)) E).
  5: rewrite (keeps_returns hdl_heap _ _ _ _
                (keeps_bind _ _ _ (keeps_hdl_heap_usb_find_devices env reply)
                   (λ _, keeps_ret _ tt)) E).
  3-5: apply Inv.
  - destruct c; cbn [perform]; unfold_calls; unfold keep.
    all: enter_call Hi.
    all: destruct (init_hostfd_frame _ _ _ _ Hi) as (_ & _ & _ & _ & Fh & _).
    all: destruct dev as [|p]; run; try discriminate.
    all: destruct (hdl_heap s0 !! p) as [hp|] eqn:Hp; run; try discriminate.
    all: rewrite ?Hp; run.
    all: repeat (case_match; run; try discriminate).
    all: rewrite ?Hp; run.
    all: repeat (case_match; run; try discriminate).
    all: intros ? h; simplify_eq; cbn; rewrite ?Fh in *.
    all: heap_inv Inv.
  - unfold usb_open. enter_call Hi.
    destruct (init_hostfd_frame _ _ _ _ Hi) as (_ & _ & _ & _ & Fh & Fk).
    destruct d as [|p]; run; try discriminate.
    destruct (dev_heap s0 !! p) as [dp|]; run; try discriminate.
    destruct (dev_bus dp) as [|b]; run; try discriminate.
    destruct (bus_heap s0 !! b); run; try discriminate.
    repeat (case_match; run; try discriminate).
    all: intros ? h; simplify_eq; cbn; rewrite ?Fh in *.
    all: heap_inv Inv.
Qed.

(** The handle [usb_open] returns has its interface selector unset. *)
Lemma usb_open_interface_unset env reply d s a s1 :
  usb_open env reply d s = Ret (Ptr a) s1 →
  ∀ h, hdl_heap s1 !! a = Some h → h_interface h = -1.
Proof.
  unfold usb_open. enter_call Hi.
  destruct d as [|p]; run; try discriminate.
  destruct (dev_heap s0 !! p) as [dp|]; run; try discriminate.
  destruct (dev_bus dp) as [|b]; run; try discriminate.
  destruct (bus_heap s0 !! b); run; try discriminate.
  repeat (case_match; run; try discriminate).
  all: intros ? h; simplify_eq; cbn.
  all: rewrite lookup_insert_eq; by intros [= <-].
Qed.

Lemma run_steps_interface (a : nat) (sts : list step) :
  ∀ s s',
    (∀ h, hdl_heap s !! a = Some h → h_interface h = -1) →
    run_steps sts s = Ret tt s' →
    ∀ h, hdl_heap s' !! a = Some h → h_interface h = -1.
Proof.
  induction sts as [|st rest IH]; intros s s' Inv.
  - cbn. intros [= <-]. exact Inv.
  - cbn [run_steps bind M_seq].
    destruct (run_step st s) as [[] s1| |] eqn:Hst; try discriminate.
    intros Hrest. eapply IH; [|exact Hrest].
    eapply run_step_interface; eauto.
Qed.

(** C10: after a successful [usb_open], whatever calls follow (on this
    handle or on others, further opens and enumerations included), the
    handle's interface selector stays at [-1] for as long as the handle
    lives. *)
Theorem interface_selector_never_assigned (env : ipc)
    (reply : option Packet) (d : ptr) (s s1 s2 : state) (a : nat)
    (sts : list step) (h : usb_dev_handle) :
  usb_open env reply d s = Ret (Ptr a) s1 →
  run_steps sts s1 = Ret tt s2 →
  hdl_heap s2 !! a = Some h →
  h_interface h = -1.
Proof.
  intros Ho Hr. eapply run_steps_interface; [|exact Hr].
  eapply usb_open_interface_unset; exact Ho.
Qed.


(** ** Further properties of the transport *)

(** X1: [init_hostfd] ends in one of three ways.  It returns a descriptor
    other than -1 that passes the peer check and is the cached one from
    then on, with the exit hook registered and the bus cache, the heaps and
    the allocator as they were.  Or it resets the cached descriptor to -1,
    prints "unable to access remote fd" as its last line and calls
    [exit(1)], which runs the hook the function has registered: when the
    hook returns, the process ends with status 1, the list head and the
    public variable are null, and the handles and the allocator are as
    they were.  Or that hook faults, on the cache as it was on entry. *)
Theorem init_hostfd_outcome (env : ipc) (s : state) :
  match init_hostfd env s with
  | Ret fd s' =>
      fd ≠ -1 ∧ getpeername_ok env fd = true ∧ remote_fd s' = fd ∧
      exitf_hooked s' = true ∧ frame s s'
  | Exit code s' =>
      code = 1 ∧ remote_fd s' = -1 ∧ exitf_hooked s' = true ∧
      last (console s') = Some IpcUnable ∧
      remote_bus s' = NULL ∧ usb_busses s' = NULL ∧
      hdl_heap s' = hdl_heap s ∧ brk s' = brk s
  | Fault f =>
      ∃ s0, frame s s0 ∧ remote_fd s0 = -1 ∧ deinit_hostfd s0 = Fault f
  end.
Proof.
  destruct (init_hostfd_cases env s)
    as [(fd & s' & E & F & Hfd & Hne & Hp & Hk)
       |(s0 & E & F & Hfd & Hk & Hl)]; rewrite E; [done|].
  pose proof (exit_outcome (A := Z) 1 s0 Hk) as Hx.
  destruct (exit 1 s0) as [|c s'|f]; [done| |by eauto].
  destruct Hx as (-> & (Hr & Hh & Hhd & Hb & Hc) & Hrb & Hub).
  destruct F as (_ & _ & _ & _ & Fh & Fk).
  split_and!; congruence.
Qed.

Lemma init_hostfd_returns env s fd s' :
  init_hostfd env s = Ret fd s' →
  fd ≠ -1 ∧ remote_fd s' = fd ∧ exitf_hooked s' = true.
Proof.
  destruct (init_hostfd_cases env s)
    as [(fd' & s1 & E & F & Hfd & Hne & Hp & Hk)
       |(s0 & E & _ & _ & Hk & _)]; rewrite E.
  - by intros [= <- <-].
  - pose proof (exit_outcome (A := Z) 1 s0 Hk) as Hx. intros Hr.
    by rewrite Hr in Hx.
Qed.

(** X2: once [init_hostfd] has returned a descriptor, a further call
    returns the same descriptor and changes nothing, console included,
    for as long as the descriptor passes the peer check; what the shared
    memory segment holds by then plays no part. *)
Theorem init_hostfd_reuses_descriptor (env env' : ipc) (s s' : state)
    (fd : Z) :
  init_hostfd env s = Ret fd s' →
  getpeername_ok env' fd = true →
  init_hostfd env' s' = Ret fd s'.
Proof.
  intros Hi Hp.
  destruct (init_hostfd_returns _ _ _ _ Hi) as (Hne & Hfd & Hk).
  unfold init_hostfd. run. rewrite Hk. run.
  assert ((remote_fd s' =? -1) = false) as E by lia.
  rewrite E. run. rewrite Hfd, Hp. run.
  rewrite Hfd. by destruct (fd =? -1) eqn:E2; [lia|].
Qed.

(** ** Further properties of the calls on handles *)

(** X3: a call on a live handle whose reply is missing or names another
    operation returns [-1] and hands the caller's buffer back as it was.
    This holds for every call that takes a handle except the bulk read,
    provided the calls that send a buffer are given a [size] within it. *)
Theorem foreign_reply_yields_minus_one (env : ipc) (reply : option Packet)
    (a : nat) (h : usb_dev_handle) (c : call) (s s0 : state) (fd : Z) :
  init_hostfd env s = Ret fd s0 →
  hdl_heap s !! a = Some h →
  (∀ ep b sz t, c ≠ BulkRead ep b sz t) →
  match reply with
  | Some pkt => pkt_op pkt ≠ Some (request_op c)
  | None => True
  end →
  sends_within_buffer c →
  ∃ s1, perform env reply (Ptr a) c s = Ret (-1, caller_buffer c) s1.
Proof.
  intros Hi Hh Hc Hm Hsz.
  destruct (init_hostfd_frame _ _ _ _ Hi) as (_ & _ & _ & _ & Fh & _).
  pose proof (mismatch_result _ _ Hm) as Hr.
  pose proof (mismatch_answer _ _ Hm) as Ha.
  destruct c; cbn in Hr, Ha, Hsz; cbn [perform caller_buffer].
  10: { exfalso. by eapply Hc. }
  all: unfold_calls; rewrite ?Hr, ?Ha.
  all: unfold keep; cbn [bind M_seq]; rewrite Hi; run.
  all: rewrite Fh, Hh; run; rewrite ?Fh, ?Hh; run.
  all: try (assert ((size <? 0) || (Z.of_nat (length bytes) <? size) = false)
              as -> by lia; run).
  all: eauto.
Qed.

Lemma memcpy_spec (dst src : list byte) (n : Z) (out : list byte) :
  memcpy dst src n = Ok out →
  0 ≤ n ≤ Z.of_nat (length dst) ∧ n ≤ Z.of_nat (length src) ∧
  out = take (Z.to_nat n) src ++ drop (Z.to_nat n) dst.
Proof.
  unfold memcpy. case_match; [done|]. intros [= <-]. split_and!; [lia..|done].
Qed.

Lemma memcpy_within (dst src : list byte) (n : Z) :
  0 ≤ n ≤ Z.of_nat (length dst) → n ≤ Z.of_nat (length src) →
  memcpy dst src n = Ok (take (Z.to_nat n) src ++ drop (Z.to_nat n) dst).
Proof.
  intros Hd Hs. unfold memcpy.
  by assert ((n <? 0) || (Z.of_nat (length dst) <? n)
             || (Z.of_nat (length src) <? n) = false) as -> by lia.
Qed.

Lemma memcpy_tail (dst src : list byte) (n : Z) (out : list byte) :
  memcpy dst src n = Ok out →
  length out = length dst ∧
  ∀ i, (Z.to_nat n ≤ i)%nat → out !! i = dst !! i.
Proof.
  intros (Hd & Hs & ->)%memcpy_spec. split.
  - rewrite length_app, length_take, length_drop. lia.
  - intros i Hi. rewrite lookup_app_r; rewrite length_take; [|lia].
    rewrite lookup_drop. f_equal. lia.
Qed.

(** X4: the three read transfers on a live handle, given a reply that
    carries a result [r > 0] followed by an octet field of at least
    [min r size] bytes.  The call returns [r] itself, also when [r]
    exceeds [size], and the caller's buffer then holds the first
    [min r size] bytes of the field followed by its own bytes from there
    on.  The bulk read does so whatever operation the reply names, the
    other two when the reply names theirs. *)
Theorem read_transfer_delivers_payload (env : ipc) (pkt : Packet) (a : nat)
    (h : usb_dev_handle) (bytes : list byte) (size timeout : Z)
    (s s0 : state) (fd : Z) :
  let r := as_int (it_val (pkt_begin pkt)) in
  let data := it_val (iter_next (pkt_begin pkt)).1 in
  let n := Z.to_nat (Z.min r size) in
  let out := Ret (r, take n data ++ drop n bytes) s0 in
  init_hostfd env s = Ret fd s0 →
  hdl_heap s !! a = Some h →
  it_type (pkt_begin pkt) = IntegerType →
  it_type (iter_next (pkt_begin pkt)).1 = OctetType →
  0 < r → 0 ≤ size ≤ Z.of_nat (length bytes) → (n ≤ length data)%nat →
  (∀ ep, usb_bulk_read env (Some pkt) (Ptr a) ep bytes size timeout s = out) ∧
  (pkt_op pkt = Some UsbInterruptRead →
   ∀ ep, usb_interrupt_read env (Some pkt) (Ptr a) ep bytes size timeout s
         = out) ∧
  (pkt_op pkt = Some UsbControlMsg →
   ∀ rt rq v i, usb_control_msg env (Some pkt) (Ptr a) rt rq v i bytes size
                  timeout s = out).
Proof.
  intros r data n out Hi Hh Ht1 Ht2 Hr Hsz Hn.
  destruct (init_hostfd_frame _ _ _ _ Hi) as (_ & _ & _ & _ & Fh & _).
  assert (read_result (pkt_begin pkt) = (r, (iter_next (pkt_begin pkt)).1))
    as Hrr.
  { unfold read_result, is_type. by rewrite bool_decide_eq_true_2. }
  assert (copy_payload (iter_next (pkt_begin pkt)).1 r bytes size s0
          = Ret (take n data ++ drop n bytes) s0) as Hcp.
  { unfold copy_payload, is_type. rewrite bool_decide_eq_true_2 by done.
    assert ((0 <? r) = true) as -> by lia.
    assert ((if r >? size then size else r) = Z.min r size) as ->
      by (destruct (r >? size) eqn:E; lia).
    rewrite memcpy_within; [|lia|rewrite length_app; fold data; lia].
    fold data. by rewrite take_app_le by lia. }
  split; [|split].
  - intros ep. unfold usb_bulk_read. cbn [bind M_seq]. rewrite Hi.
    unfold load_hdl. rewrite Fh, Hh, Hrr. cbn [bind M_seq].
    by rewrite Hcp.
  - intros Hop ep. unfold usb_interrupt_read, answer. cbn [bind M_seq].
    rewrite Hi. unfold load_hdl. rewrite Fh, Hh.
    rewrite bool_decide_eq_true_2 by done. rewrite Hrr. cbn [bind M_seq].
    by rewrite Hcp.
  - intros Hop rt rq v i. unfold usb_control_msg, answer. cbn [bind M_seq].
    rewrite Hi. unfold load_hdl. rewrite Fh, Hh. unfold append_octets.
    assert ((size <? 0) || (Z.of_nat (length bytes) <? size) = false) as ->
      by lia.
    unfold skip. cbn [ret M_seq].
    rewrite bool_decide_eq_true_2 by done. rewrite Hrr. cbn [bind M_seq].
    by rewrite Hcp.
Qed.

(** X5: a transfer never writes behind what it reports as transferred.
    On a live handle, with a buffer of [size] bytes and a packet buffer
    that has [size] bytes from the payload field on, every call returns,
    whatever the reply and however many bytes its payload field holds;
    the caller's buffer keeps its length, and every byte at an index from
    the returned count on is the byte that was there (all of them when
    the result is not positive). *)
Theorem transfer_keeps_buffer_tail (env : ipc) (reply : option Packet)
    (a : nat) (h : usb_dev_handle) (c : call) (s s0 : state) (fd : Z) :
  init_hostfd env s = Ret fd s0 →
  hdl_heap s !! a = Some h →
  buffer_holds_size c →
  buffer_covers reply (transfer_size c) →
  ∃ r out s',
    perform env reply (Ptr a) c s = Ret (r, out) s' ∧
    length out = length (caller_buffer c) ∧
    ∀ i, (Z.to_nat r ≤ i)%nat → out !! i = caller_buffer c !! i.
Proof.
  intros Hi Hh Hsz Hcov.
  destruct (init_hostfd_frame _ _ _ _ Hi) as (_ & _ & _ & _ & Fh & _).
  assert (∀ it res bytes size,
            0 ≤ size ≤ Z.of_nat (length bytes) →
            size ≤ Z.of_nat (length (it_val it ++ it_behind it)) →
            ∀ s1, ∃ out,
              copy_payload it res bytes size s1 = Ret out s1 ∧
              length out = length bytes ∧
              ∀ i, (Z.to_nat res ≤ i)%nat → out !! i = bytes !! i) as Hcp.
  { intros it res bytes size Hb Hc s1. unfold copy_payload.
    destruct (is_type it OctetType); [|by exists bytes].
    destruct (0 <? res) eqn:Hres; [|by exists bytes].
    set (n := if res >? size then size else res).
    assert (0 ≤ n ≤ size ∧ n ≤ res) as Hn
      by (unfold n; destruct (res >? size) eqn:E; lia).
    rewrite memcpy_within by lia. eexists. split; [reflexivity|].
    split.
    - rewrite length_app, length_take, length_drop. lia.
    - intros i Hle. rewrite lookup_app_r; rewrite length_take; [|lia].
      rewrite lookup_drop. f_equal. lia. }
  destruct c; cbn in Hsz, Hcov; cbn [perform caller_buffer].
  all: unfold_calls; unfold keep, result_of; cbn [bind M_seq]; rewrite Hi.
  all: unfold load_hdl; rewrite Fh, Hh; cbn [bind M_seq].
  all: unfold free_hdl, store_hdl, load_hdl, append_octets, skip, modify.
  all: cbn [bind M_seq ret hdl_heap set_hdl_heap].
  all: rewrite ?Fh, ?Hh.
  all: try (assert ((size <? 0) || (Z.of_nat (length bytes) <? size) = false)
              as -> by lia).
  all: cbn [bind M_seq ret].
  all: try match goal with
           | |- context [answer ?o ?rp] =>
               unfold answer; destruct rp as [pkt|];
               [destruct (bool_decide (pkt_op pkt = Some o))|]
           end.
  all: try match goal with
           | |- context [match ?rp with Some _ => _ | None => _ end] =>
               is_var rp; destruct rp as [pkt|]
           end.
  all: cbn in Hcov.
  all: try match goal with
           | |- context [read_result ?i] =>
               destruct (read_result i) as [res it'] eqn:Er
           end.
  all: cbn [fst snd] in *.
  all: repeat match goal with
              | |- context [let '(_, _) := ?p in _] => destruct p
              end.
  all: cbn [bind M_seq ret].
  all: try match goal with
           | |- context [copy_payload ?i ?r ?b ?z ?s1] =>
               destruct (Hcp i r b z Hsz Hcov s1) as (out & -> & Hl & Ht)
           end.
  all: run; rewrite ?Fh, ?Hh; run.
  all: eexists _, _, _; split; [reflexivity|]; split; try done.
Qed.

(** The read transfers copy [min r size] bytes of the packet buffer from
    the start of the payload field on. *)
Lemma read_transfers_copy_from_buffer env pkt a h bytes size timeout s s0 fd :
  let r := as_int (it_val (pkt_begin pkt)) in
  let it := (iter_next (pkt_begin pkt)).1 in
  let n := Z.to_nat (Z.min r size) in
  let out := Ret (r, take n (it_val it ++ it_behind it) ++ drop n bytes) s0 in
  init_hostfd env s = Ret fd s0 →
  hdl_heap s !! a = Some h →
  it_type (pkt_begin pkt) = IntegerType →
  it_type it = OctetType →
  0 < r → 0 ≤ size ≤ Z.of_nat (length bytes) →
  (n ≤ length (it_val it ++ it_behind it))%nat →
  (∀ ep, usb_bulk_read env (Some pkt) (Ptr a) ep bytes size timeout s = out) ∧
  (pkt_op pkt = Some UsbInterruptRead →
   ∀ ep, usb_interrupt_read env (Some pkt) (Ptr a) ep bytes size timeout s
         = out) ∧
  (pkt_op pkt = Some UsbControlMsg →
   ∀ rt rq v i, usb_control_msg env (Some pkt) (Ptr a) rt rq v i bytes size
                  timeout s = out).
Proof.
  intros r it n out Hi Hh Ht1 Ht2 Hr Hsz Hn.
  destruct (init_hostfd_frame _ _ _ _ Hi) as (_ & _ & _ & _ & Fh & _).
  assert (read_result (pkt_begin pkt) = (r, it)) as Hrr.
  { unfold read_result, is_type. by rewrite bool_decide_eq_true_2. }
  assert (copy_payload it r bytes size s0
          = Ret (take n (it_val it ++ it_behind it) ++ drop n bytes) s0)
    as Hcp.
  { unfold copy_payload, is_type. rewrite bool_decide_eq_true_2 by done.
    assert ((0 <? r) = true) as -> by lia.
    assert ((if r >? size then size else r) = Z.min r size) as ->
      by (destruct (r >? size) eqn:E; lia).
    rewrite memcpy_within; [done|lia|lia]. }
  split; [|split].
  - intros ep. unfold usb_bulk_read. cbn [bind M_seq]. rewrite Hi.
    unfold load_hdl. rewrite Fh, Hh, Hrr. cbn [bind M_seq].
    by rewrite Hcp.
  - intros Hop ep. unfold usb_interrupt_read, answer. cbn [bind M_seq].
    rewrite Hi. unfold load_hdl. rewrite Fh, Hh.
    rewrite bool_decide_eq_true_2 by done. rewrite Hrr. cbn [bind M_seq].
    by rewrite Hcp.
  - intros Hop rt rq v i. unfold usb_control_msg, answer. cbn [bind M_seq].
    rewrite Hi. unfold load_hdl. rewrite Fh, Hh. unfold append_octets.
    assert ((size <? 0) || (Z.of_nat (length bytes) <? size) = false) as ->
      by lia.
    unfold skip. cbn [ret M_seq].
    rewrite bool_decide_eq_true_2 by done. rewrite Hrr. cbn [bind M_seq].
    by rewrite Hcp.
Qed.

(** X22: the read transfers take the count of their copy from the result
    and from [size], never from the length of the payload field.  Given a
    reply whose result [r > 0] announces more bytes than the octet field
    behind it holds, the call still returns [r], and the caller's buffer
    then holds the bytes of the field, after them the bytes that lie
    behind the field in the packet buffer, [min r size] bytes in all, and
    its own bytes from there on. *)
Theorem short_payload_is_filled_from_the_buffer (env : ipc) (pkt : Packet)
    (a : nat) (h : usb_dev_handle) (bytes : list byte) (size timeout : Z)
    (s s0 : state) (fd : Z) :
  let r := as_int (it_val (pkt_begin pkt)) in
  let it := (iter_next (pkt_begin pkt)).1 in
  let n := Z.to_nat (Z.min r size) in
  let out :=
    Ret (r, it_val it ++ take (n - length (it_val it)) (it_behind it)
               ++ drop n bytes) s0 in
  init_hostfd env s = Ret fd s0 →
  hdl_heap s !! a = Some h →
  it_type (pkt_begin pkt) = IntegerType →
  it_type it = OctetType →
  0 < r → 0 ≤ size ≤ Z.of_nat (length bytes) →
  (length (it_val it) < n ≤ length (it_val it ++ it_behind it))%nat →
  (∀ ep, usb_bulk_read env (Some pkt) (Ptr a) ep bytes size timeout s = out) ∧
  (pkt_op pkt = Some UsbInterruptRead →
   ∀ ep, usb_interrupt_read env (Some pkt) (Ptr a) ep bytes size timeout s
         = out) ∧
  (pkt_op pkt = Some UsbControlMsg →
   ∀ rt rq v i, usb_control_msg env (Some pkt) (Ptr a) rt rq v i bytes size
                  timeout s = out).
Proof.
  intros r it n out Hi Hh Ht1 Ht2 Hr Hsz [Hshort Hn].
  pose proof (read_transfers_copy_from_buffer env pkt a h bytes size timeout
                s s0 fd Hi Hh Ht1 Ht2 Hr Hsz Hn) as Hc.
  cbn zeta in Hc. fold r it n in Hc.
  rewrite take_app_ge, <- app_assoc in Hc by lia.
  exact Hc.
Qed.

(** X7: a call on a handle works on that handle only.  When it returns,
    the bus cache, every bus and device node, the allocator and every
    other handle are as they were, and the handle itself, if it is still
    there, has the token, bus, device and interface selector it had. *)
Theorem handle_calls_touch_the_handle_only (env : ipc)
    (reply : option Packet) (dev : ptr) (c : call) (s s' : state)
    (r : Z * list byte) :
  perform env reply dev c s = Ret r s' →
  remote_bus s' = remote_bus s ∧ usb_busses s' = usb_busses s ∧
  bus_heap s' = bus_heap s ∧ dev_heap s' = dev_heap s ∧ brk s' = brk s ∧
  (∀ b, dev ≠ Ptr b → hdl_heap s' !! b = hdl_heap s !! b) ∧
  (∀ a h', dev = Ptr a → hdl_heap s' !! a = Some h' →
     ∃ h, hdl_heap s !! a = Some h ∧ h_fd h' = h_fd h ∧
          h_bus h' = h_bus h ∧ h_device h' = h_device h ∧
          h_interface h' = h_interface h).
Proof.
  destruct c; cbn [perform]; unfold_calls; unfold keep.
  all: enter_call Hi.
  all: destruct (init_hostfd_frame _ _ _ _ Hi) as (Fr & Fu & Fb & Fd & Fh & Fk).
  all: destruct dev as [|p]; run; try discriminate.
  all: destruct (hdl_heap s0 !! p) as [hp|] eqn:Hp; run; try discriminate.
  all: rewrite ?Hp; run.
  all: repeat (case_match; run; try discriminate).
  all: rewrite ?Hp; run.
  all: repeat (case_match; run; try discriminate).
  all: intros ?; simplify_eq; cbn.
  all: split_and!; try done.
  all: try (intros b Hne; rewrite <- Fh;
            first [ done
                  | rewrite lookup_delete_ne by congruence; done
                  | rewrite lookup_insert_ne by congruence; done ]).
  all: intros x h' [= <-]; rewrite <- Fh, ?lookup_delete_eq, ?lookup_insert_eq;
       try done.
  all: intros ?; simplify_eq; eauto 10.
Qed.

(** ** The public bus list *)

Lemma usb_find_devices_publishes_cache env reply s r s' :
  usb_busses s = remote_bus s →
  usb_find_devices env reply s = Ret r s' →
  usb_busses s' = remote_bus s'.
Proof.
  intros Inv. unfold usb_find_devices. enter_call Hi.
  destruct (init_hostfd_frame _ _ _ _ Hi) as (Fr & Fu & _).
  destruct reply as [pkt|].
  2: { intros [= <- <-]. congruence. }
  unfold get, local_bus, malloc_bus. cbn [bind M_seq].
  destruct (read_busses _ _ _ _) as [rbus s1| |]; try discriminate.
  destruct (unlink_unused_busses _ _ _) as [[] s2| |]; try discriminate.
  unfold load_bus. destruct (bus_heap s2 !! brk s0); try discriminate.
  intros [= <- <-]. reflexivity.
Qed.

Lemma run_step_publishes_cache (st : step) (s s' : state) :
  usb_busses s = remote_bus s →
  run_step st s = Ret tt s' →
  usb_busses s' = remote_bus s'.
Proof.
  intros Inv.
  destruct st as [dev c env reply|d env reply|env|env reply|env reply];
    cbn [run_step].
  - cbn [bind M_seq].
    destruct (perform env reply dev c s) as [r s1| |] eqn:E; try discriminate.
    intros [= <-]. revert E.
    destruct c; cbn [perform]; unfold_calls; unfold keep.
    all: enter_call Hi.
    all: destruct (init_hostfd_frame _ _ _ _ Hi) as (Fr & Fu & _).
    all: destruct dev as [|p]; run; try discriminate.
    all: destruct (hdl_heap s0 !! p) as [hp|] eqn:Hp; run; try discriminate.
    all: rewrite ?Hp; run.
    all: repeat (case_match; run; try discriminate).
    all: rewrite ?Hp; run.
    all: repeat (case_match; run; try discriminate).
    all: intros ?; simplify_eq; cbn; congruence.
  - unfold usb_open. enter_call Hi.
    destruct (init_hostfd_frame _ _ _ _ Hi) as (Fr & Fu & _).
    destruct d as [|p]; run; try discriminate.
    destruct (dev_heap s0 !! p) as [dp|]; run; try discriminate.
    destruct (dev_bus dp) as [|b]; run; try discriminate.
    destruct (bus_heap s0 !! b); run; try discriminate.
    repeat (case_match; run; try discriminate).
    all: intros ?; simplify_eq; cbn; congruence.
  - unfold usb_init. enter_call Hi.
    destruct (init_hostfd_frame _ _ _ _ Hi) as (Fr & Fu & _).
    intros [= <-]. congruence.
  - unfold usb_find_busses. enter_call Hi.
    destruct (init_hostfd_frame _ _ _ _ Hi) as (Fr & Fu & _).
    destruct reply as [pkt|]; [destruct (pkt_begin_ok pkt)|];
      intros [= <-]; congruence.
  - cbn [bind M_seq].
    destruct (usb_find_devices env reply s) as [r s1| |] eqn:E;
      try discriminate.
    intros [= <-]. by eapply usb_find_devices_publishes_cache.
Qed.

(** X9: the public variable [usb_busses] and the library's own list head
    are the same pointer after any sequence of calls that starts where
    they are the same (as they are initially, both null): what
    [usb_get_busses] returns is what a client reads in [usb_busses]. *)
Theorem public_list_is_the_cache (sts : list step) (s s' : state) :
  usb_busses s = remote_bus s →
  run_steps sts s = Ret tt s' →
  usb_busses s' = remote_bus s' ∧
  usb_get_busses s' = Ret (usb_busses s') s'.
Proof.
  intros Inv Hr.
  assert (usb_busses s' = remote_bus s') as E.
  { revert s Inv Hr. induction sts as [|st rest IH]; intros s Inv.
    - cbn. by intros [= <-].
    - cbn [run_steps bind M_seq].
      destruct (run_step st s) as [[] s1| |] eqn:Hst; try discriminate.
      intros Hrest. eapply IH; [|exact Hrest].
      eapply run_step_publishes_cache; eauto. }
  split; [exact E|]. unfold usb_get_busses, get. by rewrite E.
Qed.

(** ** The device list of a bus that keeps a device *)

Lemma keeps_loads {B} (f : state → B) :
  (∀ p, keeps f (load_dev p)) ∧ (∀ p, keeps f (load_bus p)) ∧
  (∀ p, keeps f (load_hdl p)).
Proof.
  repeat split; intros p s; unfold load_dev, load_bus, load_hdl.
  all: repeat case_match; simplify_eq; done.
Qed.

Lemma keeps_links_store_dev p g :
  (∀ d, dev_next (g d) = dev_next d) → keeps links (store_dev p g).
Proof.
  intros Hg s. unfold store_dev, load_dev, modify. cbn.
  destruct p as [|a]; [done|].
  destruct (dev_heap s !! a) as [d|] eqn:Hd; cbn; [|done].
  unfold links. cbn. rewrite fmap_insert, Hg.
  apply insert_id. by rewrite lookup_fmap, Hd.
Qed.

Ltac keeps_links :=
  repeat first
    [ apply keeps_ret
    | apply keeps_loads
    | apply keeps_pure
    | apply keeps_links_store_dev; intros []; reflexivity
    | apply keeps_bind; [|intros ?]
    | apply keeps_modify; intros ?; reflexivity
    | progress unfold skip, store_dev
    | match goal with
      | |- keeps _ (match ?x with _ => _ end) => destruct x
      | |- keeps _ (let '(_, _) := ?x in _) => destruct x
      end ].

(** The field reads leave every [next] pointer, every bus node and the
    allocator alone. *)
Lemma fill_device_keeps_links dev it :
  keeps links (fill_device dev it) ∧ keeps bus_heap (fill_device dev it) ∧
  keeps brk (fill_device dev it).
Proof.
  unfold fill_device, read_config, read_interfaces.
  split_and!; keeps_links.
Qed.

Lemma dev_chain_links s s' l :
  ∀ p, (∀ x, x ∈ l → links s' !! x = links s !! x) →
       dev_chain s p l → dev_chain s' p l.
Proof.
  induction l as [|a l IH]; intros p Hsame; cbn; [done|].
  intros (-> & d & Hd & Hrest). split; [done|].
  pose proof (Hsame a (list_elem_of_here _ _)) as Ha.
  unfold links in Ha. rewrite !lookup_fmap, Hd in Ha. cbn in Ha.
  destruct (dev_heap s' !! a) as [d'|]; [|done]. injection Ha as Ha.
  exists d'. split; [done|]. rewrite Ha. apply IH; [|done].
  intros x Hx. apply Hsame. by apply list_elem_of_further.
Qed.

Lemma dev_chain_split s l1 x l2 :
  ∀ p, dev_chain s p (l1 ++ x :: l2) →
       ∃ d, dev_heap s !! x = Some d ∧ dev_chain s (dev_next d) l2.
Proof.
  induction l1 as [|a l1 IH]; intros p; cbn.
  - intros (_ & d & Hd & Hrest). eauto.
  - intros (_ & d & Hd & Hrest). eauto.
Qed.

Lemma dev_chain_null s l : dev_chain s NULL l → l = [].
Proof. destruct l; [done|]. by intros [? _]. Qed.

Lemma dev_chain_successor s v l x d n :
  dev_chain s (Ptr v) (v :: l) → x ∈ v :: l →
  dev_heap s !! x = Some d → dev_next d = Ptr n → n ∈ l.
Proof.
  intros Hch Hx Hd Hn.
  apply list_elem_of_split in Hx as (l1 & l2 & Hl).
  rewrite Hl in Hch.
  destruct (dev_chain_split _ _ _ _ _ Hch) as (d' & Hd' & Hrest).
  rewrite Hd in Hd'. injection Hd' as <-. rewrite Hn in Hrest.
  destruct l2 as [|n' l2]; [done|]. destruct Hrest as ([= <-] & _).
  destruct l1 as [|a l1]; injection Hl as -> ->.
  - apply list_elem_of_here.
  - rewrite elem_of_app. right. apply list_elem_of_further, list_elem_of_here.
Qed.

Lemma dev_chain_last s v l x d :
  dev_chain s (Ptr v) (v :: l) → x ∈ v :: l →
  dev_heap s !! x = Some d → dev_next d = NULL →
  ∃ l1, v :: l = l1 ++ [x].
Proof.
  intros Hch Hx Hd Hn.
  apply list_elem_of_split in Hx as (l1 & l2 & Hl).
  rewrite Hl in Hch.
  destruct (dev_chain_split _ _ _ _ _ Hch) as (d' & Hd' & Hrest).
  rewrite Hd in Hd'. injection Hd' as <-. rewrite Hn in Hrest.
  apply dev_chain_null in Hrest as ->. eauto.
Qed.

(** A chain that ends in [x] grows by the node [n] when [x]'s [next]
    becomes [n] and [n]'s [next] is null. *)
Lemma dev_chain_snoc s s' l1 x n :
  ∀ p, dev_chain s p (l1 ++ [x]) → n ∉ l1 ++ [x] → x ∉ l1 →
       (∀ k, k ∈ l1 → links s' !! k = links s !! k) →
       links s' !! x = Some (Ptr n) → links s' !! n = Some NULL →
       dev_chain s' p (l1 ++ [x; n]).
Proof.
  induction l1 as [|a l1 IH]; intros p Hch Hn Hx Hsame Hlx Hln.
  - cbn in *. destruct Hch as (-> & _). split; [done|].
    unfold links in Hlx, Hln. rewrite lookup_fmap in Hlx, Hln.
    destruct (dev_heap s' !! x) as [dx|]; [|done].
    destruct (dev_heap s' !! n) as [dn|]; [|done].
    cbn in Hlx, Hln. injection Hlx as Hlx. injection Hln as Hln.
    exists dx. split; [done|]. rewrite Hlx. split; [done|].
    exists dn. split; [done|]. by rewrite Hln.
  - cbn in Hch |- *. destruct Hch as (-> & d & Hd & Hrest). split; [done|].
    pose proof (Hsame a (list_elem_of_here _ _)) as Ha.
    unfold links in Ha. rewrite !lookup_fmap, Hd in Ha. cbn in Ha.
    destruct (dev_heap s' !! a) as [d'|]; [|done]. injection Ha as Ha.
    exists d'. split; [done|]. rewrite Ha.
    apply not_elem_of_cons in Hx as [_ Hx].
    apply IH; try done.
    + intros Hin. apply Hn. cbn. by apply list_elem_of_further.
    + intros k Hk. apply Hsame. by apply list_elem_of_further.
Qed.

Lemma next_device_loop rb v l x s r s' :
  device_loop s rb v l → x ∈ v :: l →
  next_device (Ptr rb) v (Ptr x) s = Ret r s' →
  ∃ x' l', r = Ptr x' ∧ x' ∈ l' ∧ device_loop s' rb v l' ∧
           (l' = l ∨ l' = l ++ [x'] ∧ dev_heap s !! x' = None) ∧
           (∀ k, dev_heap s' !! k = None → dev_heap s !! k = None).
Proof.
  intros (Hch & Hnd & (b & dv & Hb & Hv & Hhead) & Hfresh) Hx.
  assert (is_Some (dev_heap s !! x)) as [d Hd]
    by (eapply dev_chain_live; eauto).
  destruct (dev_next d) as [|n] eqn:Hn.
  2: { rewrite (next_device_reuses_node _ _ _ _ _ _ Hd Hn).
       intros [= <- <-]. exists n, l. split; [done|].
       split; [by eapply dev_chain_successor|].
       split; [|by split; [left|]]. unfold device_loop. split_and!; eauto. }
  destruct (dev_chain_last _ _ _ _ _ Hch Hx Hd Hn) as (l1 & Hl).
  unfold next_device, load_dev, malloc_dev, store_dev, load_dev, load_bus,
    store_bus, load_bus, modify, skip.
  cbn [bind M_seq ret]. rewrite Hd, Hn. cbn [ptr_is_null].
  assert (x ≠ brk s) as Hxn.
  { intros ->. rewrite Hfresh in Hd; [done|lia]. }
  cbn. rewrite lookup_insert_ne by done. rewrite Hd. cbn.
  rewrite lookup_insert_ne by done. rewrite lookup_insert_eq. cbn.
  destruct (bool_decide (Ptr x = Ptr v)) eqn:Hxv; cbn.
  all: rewrite ?lookup_insert_eq; cbn; rewrite Hb; cbn.
  all: destruct (devices b) as [|first] eqn:Hdev; cbn; rewrite ?Hb; cbn.
  all: rewrite ?lookup_insert_eq, ?(lookup_insert_ne _ (brk s) x) by done.
  all: rewrite ?lookup_insert_eq; cbn.
  all: intros [= <- <-]; exists (brk s), (l ++ [brk s]).
  all: assert (dev_heap s !! brk s = None) as Hnone by (apply Hfresh; lia).
  all: assert (brk s ∉ v :: l) as Hnin
         by (intros Hin; destruct (dev_chain_live _ _ _ Hch _ Hin) as [? Hs];
             by rewrite Hnone in Hs).
  all: split; [done|]; split; [rewrite elem_of_app; right; apply list_elem_of_here|];
       split; [|split; [by right|];
                intros k; cbn; intros Hk;
                destruct (decide (k = brk s)) as [->|Hkn];
                [by rewrite ?lookup_insert_eq in Hk|];
                destruct (decide (k = x)) as [->|Hkx];
                [by rewrite ?(lookup_insert_ne _ (brk s) x),
                   ?lookup_insert_eq in Hk by done|];
                by rewrite !lookup_insert_ne in Hk by done].
  all: apply bool_decide_eq_true in Hxv || apply bool_decide_eq_false in Hxv.
  (* the bus list is the successor of the local head *)
  2: { injection Hxv as ->. rewrite Hv in Hd. injection Hd as <-. congruence. }
  2: { destruct l as [|y l].
       { apply list_elem_of_singleton in Hx. congruence. }
       destruct Hch as (_ & dv' & Hv' & Hy & _). rewrite Hv in Hv'.
       injection Hv' as <-. congruence. }
  all: unfold device_loop; split_and!.
  all: assert ((x ∉ l1) ∧ (brk s ∉ l1 ++ [x])) as [Hxl1 Hnl1]
         by (rewrite Hl in Hnd, Hnin; apply NoDup_app in Hnd as (_ & Hd1 & _);
             split; [|done]; intros Hin; apply (Hd1 _ Hin); apply list_elem_of_here).
  1,5: change (v :: l ++ [brk s]) with ((v :: l) ++ [brk s]);
       rewrite Hl, <- app_assoc; cbn [app];
       apply (dev_chain_snoc s); try done; [by rewrite <- Hl| |..].
  all: assert (v ≠ brk s) as Hvn
         by (intros ->; apply Hnin, list_elem_of_here).
  all: try lazymatch goal with
       | |- NoDup _ =>
           change (v :: l ++ [brk s]) with ((v :: l) ++ [brk s]);
           apply NoDup_app; split; [done|]; split; [|apply NoDup_singleton];
           intros y Hy Hin; apply list_elem_of_singleton in Hin; by subst
       | |- ∀ k, k ∈ _ → _ =>
           intros k Hk; unfold links; cbn; rewrite !lookup_fmap;
           rewrite !lookup_insert_ne; [done|..]; intros <-; try done;
           apply Hnl1; rewrite elem_of_app; by left
       | |- links _ !! _ = Some NULL =>
           unfold links; cbn; rewrite lookup_fmap; by rewrite lookup_insert_eq
       | |- links _ !! _ = Some (Ptr _) =>
           unfold links; cbn; rewrite lookup_fmap;
           rewrite !(lookup_insert_ne _ (brk s) x) by done;
           by rewrite lookup_insert_eq
       | |- ∀ k, (_ ≤ k)%nat → _ =>
           intros k Hk; cbn in Hk |- *;
           assert (k ≠ x) by (intros ->; rewrite Hfresh in Hd; [done|lia]);
           rewrite !lookup_insert_ne by lia; apply Hfresh; lia
       end.
  (* the head of the bus list *)
  - injection Hxv as ->. rewrite Hv in Hd. injection Hd as <-.
    exists (with_devices (Ptr (brk s)) b), (with_dev_next (Ptr (brk s)) dv).
    cbn. rewrite lookup_insert_eq, lookup_insert_ne, lookup_insert_eq
      by congruence.
    done.
  - assert (v ≠ x) by congruence.
    exists b, dv. cbn. rewrite !lookup_insert_ne by congruence.
    split_and!; congruence.
Qed.

Lemma links_lookup s s' k :
  links s' = links s →
  (dev_heap s' !! k = None ↔ dev_heap s !! k = None) ∧
  ∀ d, dev_heap s !! k = Some d →
       ∃ d', dev_heap s' !! k = Some d' ∧ dev_next d' = dev_next d.
Proof.
  intros E. assert (links s' !! k = links s !! k) as Ek by (by rewrite E).
  unfold links in Ek. rewrite !lookup_fmap in Ek.
  destruct (dev_heap s' !! k) as [d'|], (dev_heap s !! k) as [d|]; try done.
  cbn in Ek. injection Ek as Ek. split; [done|]. intros ? [= <-]. eauto.
Qed.

Lemma fill_device_loop rb v l x it s it' s' :
  device_loop s rb v l →
  fill_device (Ptr x) it s = Ret it' s' →
  device_loop s' rb v l ∧
  ∀ k, dev_heap s !! k = None ↔ dev_heap s' !! k = None.
Proof.
  intros (Hch & Hnd & (b & dv & Hb & Hv & Hhead) & Hfresh) E.
  destruct (fill_device_keeps_links (Ptr x) it) as (Kl & Kb & Kk).
  pose proof (keeps_returns _ _ _ _ _ Kl E) as El.
  pose proof (keeps_returns _ _ _ _ _ Kb E) as Eb.
  pose proof (keeps_returns _ _ _ _ _ Kk E) as Ek.
  split.
  - unfold device_loop. split_and!.
    + eapply dev_chain_links; [|exact Hch]. intros k _. by rewrite El.
    + done.
    + destruct (links_lookup s s' v El) as [_ Hsome].
      destruct (Hsome _ Hv) as (dv' & Hv' & Hn).
      exists b, dv'. rewrite Eb. split_and!; congruence.
    + intros k Hk. apply (links_lookup s s' k El). apply Hfresh. lia.
  - intros k. symmetry. apply (links_lookup s s' k El).
Qed.

Lemma read_devices_loop fuel rb v :
  ∀ l x it s r it' s',
    device_loop s rb v l → x ∈ v :: l →
    read_devices fuel (Ptr rb) v (Ptr x) it s = Ret (r, it') s' →
    ∃ x' l', r = Ptr x' ∧ x' ∈ v :: l' ∧ device_loop s' rb v l' ∧
             l `prefix_of` l' ∧
             (∀ k, k ∈ l' → k ∉ l → dev_heap s !! k = None) ∧
             (x ∈ l ∨ is_type it SequenceType = true → x' ∈ l').
Proof.
  induction fuel as [|fuel IH]; intros l x it s r it' s' Hinv Hx;
    cbn [read_devices].
  all: destruct (is_type it SequenceType) eqn:Hseq; [|intros [= <- <- <-]].
  all: try (exists x, l; split_and!; try done; by intros [?|?]).
  unfold read_device. cbn [bind M_seq].
  destruct (next_device (Ptr rb) v (Ptr x) s) as [p s1| |] eqn:En;
    try discriminate.
  destruct (next_device_loop _ _ _ _ _ _ _ Hinv Hx En)
    as (x1 & l1 & -> & Hx1 & Hinv1 & Hl1 & Hmono).
  destruct (fill_device (Ptr x1) (iter_enter it) s1) as [it1 s2| |] eqn:Ef;
    try discriminate.
  destruct (fill_device_loop _ _ _ _ _ _ _ _ Hinv1 Ef) as [Hinv2 Hsame].
  cbn [ret M_seq fst snd]. intros Er.
  destruct (IH l1 x1 it1 s2 r it' s' Hinv2 (list_elem_of_further _ _ _ Hx1) Er)
    as (x' & l' & -> & Hx' & Hinv' & Hpre & Hnew & Hoff).
  assert (x1 ∈ l') as Hx1' by (by eapply elem_of_prefix).
  assert (l `prefix_of` l1) as Hl by (destruct Hl1 as [->|[-> _]];
    [done|by apply prefix_app_r]).
  exists x', l'. split_and!; try done.
  - by etrans.
  - intros k Hk Hnk. destruct (decide (k ∈ l1)) as [Hin|Hnin].
    + destruct Hl1 as [->|[-> Hfr]]; [done|].
      apply elem_of_app in Hin as [Hin|Hin]; [done|].
      apply list_elem_of_singleton in Hin. by subst.
    + apply Hmono, Hsame, Hnew; done.
  - intros _. apply Hoff. by left.
Qed.

Lemma dev_chain_trim s s' l1 x l2 :
  ∀ p, dev_chain s p (l1 ++ x :: l2) →
       (∀ k, k ∈ l1 → dev_heap s' !! k = dev_heap s !! k) →
       (∃ d, dev_heap s' !! x = Some d ∧ dev_next d = NULL) →
       dev_chain s' p (l1 ++ [x]).
Proof.
  induction l1 as [|a l1 IH]; intros p Hch Hsame (dx & Hdx & Hnull); cbn.
  - destruct Hch as (-> & _). split; [done|]. exists dx. by rewrite Hnull.
  - destruct Hch as (-> & d & Hd & Hrest). split; [done|]. exists d. split.
    + rewrite Hsame; [done|]. apply list_elem_of_here.
    + apply IH; [done| |by eauto].
      intros k Hk. apply Hsame. by apply list_elem_of_further.
Qed.

(** X10: the device loop of one bus when the bus record holds at least one
    device.  Let the bus node [n] (reused or just allocated) have the
    well-formed list [l] of distinct devices.  If [read_bus] returns, [n]
    has a well-formed, non-empty list [l'] of distinct live devices again;
    [l'] and [l] agree position by position as far as both go (the nodes
    are reused in place), the nodes of [l] that [l'] drops are freed, and
    the nodes [l'] adds were not allocated before. *)
Theorem read_bus_keeps_device_list (a n : nat) (it it1 it' : Iterator)
    (s s0 s1 s' : state) (bn : usb_bus) (l : list nat) (r : ptr) :
  next_bus (Ptr a) s = Ret (Ptr n) s0 →
  fill_bus (Ptr n) (iter_enter it) s0 = Ret it1 s1 →
  is_type it1 SequenceType = true →
  bus_heap s1 !! n = Some bn →
  dev_chain s1 (devices bn) l → NoDup l →
  (∀ k, (brk s1 ≤ k)%nat → dev_heap s1 !! k = None) →
  read_bus (Ptr a) it s = Ret (r, it') s' →
  r = Ptr n ∧
  ∃ bn' l', bus_heap s' !! n = Some bn' ∧ dev_chain s' (devices bn') l' ∧
            NoDup l' ∧ l' ≠ [] ∧
            (l' `prefix_of` l ∨ l `prefix_of` l') ∧
            (∀ k, k ∈ l → k ∉ l' → dev_heap s' !! k = None) ∧
            (∀ k, k ∈ l' → k ∉ l → dev_heap s1 !! k = None).
Proof.
  intros Hnext Hfill Hseq Hbn Hch Hnd Hfresh.
  unfold read_bus. cbn [bind M_seq]. rewrite Hnext, Hfill.
  unfold load_bus at 1. rewrite Hbn.
  unfold local_dev, malloc_dev.
  set (v := brk s1). set (s2 := set_brk _ _).
  assert (v ∉ l) as Hvl.
  { intros Hin. destruct (dev_chain_live _ _ _ Hch _ Hin) as [d Hd].
    rewrite Hfresh in Hd; [done|]. subst v. lia. }
  assert (device_loop s2 n v l) as Hinv.
  { unfold device_loop. split_and!.
    - split; [done|]. exists (with_dev_next (devices bn) zero_device).
      split; [subst s2; cbn; apply lookup_insert_eq|]. cbn.
      eapply dev_chain_frame; [|exact Hch]. intros x Hx. subst s2. cbn.
      rewrite lookup_insert_ne; [done|]. intros <-. done.
    - by apply NoDup_cons.
    - exists bn, (with_dev_next (devices bn) zero_device). subst s2. cbn.
      by rewrite lookup_insert_eq.
    - intros k Hk. subst s2. cbn in Hk |- *.
      rewrite lookup_insert_ne by (subst v; lia). apply Hfresh. subst v. lia. }
  destruct (read_devices BUFSIZE (Ptr n) v (Ptr v) it1 s2) as [[r1 it2] s3| |]
    eqn:Er; try discriminate.
  destruct (read_devices_loop _ _ _ _ _ _ _ _ _ _ Hinv (list_elem_of_here _ _) Er)
    as (x' & l' & -> & _ & Hinv3 & Hpre & Hnew & Hoff).
  specialize (Hoff (or_intror Hseq)).
  destruct Hinv3 as (Hch3 & Hnd3 & (b3 & dv3 & Hb3 & Hv3 & Hhead3) & Hfresh3).
  apply list_elem_of_split in Hoff as (l1 & l2 & ->).
  destruct (dev_chain_split s3 (v :: l1) x' l2 _ Hch3) as (dx & Hdx & Htail).
  apply NoDup_cons in Hnd3 as [Hvl' Hnd3].
  apply NoDup_app in Hnd3 as (Hnd1 & Hdisj & Hnd2).
  apply NoDup_cons in Hnd2 as [Hxl2 Hnd2].
  unfold get. cbn [bind M_seq fst snd].
  destruct (free_unused_devices_frees_tail l2 (size (dev_heap s3)) x' dx s3)
    as (s4 & Et & Hheap4 & Hbus4); try done.
  { apply NoDup_live_length; [done|]. by eapply dev_chain_live. }
  rewrite Et. unfold pop_dev, modify. cbn [bind M_seq ret].
  intros [= <- <- <-]. split; [done|].
  exists b3, (l1 ++ [x']). cbn [bus_heap dev_heap set_dev_heap].
  rewrite Hbus4, Hheap4.
  assert (v ≠ x') as Hvx.
  { intros ->. apply Hvl'. rewrite elem_of_app. right. apply list_elem_of_here. }
  assert (x' ∉ l1) as Hxl1.
  { intros Hin. apply (Hdisj _ Hin), list_elem_of_here. }
  split_and!.
  - done.
  - destruct Hch3 as (_ & dv' & Hv' & Hrest). rewrite Hv3 in Hv'.
    injection Hv' as <-. rewrite Hhead3.
    eapply dev_chain_trim; [exact Hrest| |].
    + intros k Hk. cbn.
      assert (k ≠ v) by (intros ->; apply Hvl'; rewrite elem_of_app; by left).
      assert (k ≠ x') by (intros ->; done).
      rewrite lookup_delete_ne, lookup_insert_ne by done.
      rewrite lookup_foldr_delete, decide_False; [done|].
      intros Hin. apply (Hdisj _ Hk). by apply list_elem_of_further.
    + exists (with_dev_next NULL dx). cbn.
      by rewrite lookup_delete_ne, lookup_insert_eq.
  - apply NoDup_app. split; [done|]. split; [|apply NoDup_singleton].
    intros k Hk Hin. apply list_elem_of_singleton in Hin. by subst.
  - by destruct l1.
  - eapply prefix_weak_total; [|exact Hpre].
    exists l2. by rewrite <- app_assoc.
  - intros k Hk Hnk. cbn.
    assert (k ∈ l2) as Hk2.
    { apply (elem_of_prefix _ _ _ Hk) in Hpre.
      apply elem_of_app in Hpre as [Hin|Hin].
      - exfalso. apply Hnk. rewrite elem_of_app. by left.
      - apply elem_of_cons in Hin as [->|Hin]; [|done].
        exfalso. apply Hnk. rewrite elem_of_app. right. apply list_elem_of_here. }
    assert (k ≠ x') by (intros ->; done).
    rewrite lookup_delete_ne by (intros <-; done).
    rewrite lookup_insert_ne by done.
    by rewrite lookup_foldr_delete, decide_True.
  - intros k Hk Hnk.
    assert (dev_heap s2 !! k = None) as Hk2.
    { apply Hnew; [|done]. apply elem_of_app in Hk as [Hin|Hin].
      - rewrite elem_of_app. by left.
      - apply list_elem_of_singleton in Hin. subst.
        rewrite elem_of_app. right. apply list_elem_of_here. }
    subst s2. cbn in Hk2.
    destruct (decide (k = v)) as [->|Hkv].
    + by rewrite lookup_insert_eq in Hk2.
    + by rewrite lookup_insert_ne in Hk2.
Qed.

(** ** The configuration subtree *)

Lemma clip_len_bound size it :
  0 ≤ size → 0 ≤ clip_len size it ≤ size.
Proof. intros Hs. unfold clip_len, it_len. case_match; lia. Qed.

Lemma load_endpoints_loaded n :
  ∀ it eps it', load_endpoints n it = (eps, it') →
                length eps = n ∧ Forall endpoint_loaded eps.
Proof.
  induction n as [|n IH]; intros it eps it'; cbn [load_endpoints].
  - by intros [= <- <-].
  - destruct (load_endpoints n (iter_next it).1) as [eps1 it1] eqn:E.
    intros [= <- <-]. destruct (IH _ _ _ E) as [Hlen Hall].
    split; [cbn; by rewrite Hlen|]. apply Forall_cons. split; [|done].
    unfold endpoint_loaded. cbn. split_and!; try done.
    rewrite length_take.
    pose proof (clip_len_bound sizeof_usb_endpoint_descriptor it).
    unfold sizeof_usb_endpoint_descriptor in *. lia.
Qed.

Lemma load_altsettings_loaded n :
  ∀ it alts it', load_altsettings n it = Ok (alts, it') →
                 length alts = n ∧ Forall altsetting_loaded alts.
Proof.
  induction n as [|n IH]; intros it alts it'; cbn [load_altsettings].
  - by intros [= <- <-].
  - cbn [bind res_seq].
    destruct (field_u8 _ 4) as [ne|] eqn:Hne; [|done]. cbn [bind res_seq].
    destruct (0 <? ne) eqn:Hpos.
    + destruct (load_endpoints (Z.to_nat ne) (iter_next it).1) as [eps it1]
        eqn:Ee.
      destruct (load_altsettings n it1) as [[alts1 it2]|] eqn:Ea; [|done].
      cbn. intros [= <- <-]. destruct (IH _ _ _ Ea) as [Hlen Hall].
      destruct (load_endpoints_loaded _ _ _ _ Ee) as [Hle Hae].
      split; [cbn; by rewrite Hlen|]. apply Forall_cons. split; [|done].
      unfold altsetting_loaded, bNumEndpoints. cbn. split_and!; try done.
      * rewrite length_take.
        pose proof (clip_len_bound sizeof_usb_interface_descriptor it).
        unfold sizeof_usb_interface_descriptor in *. lia.
      * exists ne. split; [done|]. rewrite Hpos. exists eps.
        split_and!; [done|lia|done].
    + destruct (load_altsettings n (iter_next it).1) as [[alts1 it2]|] eqn:Ea;
        [|done].
      cbn. intros [= <- <-]. destruct (IH _ _ _ Ea) as [Hlen Hall].
      split; [cbn; by rewrite Hlen|]. apply Forall_cons. split; [|done].
      unfold altsetting_loaded, bNumEndpoints. cbn. split_and!; try done.
      * rewrite length_take.
        pose proof (clip_len_bound sizeof_usb_interface_descriptor it).
        unfold sizeof_usb_interface_descriptor in *. lia.
      * exists ne. split; [done|]. by rewrite Hpos.
Qed.

Lemma load_interfaces_loaded n :
  ∀ i ifs it ifs' it',
    load_interfaces n i ifs it = Ok (ifs', it') →
    length ifs' = length ifs ∧
    (∀ j, (j < i)%nat → ifs' !! j = ifs !! j) ∧
    (∀ j, (i ≤ j < i + n)%nat →
          ∃ x, ifs' !! j = Some x ∧ interface_loaded x).
Proof.
  induction n as [|n IH]; intros i ifs it ifs' it'; cbn [load_interfaces].
  - intros [= <- <-]. split_and!; [done..|]. intros j Hj. lia.
  - cbn [bind res_seq].
    destruct (ifs !! i) as [iface|] eqn:Hi; [|done]. cbn [bind res_seq].
    set (na := as_int (it_val it)).
    assert (∀ x it2, interface_loaded x →
              load_interfaces n (S i) (<[i:=x]> ifs) it2 = Ok (ifs', it') →
              length ifs' = length ifs ∧
              (∀ j, (j < i)%nat → ifs' !! j = ifs !! j) ∧
              (∀ j, (i ≤ j < i + S n)%nat →
                    ∃ x, ifs' !! j = Some x ∧ interface_loaded x)) as Hstep.
    { intros x it2 Hshape E.
      destruct (IH _ _ _ _ _ E) as (Hlen & Hlow & Hnew).
      rewrite length_insert in Hlen. split; [done|]. split.
      - intros j Hj. rewrite Hlow by lia. apply list_lookup_insert_ne. lia.
      - intros j Hj. destruct (decide (j = i)) as [->|Hne].
        + rewrite Hlow by lia. rewrite list_lookup_insert_eq.
          * by eexists.
          * by eapply lookup_lt_Some.
        + apply Hnew. lia. }
    destruct (0 <? na) eqn:Hpos.
    + destruct (load_altsettings _ _) as [[alts it1]|] eqn:Ea; [|done].
      cbn. apply Hstep.
      destruct (load_altsettings_loaded _ _ _ _ Ea) as [Hlen Hall].
      split; cbn; [lia|]. intros _. exists alts. split_and!; [done|lia|done].
    + destruct (na =? 0) eqn:Hz; [|by destruct (altsetting iface)].
      cbn. apply Hstep. split; cbn; lia.
Qed.

(** X11: the interface loop on the array that [read_config] has just
    allocated.  If the loop completes, the array has its [n] elements, and
    every element is in shape: its count of alternate settings is not
    negative, and a positive count comes with an array of that many
    alternate settings, each with an image no longer than its structure,
    no extra descriptors, and an endpoint array of its own endpoint count
    whose elements are clipped the same way. *)
Theorem interfaces_loaded_in_shape (n : nat) (it it' : Iterator)
    (ifs : list usb_interface) :
  load_interfaces n 0 (replicate n blank_interface) it = Ok (ifs, it') →
  length ifs = n ∧ Forall interface_loaded ifs.
Proof.
  intros E. destruct (load_interfaces_loaded _ _ _ _ _ _ E) as (Hlen & _ & Hnew).
  rewrite length_replicate in Hlen. split; [done|].
  apply Forall_lookup. intros j x Hj.
  destruct (Hnew j) as (y & Hy & Hs).
  { apply lookup_lt_Some in Hj. lia. }
  rewrite Hj in Hy. by injection Hy as <-.
Qed.

(** *** Destroying a configuration *)

Lemma destroy_endpoints_loaded n :
  ∀ i eps, (i + n ≤ length eps)%nat → Forall endpoint_loaded eps →
           destroy_endpoints n i eps = Ok tt.
Proof.
  induction n as [|n IH]; intros i eps Hlen Hall; cbn [destroy_endpoints];
    [done|].
  destruct (lookup_lt_is_Some_2 eps i) as [e He]; [lia|].
  rewrite He. cbn [bind res_seq].
  rewrite Forall_lookup in Hall. destruct (Hall _ _ He) as (_ & -> & _).
  cbn. apply IH; [lia|]. by apply Forall_lookup.
Qed.

Lemma destroy_altsetting_loaded a :
  altsetting_loaded a → endpoints_freeable a → destroy_altsetting a = Ok tt.
Proof.
  intros (_ & Hx & _ & n & Hn & Hshape) Hfree. unfold destroy_altsetting.
  rewrite Hx. cbn. destruct (0 <? n) eqn:Hpos.
  - destruct Hshape as (eps & -> & Hlen & Hall). rewrite Hn. cbn.
    apply destroy_endpoints_loaded; [lia|done].
  - rewrite Hshape. by rewrite Hfree.
Qed.

Lemma destroy_altsettings_loaded n :
  ∀ i alts, (i + n ≤ length alts)%nat →
            Forall altsetting_loaded alts → Forall endpoints_freeable alts →
            destroy_altsettings n i alts = Ok tt.
Proof.
  induction n as [|n IH]; intros i alts Hlen Hall Hfree;
    cbn [destroy_altsettings]; [done|].
  destruct (lookup_lt_is_Some_2 alts i) as [a Ha]; [lia|].
  rewrite Ha. cbn [bind res_seq].
  rewrite destroy_altsetting_loaded.
  - cbn. apply IH; [lia|done..].
  - by eapply Forall_lookup_1.
  - by eapply Forall_lookup_1.
Qed.

Lemma destroy_interfaces_loaded n :
  ∀ i ifs, (i + n ≤ length ifs)%nat →
    Forall interface_loaded ifs →
    Forall (λ x, 0 < num_altsetting x ∧
                 ∀ alts, altsetting x = Some alts →
                         Forall endpoints_freeable alts) ifs →
    destroy_interfaces n i ifs = Ok tt.
Proof.
  induction n as [|n IH]; intros i ifs Hlen Hall Hfree;
    cbn [destroy_interfaces]; [done|].
  destruct (lookup_lt_is_Some_2 ifs i) as [x Hx]; [lia|].
  rewrite Hx. cbn [bind res_seq].
  destruct (Forall_lookup_1 _ _ _ _ Hall Hx) as [_ Hshape].
  destruct (Forall_lookup_1 _ _ _ _ Hfree Hx) as [Hpos Hfr].
  destruct (Hshape Hpos) as (alts & Ha & Hl & Hal).
  unfold destroy_interface. rewrite Ha.
  rewrite destroy_altsettings_loaded; [|lia|done|by apply Hfr].
  cbn. apply IH; [lia|done..].
Qed.

(** X12: what the synchroniser builds, the exit hook can free.  A device
    that reports at most one configuration, whose configuration has an
    interface array of its interface count in the shape the interface
    loop leaves, every interface with at least one alternate setting, is
    destroyed without a fault, provided an alternate setting without
    endpoints has null bytes where its image covers the endpoint
    pointer. *)
Theorem loaded_configuration_is_destroyed (d : usb_device)
    (cf : usb_config_descriptor) (ifs : list usb_interface) :
  config d = Some cf →
  bNumConfigurations (descriptor d) ≤ 1 →
  interface cf = Some ifs →
  bNumInterfaces cf = Some (Z.of_nat (length ifs)) →
  Forall interface_loaded ifs →
  Forall (λ x, 0 < num_altsetting x ∧
               ∀ alts, altsetting x = Some alts →
                       Forall endpoints_freeable alts) ifs →
  usb_destroy_configuration d = Ok tt.
Proof.
  intros Hc Hn Hi Hb Hall Hfree. unfold usb_destroy_configuration.
  rewrite Hc. destruct (0 <? bNumConfigurations (descriptor d)) eqn:Hpos;
    [|done].
  rewrite Hi, Hb. cbn [bind res_seq].
  rewrite destroy_interfaces_loaded; [|lia|done..].
  cbn. by assert ((1 <? bNumConfigurations (descriptor d)) = false) as ->
    by lia.
Qed.

(** ** The bus trim *)

Lemma bus_chain_frame s s' l :
  ∀ p, (∀ x, x ∈ l → bus_heap s' !! x = bus_heap s !! x) →
       bus_chain s p l → bus_chain s' p l.
Proof.
  induction l as [|a l IH]; intros p Hsame; cbn; [done|].
  intros (-> & b & Hb & Hrest). split; [done|]. exists b. split.
  - rewrite Hsame; [done|]. apply list_elem_of_here.
  - apply IH; [|done]. intros x Hx. apply Hsame. by apply list_elem_of_further.
Qed.

(** The bus trim on a node [a] followed by the well-formed list [l]: [a]
    becomes the last node, no node is freed, nothing else changes. *)
Lemma unlink_unused_busses_unlinks (l : list nat) :
  ∀ (fuel a : nat) (b : usb_bus) (s : state),
    bus_heap s !! a = Some b → bus_chain s (bus_next b) l → a ∉ l →
    (length l ≤ fuel)%nat →
    ∃ s', unlink_unused_busses fuel (Ptr a) s = Ret tt s' ∧
          bus_heap s' = <[a := with_bus_next NULL b]> (bus_heap s) ∧
          (∀ k, k ∈ l → bus_heap s' !! k = bus_heap s !! k ∧
                        is_Some (bus_heap s' !! k)) ∧
          dev_heap s' = dev_heap s ∧ remote_bus s' = remote_bus s ∧
          usb_busses s' = usb_busses s ∧ hdl_heap s' = hdl_heap s ∧
          brk s' = brk s ∧ remote_fd s' = remote_fd s ∧
          exitf_hooked s' = exitf_hooked s ∧ console s' = console s.
Proof.
  induction l as [|c l IH]; intros fuel a b s Hb Hch Ha Hfuel.
  - cbn in Hch. destruct fuel; cbn [unlink_unused_busses bind M_seq].
    all: unfold load_bus; rewrite Hb, Hch; cbn.
    all: eexists; split; [reflexivity|]; split_and!; try done.
    1,3: symmetry; apply insert_id; rewrite Hb; f_equal;
         destruct b; cbn in *; by subst.
    all: intros k Hk; by apply not_elem_of_nil in Hk.
  - destruct Hch as (Hn & bc & Hc & Hrest).
    destruct fuel as [|fuel]; [cbn in Hfuel; lia|].
    cbn [unlink_unused_busses bind M_seq].
    unfold load_bus at 1. rewrite Hb, Hn. cbn [ptr_is_null].
    unfold load_bus at 1. rewrite Hc.
    unfold store_bus, load_bus, modify. cbn [bind M_seq]. rewrite Hb. cbn.
    apply not_elem_of_cons in Ha as [Hac Hal].
    match goal with |- context [unlink_unused_busses fuel _ ?s1] =>
      destruct (IH fuel a (with_bus_next (bus_next bc) b) s1)
        as (s' & E & Hheap & Hkeep & Hdev & Hrem & Hpub & Hhdl & Hbrk & Hfd & Hhk & Hcon)
    end.
    + cbn. apply lookup_insert_eq.
    + cbn. eapply bus_chain_frame; [|exact Hrest].
      intros x Hx. cbn. rewrite lookup_insert_ne by (intros ->; done). done.
    + done.
    + cbn in Hfuel. lia.
    + exists s'. split; [exact E|].
      cbn in Hheap, Hdev, Hrem, Hpub, Hhdl, Hbrk, Hfd, Hhk, Hcon.
      rewrite Hheap, insert_insert_eq. split_and!; try done.
      intros k Hk. assert (k ≠ a) as Hka
        by (intros ->; apply elem_of_cons in Hk as [->|Hk]; done).
      rewrite lookup_insert_ne by done. split; [done|].
      apply elem_of_cons in Hk as [->|Hk]; [by eexists|].
      destruct (Hkeep k Hk) as [Hsame [v Hv]].
      rewrite Hheap, !lookup_insert_ne in Hv by done. by eexists.
Qed.

(** X14: the bus trim unlinks and does not free.  On a node [a] followed
    by the well-formed list [l] of surplus busses, the trim returns with
    [a] as the last node; every surplus bus is still allocated and is what
    it was, and so is every device node, although nothing in the cache
    points to the surplus busses any more. *)
Theorem unlinked_busses_are_not_freed (l : list nat) (fuel a : nat)
    (b : usb_bus) (s : state) :
  bus_heap s !! a = Some b → bus_chain s (bus_next b) l → a ∉ l →
  (length l ≤ fuel)%nat →
  ∃ s' b', unlink_unused_busses fuel (Ptr a) s = Ret tt s' ∧
           bus_heap s' !! a = Some b' ∧ bus_next b' = NULL ∧
           (∀ k, k ∈ l → bus_heap s' !! k = bus_heap s !! k ∧
                         is_Some (bus_heap s' !! k)) ∧
           dev_heap s' = dev_heap s.
Proof.
  intros Hb Hch Ha Hfuel.
  destruct (unlink_unused_busses_unlinks l fuel a b s Hb Hch Ha Hfuel)
    as (s' & E & Hheap & Hkeep & Hdev & _).
  exists s', (with_bus_next NULL b). split; [exact E|].
  split; [rewrite Hheap; apply lookup_insert_eq|]. done.
Qed.

(** X19: a reply that lists no bus.  When the cursor has nothing behind
    the first field, [usb_find_devices] returns the count of that field,
    both list heads are null afterwards, and no bus or device node has
    been freed or changed: the whole former cache stays allocated. *)
Theorem reply_without_bus_drops_the_cache (env : ipc) (pkt : Packet)
    (s s0 : state) (fd : Z) (l : list nat) :
  init_hostfd env s = Ret fd s0 →
  (iter_next (pkt_begin pkt)).2 = false →
  bus_chain s (remote_bus s) l → NoDup l →
  bus_heap s !! brk s = None →
  ∃ s', usb_find_devices env (Some pkt) s
        = Ret (if is_type (pkt_begin pkt) IntegerType
               then to_int (as_uint (it_val (pkt_begin pkt))) else 0) s' ∧
        remote_bus s' = NULL ∧ usb_busses s' = NULL ∧
        bus_heap s' = bus_heap s ∧ dev_heap s' = dev_heap s ∧
        hdl_heap s' = hdl_heap s.
Proof.
  intros Hi Hend Hch Hnd Hfresh.
  destruct (init_hostfd_frame _ _ _ _ Hi) as (Fr & Fu & Fb & Fd & Fh & Fk).
  unfold usb_find_devices. cbn [bind M_seq]. rewrite Hi.
  unfold get, local_bus, malloc_bus. cbn [bind M_seq].
  set (v := brk s0).
  set (b := with_bus_next (remote_bus s0) zero_bus).
  set (s1 := set_brk _ _).
  assert (read_busses BUFSIZE (Ptr v) (pkt_begin pkt) s1 = Ret (Ptr v) s1)
    as ->.
  { generalize BUFSIZE. intros fuel.
    destruct fuel; cbn [read_busses].
    all: destruct (iter_next (pkt_begin pkt)) as [it more]; cbn in Hend.
    all: by rewrite Hend. }
  assert (v ∉ l) as Hvl.
  { intros Hin. assert (is_Some (bus_heap s !! v)) as [x Hx].
    { clear -Hch Hin. revert Hch. generalize (remote_bus s).
      induction l as [|c l IH]; intros p Hch.
      - by apply not_elem_of_nil in Hin.
      - destruct Hch as (_ & bc & Hc & Hrest).
        apply elem_of_cons in Hin as [->|Hin]; [by eexists|]. by eapply IH. }
    subst v. rewrite Fk, Hfresh in Hx. done. }
  assert (∀ k, k ∈ l → is_Some (bus_heap s1 !! k)) as Hlive.
  { intros k Hk. subst s1. cbn.
    rewrite lookup_insert_ne by (intros ->; done). rewrite Fb.
    clear -Hch Hk. revert Hch. generalize (remote_bus s).
    induction l as [|c l IH]; intros p Hch.
    - by apply not_elem_of_nil in Hk.
    - destruct Hch as (_ & bc & Hc & Hrest).
      apply elem_of_cons in Hk as [->|Hk]; [by eexists|]. by eapply IH. }
  destruct (unlink_unused_busses_unlinks l (size (bus_heap s1)) v b s1)
    as (s2 & E & Hheap & _ & Hdev & Hrem & Hpub & Hhdl & _).
  { subst s1. cbn. apply lookup_insert_eq. }
  { subst b. cbn. rewrite Fr. eapply bus_chain_frame; [|exact Hch].
    intros x Hx. subst s1. cbn. rewrite Fb.
    apply lookup_insert_ne. intros ->. done. }
  { done. }
  { by apply NoDup_live_length. }
  rewrite E. unfold load_bus, modify, pop_bus, modify. cbn [bind M_seq].
  rewrite Hheap, lookup_insert_eq. cbn.
  eexists. split; [reflexivity|]. cbn. rewrite Hheap, Hdev, Hhdl.
  split_and!; try done.
  rewrite delete_insert_eq. subst s1. cbn. rewrite delete_insert_eq.
  rewrite <- Fb. apply delete_id. subst v. by rewrite Fb, Fk.
Qed.

(** ** The exit hook *)

Lemma free_bus_devices_frees l :
  ∀ fuel a b s,
    bus_heap s !! a = Some b → dev_chain s (devices b) l → NoDup l →
    (length l ≤ fuel)%nat →
    (∀ k d, k ∈ l → dev_heap s !! k = Some d → destroyable d) →
    ∃ s', free_bus_devices fuel (Ptr a) s = Ret tt s' ∧
          bus_heap s' = <[a := with_devices NULL b]> (bus_heap s) ∧
          (∀ k, dev_heap s' !! k
                = if decide (k ∈ l) then None else dev_heap s !! k) ∧
          remote_bus s' = remote_bus s ∧ usb_busses s' = usb_busses s ∧
          hdl_heap s' = hdl_heap s.
Proof.
  induction l as [|c l IH]; intros fuel a b s Hb Hch Hnd Hfuel Hok.
  - cbn in Hch. destruct fuel; cbn [free_bus_devices bind M_seq].
    all: unfold load_bus; rewrite Hb, Hch; cbn.
    all: eexists; split; [reflexivity|]; split_and!; try done.
    all: symmetry; apply insert_id; rewrite Hb; f_equal.
    all: destruct b; cbn in *; by subst.
  - destruct Hch as (Hn & dc & Hc & Hrest).
    destruct fuel as [|fuel]; [cbn in Hfuel; lia|].
    apply NoDup_cons in Hnd as [Hcl Hnd].
    destruct (Hok c dc (list_elem_of_here _ _) Hc) as [Hdestroy Hchildren].
    cbn [free_bus_devices bind M_seq].
    unfold load_bus at 1. rewrite Hb, Hn. cbn [ptr_is_null].
    unfold load_dev at 1. rewrite Hc.
    unfold store_bus, load_bus, modify. cbn [bind M_seq]. rewrite Hb.
    rewrite Hdestroy, Hchildren. cbn. rewrite Hc.
    match goal with |- context [free_bus_devices fuel _ ?s1] =>
      destruct (IH fuel a (with_devices (dev_next dc) b) s1)
        as (s' & E & Hheap & Hdev & Hrem & Hpub & Hhdl)
    end.
    + cbn. apply lookup_insert_eq.
    + cbn. eapply dev_chain_frame; [|exact Hrest].
      intros x Hx. cbn. rewrite lookup_delete_ne by (intros ->; done). done.
    + done.
    + cbn in Hfuel. lia.
    + intros k d Hk. cbn. rewrite lookup_delete_ne by (intros ->; done).
      apply Hok. by apply list_elem_of_further.
    + exists s'. split; [exact E|]. cbn in Hheap, Hdev, Hrem, Hpub, Hhdl.
      rewrite Hheap, insert_insert_eq. split_and!; try done.
      intros k. rewrite Hdev. destruct (decide (k = c)) as [->|Hkc].
      * rewrite lookup_delete_eq, (decide_True (P := c ∈ c :: l));
          [by destruct (decide _)|apply list_elem_of_here].
      * rewrite lookup_delete_ne by done.
        destruct (decide (k ∈ l)) as [Hin|Hnin].
        -- rewrite decide_True; [done|]. by apply list_elem_of_further.
        -- rewrite decide_False; [done|]. rewrite not_elem_of_cons. done.
Qed.

Lemma cache_tree_frame s s' t :
  ∀ p, (∀ k, k ∈ t.*1 → bus_heap s' !! k = bus_heap s !! k) →
       (∀ k, k ∈ concat t.*2 → dev_heap s' !! k = dev_heap s !! k) →
       cache_tree s p t → cache_tree s' p t.
Proof.
  induction t as [|[a ds] t IH]; intros p Hbus Hdev; cbn; [done|].
  intros (-> & b & Hb & Hds & Hrest). split; [done|]. exists b. split_and!.
  - rewrite Hbus; [done|]. cbn. apply list_elem_of_here.
  - eapply dev_chain_frame; [|exact Hds]. intros x Hx. apply Hdev. cbn.
    rewrite elem_of_app. by left.
  - apply IH; [| |done].
    + intros k Hk. apply Hbus. cbn. by apply list_elem_of_further.
    + intros k Hk. apply Hdev. cbn. rewrite elem_of_app. by right.
Qed.

Lemma cache_tree_live s t :
  ∀ p, cache_tree s p t → ∀ k, k ∈ t.*1 → is_Some (bus_heap s !! k).
Proof.
  induction t as [|[a ds] t IH]; intros p Hch k Hk; cbn in *.
  - by apply not_elem_of_nil in Hk.
  - destruct Hch as (_ & b & Hb & _ & Hrest).
    apply elem_of_cons in Hk as [->|Hk]; [by eexists|]. by eapply IH.
Qed.

Lemma free_busses_frees t :
  ∀ fuel s,
    cache_tree s (remote_bus s) t → NoDup t.*1 → NoDup (concat t.*2) →
    (length t ≤ fuel)%nat →
    (∀ k d, k ∈ concat t.*2 → dev_heap s !! k = Some d → destroyable d) →
    ∃ s', free_busses fuel s = Ret tt s' ∧ remote_bus s' = NULL ∧
          (∀ k, bus_heap s' !! k
                = if decide (k ∈ t.*1) then None else bus_heap s !! k) ∧
          (∀ k, dev_heap s' !! k
                = if decide (k ∈ concat t.*2) then None
                  else dev_heap s !! k) ∧
          usb_busses s' = usb_busses s ∧ hdl_heap s' = hdl_heap s.
Proof.
  induction t as [|[a ds] t IH]; intros fuel s Hch Hnb Hnd Hfuel Hok.
  - cbn in Hch. destruct fuel; cbn [free_busses bind M_seq].
    all: unfold get; rewrite Hch; cbn.
    all: eexists; split; [reflexivity|]; split_and!; done.
  - destruct Hch as (Hhead & b & Hb & Hds & Hrest).
    destruct fuel as [|fuel]; [cbn in Hfuel; lia|].
    cbn [fmap list_fmap concat] in Hnb, Hnd, Hok.
    apply NoDup_cons in Hnb as [Hat Hnb].
    apply NoDup_app in Hnd as (Hnds & Hdisj & Hnd).
    cbn [free_busses bind M_seq].
    unfold get at 1. rewrite Hhead. cbn [ptr_is_null].
    unfold load_bus at 1. rewrite Hb. unfold modify, get. cbn [bind M_seq].
    set (s1 := set_remote_bus (bus_next b) s).
    cbn [fst snd] in Hat, Hnds, Hdisj, Hok.
    assert (dev_chain s1 (devices b) ds) as Hds1
      by (by eapply dev_chain_frame; [|exact Hds]).
    destruct (free_bus_devices_frees ds (size (dev_heap s1)) a b s1)
      as (s2 & E & Hheap & Hdev & Hrem & Hpub & Hhdl).
    { exact Hb. }
    { exact Hds1. }
    { exact Hnds. }
    { apply NoDup_live_length; [done|]. by eapply dev_chain_live. }
    { intros k d Hk. apply Hok. rewrite elem_of_app. by left. }
    rewrite E. unfold free_bus. rewrite Hheap, lookup_insert_eq.
    match goal with |- context [free_busses fuel ?s3] =>
      destruct (IH fuel s3) as (s' & E' & Hrem' & Hbus' & Hdev' & Hpub' & Hhdl')
    end.
    + cbn. rewrite Hrem. cbn.
      eapply cache_tree_frame; [| |exact Hrest].
      * intros k Hk. cbn.
        rewrite lookup_delete_ne, lookup_insert_ne by (intros ->; done).
        done.
      * intros k Hk. cbn. rewrite Hdev, decide_False; [done|].
        intros Hin. by apply (Hdisj _ Hin).
    + done.
    + done.
    + cbn in Hfuel. lia.
    + intros k d Hk. cbn. rewrite Hdev, decide_False.
      * apply Hok. rewrite elem_of_app. by right.
      * intros Hin. by apply (Hdisj _ Hin).
    + exists s'. split; [exact E'|]. cbn in Hbus', Hdev', Hpub', Hhdl'.
      split_and!; try congruence.
      * intros k. rewrite Hbus', ?Hheap. cbn [fmap list_fmap fst].
        destruct (decide (k = a)) as [->|Hka].
        -- rewrite lookup_delete_eq, (decide_True (P := a ∈ a :: t.*1));
             [by destruct (decide _)|apply list_elem_of_here].
        -- rewrite lookup_delete_ne, lookup_insert_ne by done.
           destruct (decide (k ∈ t.*1)) as [Hin|Hnin].
           ++ rewrite decide_True; [done|]. by apply list_elem_of_further.
           ++ rewrite decide_False; [done|]. rewrite not_elem_of_cons. done.
      * intros k. rewrite Hdev', Hdev. cbn [fmap list_fmap snd concat].
        destruct (decide (k ∈ concat t.*2)) as [Hin|Hnin].
        -- rewrite decide_True; [done|]. rewrite elem_of_app. by right.
        -- destruct (decide (k ∈ ds)) as [Hin'|Hnin'].
           ++ rewrite decide_True; [done|]. rewrite elem_of_app. by left.
           ++ rewrite decide_False; [done|]. rewrite elem_of_app.
              by intros [?|?].
      * subst s1. cbn in Hpub. congruence.
      * subst s1. cbn in Hhdl. congruence.
Qed.

(** X15: the exit hook on a well-formed cache.  When the cache is a list
    of distinct busses, each with a well-formed list of devices, no device
    on two lists, and every device can be destroyed, [deinit_hostfd]
    returns; it has freed every bus and every device of the cache and
    nothing else, both list heads are null, and the open handles are left
    as they were. *)
Theorem deinit_hostfd_frees_the_cache (s : state)
    (t : list (nat * list nat)) :
  cache_tree s (remote_bus s) t → NoDup t.*1 → NoDup (concat t.*2) →
  (∀ k d, k ∈ concat t.*2 → dev_heap s !! k = Some d → destroyable d) →
  ∃ s', deinit_hostfd s = Ret tt s' ∧
        remote_bus s' = NULL ∧ usb_busses s' = NULL ∧
        (∀ k, bus_heap s' !! k
              = if decide (k ∈ t.*1) then None else bus_heap s !! k) ∧
        (∀ k, dev_heap s' !! k
              = if decide (k ∈ concat t.*2) then None else dev_heap s !! k) ∧
        hdl_heap s' = hdl_heap s.
Proof.
  intros Hch Hnb Hnd Hok. unfold deinit_hostfd, modify, get.
  cbn [bind M_seq].
  destruct (free_busses_frees t (size (bus_heap s)) (set_usb_busses NULL s))
    as (s' & E & Hrem & Hbus & Hdev & Hpub & Hhdl).
  { by eapply cache_tree_frame; [| |exact Hch]. }
  { exact Hnb. }
  { exact Hnd. }
  { rewrite <- (length_fmap fst t).
    apply NoDup_live_length; [done|]. by eapply cache_tree_live. }
  { exact Hok. }
  exists s'. split; [exact E|]. split_and!; done.
Qed.

(** X16: the exit hook on a cache with a dangling list head.  When the
    first cached bus points to a device node that has been freed (the
    state an emptied bus record leaves behind), [deinit_hostfd] reads the
    freed node. *)
Theorem deinit_hostfd_follows_dangling_head (s : state) (a first : nat)
    (b : usb_bus) :
  remote_bus s = Ptr a → bus_heap s !! a = Some b →
  devices b = Ptr first → dev_heap s !! first = None →
  deinit_hostfd s = Fault UseAfterFree.
Proof.
  intros Hr Hb Hd Hgone. unfold deinit_hostfd, modify, get.
  cbn [bind M_seq].
  change (bus_heap (set_usb_busses NULL s)) with (bus_heap s).
  destruct (size (bus_heap s)) as [|fuel] eqn:Hsize.
  { apply map_size_empty_inv in Hsize. by rewrite Hsize in Hb. }
  cbn [free_busses bind M_seq]. unfold get at 1. cbn. rewrite Hr. cbn.
  rewrite Hb. cbn [dev_heap set_usb_busses].
  destruct (size (dev_heap s)); cbn [free_bus_devices bind M_seq].
  all: unfold load_bus; cbn; rewrite Hb, Hd; cbn.
  all: unfold load_dev; cbn; by rewrite Hgone.
Qed.

(** ** String descriptors *)

Lemma poke_spec buf i c out :
  poke buf i c = Ok out →
  0 ≤ i < Z.of_nat (length buf) ∧ out = <[Z.to_nat i := c]> buf.
Proof.
  unfold poke. case_match; [done|]. intros [= <-]. split; [lia|done].
Qed.

Lemma copy_chars_bounds fuel tbuf buflen :
  ∀ si di buf di' buf',
    copy_chars fuel tbuf buflen si di buf = Ok (di', buf') → 0 ≤ di →
    di ≤ di' ∧ length buf' = length buf ∧
    di' ≤ Z.max di (Z.of_nat (length buf)) ∧
    (∀ i, (i < Z.to_nat di ∨ Z.to_nat di' ≤ i)%nat → buf' !! i = buf !! i) ∧
    (1 ≤ buflen < 2 ^ 64 → di ≤ buflen - 1 → di' ≤ buflen - 1).
Proof.
  induction fuel as [|fuel IH]; intros si di buf di' buf'; cbn [copy_chars].
  all: destruct (si <? to_i8 (nth 0 tbuf 0)); [|intros [= <- <-] Hdi].
  all: try (split_and!; [lia|done|lia|done|done]).
  all: destruct (to_size (buflen - 1) <=? to_size di) eqn:Hbr;
         [intros [= <- <-] Hdi; split_and!; [lia|done|lia|done|done]|].
  { done. }
  cbn [bind res_seq].
  destruct (poke buf di _) as [buf1|] eqn:Hp; [|done]. cbn [bind res_seq].
  apply poke_spec in Hp as [Hin ->].
  intros E Hdi. destruct (IH _ _ _ _ _ E) as (Hle & Hlen & Hmax & Hsame & Hb);
    [lia|].
  rewrite length_insert in Hlen, Hmax. split_and!; [lia|done|lia| |].
  - intros i Hi. rewrite Hsame by lia. apply list_lookup_insert_ne. lia.
  - intros Hbl Hd. apply Hb; [done|]. unfold to_size in Hbr.
    rewrite !Z.mod_small in Hbr by lia. lia.
Qed.

(** X17: what [usb_get_string_simple] hands back when it returns.  A
    negative result leaves the caller's buffer as it was.  With a result
    [r] that is not negative, the buffer has kept its length, holds the
    terminating null byte at index [r], is unchanged behind it, and [r] is
    at most [buflen - 1] whenever [buflen] is at least 1. *)
Theorem usb_get_string_simple_contract (env1 env2 : ipc)
    (reply1 reply2 : option Packet) (junk : list byte) (dev : ptr)
    (index : Z) (buf buf' : list byte) (buflen r : Z) (s s' : state) :
  usb_get_string_simple env1 env2 reply1 reply2 junk dev index buf buflen s
    = Ret (r, buf') s' →
  (r < 0 → buf' = buf) ∧
  (0 ≤ r →
   length buf' = length buf ∧ buf' !! Z.to_nat r = Some 0 ∧
   (∀ i, (Z.to_nat r < i)%nat → buf' !! i = buf !! i) ∧
   (1 ≤ buflen < 2 ^ 64 → r ≤ buflen - 1)).
Proof.
  unfold usb_get_string_simple. cbn [bind M_seq].
  destruct (usb_get_string env1 reply1 dev 0 0 _ 255 s) as [[r1 tbuf1] s1| |];
    try discriminate.
  cbn [fst snd]. destruct (r1 <? 0) eqn:H1.
  { intros [= <- <- <-]. split; [done|lia]. }
  destruct (r1 <? 4) eqn:H4.
  { intros [= <- <- <-]. split; [done|]. unfold EIO. lia. }
  cbn [bind M_seq].
  destruct (usb_get_string env2 reply2 dev index _ tbuf1 255 s1)
    as [[r2 tbuf2] s2| |]; try discriminate.
  cbn [fst snd]. destruct (r2 <? 0) eqn:H2.
  { intros [= <- <- <-]. split; [done|lia]. }
  destruct (negb _).
  { intros [= <- <- <-]. split; [done|]. unfold EIO. lia. }
  destruct (_ >? r2).
  { intros [= <- <- <-]. split; [done|]. unfold EFBIG. lia. }
  destruct (copy_chars _ tbuf2 buflen 2 0 buf) as [[di buf1]|] eqn:Ec;
    [|discriminate].
  cbn [lift bind M_seq ret fst snd].
  destruct (poke buf1 di 0) as [buf2|] eqn:Hp; [|discriminate].
  cbn. intros [= <- <- <-].
  destruct (copy_chars_bounds _ _ _ _ _ _ _ _ Ec) as (Hle & Hlen & _ & Hsame & Hb);
    [lia|].
  apply poke_spec in Hp as [Hin ->].
  split; [lia|]. intros _. rewrite length_insert. split_and!.
  - done.
  - apply list_lookup_insert_eq. lia.
  - intros i Hi. rewrite list_lookup_insert_ne by lia. apply Hsame. lia.
  - intros Hbl. apply Hb; [done|lia].
Qed.

Lemma flat_map_pairs_lookup (f g : Z → Z) (us : list Z) :
  ∀ k u, us !! k = Some u →
         flat_map (λ u, [f u; g u]) us !! (2 * k)%nat = Some (f u) ∧
         flat_map (λ u, [f u; g u]) us !! S (2 * k) = Some (g u).
Proof.
  induction us as [|v us IH]; intros k u Hk; [done|].
  destruct k as [|k]; cbn in Hk |- *.
  - by injection Hk as ->.
  - replace (k + S (k + 0))%nat with (S (2 * k)) by lia. cbn.
    by apply IH.
Qed.

Lemma string_descriptor_fields (tbuf : list byte) (us : list Z) :
  take (2 + 2 * length us) tbuf = string_descriptor us →
  nth 0 tbuf 0 = 2 + 2 * Z.of_nat (length us) ∧
  nth 1 tbuf 0 = USB_DT_STRING ∧
  ∀ k u, us !! k = Some u →
         nth (2 + 2 * k) tbuf 0 = u mod 2 ^ 8 ∧
         nth (3 + 2 * k) tbuf 0 = u / 2 ^ 8.
Proof.
  intros Ht.
  assert (∀ i x, string_descriptor us !! i = Some x → nth i tbuf 0 = x) as Hn.
  { intros i x Hi. rewrite <- Ht in Hi.
    apply lookup_take_Some in Hi as [Hi _]. by rewrite nth_lookup, Hi. }
  split_and!.
  - by apply Hn.
  - by apply Hn.
  - intros k u Hk.
    destruct (flat_map_pairs_lookup (λ u, u mod 2 ^ 8) (λ u, u / 2 ^ 8)
                us k u Hk) as [Hlo Hhi].
    split; apply Hn; unfold string_descriptor; cbn [app].
    + exact Hlo.
    + exact Hhi.
Qed.

Lemma narrowed_char (u : Z) :
  0 ≤ u < 2 ^ 16 →
  (if to_i8 (u / 2 ^ 8) =? 0 then to_u8 (u mod 2 ^ 8) else 63) = narrowed u.
Proof.
  intros Hu. unfold narrowed, to_i8, to_u8.
  pose proof (Z.div_mod u (2 ^ 8)) as Hdm.
  pose proof (Z.mod_pos_bound u (2 ^ 8)) as Hm.
  assert (0 ≤ u / 2 ^ 8 < 2 ^ 8) as Hhi.
  { split; [apply Z.div_pos; lia|]. apply Z.div_lt_upper_bound; lia. }
  rewrite Z.mod_mod by lia.
  destruct (u / 2 ^ 8 =? 0) eqn:E.
  - assert (u / 2 ^ 8 = 0) as E0 by lia. rewrite E0 in Hdm |- *.
    change ((0 + 2 ^ 7) mod 2 ^ 8 - 2 ^ 7 =? 0) with true. cbn beta iota. lia.
  - assert ((u / 2 ^ 8 + 2 ^ 7) mod 2 ^ 8 - 2 ^ 7 ≠ 0) as Hne.
    { destruct (Z_lt_ge_dec (u / 2 ^ 8) (2 ^ 7)).
      - rewrite Z.mod_small by lia. lia.
      - replace (u / 2 ^ 8 + 2 ^ 7) with (u / 2 ^ 8 - 2 ^ 7 + 1 * 2 ^ 8) by lia.
        rewrite Z.mod_add by lia. rewrite Z.mod_small by lia. lia. }
    apply Z.eqb_neq in Hne. by rewrite Hne.
Qed.

Lemma copy_chars_decodes (tbuf : list byte) (us : list Z) (buflen : Z)
    (N : nat) :
  take (2 + 2 * length us) tbuf = string_descriptor us →
  Forall (λ u, 0 ≤ u < 2 ^ 16) us → (length us ≤ 62)%nat →
  N = Z.to_nat (Z.min (Z.of_nat (length us)) (to_size (buflen - 1))) →
  ∀ d k buf fuel,
    (k + d = N)%nat → (d ≤ fuel)%nat → (N ≤ length buf)%nat →
    copy_chars fuel tbuf buflen (2 + 2 * Z.of_nat k) (Z.of_nat k) buf
    = Ok (Z.of_nat N,
          take k buf ++ (narrowed <$> take d (drop k us)) ++ drop N buf).
Proof.
  intros Ht Hus Hlen HN.
  destruct (string_descriptor_fields _ _ Ht) as (H0 & _ & Hchars).
  assert (to_i8 (nth 0 tbuf 0) = 2 + 2 * Z.of_nat (length us)) as Hl.
  { rewrite H0. unfold to_i8. rewrite Z.mod_small; lia. }
  assert (0 ≤ to_size (buflen - 1) < 2 ^ 64) as Hb
    by (unfold to_size; apply Z.mod_pos_bound; lia).
  induction d as [|d IH]; intros k buf fuel Hk Hfuel Hbuf.
  - assert (k = N) as -> by lia.
    replace (take N buf ++ (narrowed <$> take 0 (drop N us)) ++ drop N buf)
      with buf
      by (change (narrowed <$> take 0 (drop N us)) with (@nil Z);
          by rewrite app_nil_l, take_drop).
    destruct fuel; cbn [copy_chars]; rewrite Hl.
    all: destruct (_ <? _) eqn:Hsi; [|done].
    all: assert ((to_size (buflen - 1) <=? to_size (Z.of_nat N)) = true) as ->;
         [|done].
    all: unfold to_size at 2; rewrite Z.mod_small by lia; lia.
  - destruct fuel as [|fuel]; [lia|]. cbn [copy_chars]. rewrite Hl.
    assert ((2 + 2 * Z.of_nat k <? 2 + 2 * Z.of_nat (length us)) = true) as ->
      by lia.
    assert ((to_size (buflen - 1) <=? to_size (Z.of_nat k)) = false) as ->.
    { unfold to_size at 2. rewrite Z.mod_small by lia. lia. }
    destruct (lookup_lt_is_Some_2 us k) as [u Hu]; [lia|].
    destruct (Hchars k u Hu) as [Hlo Hhi].
    replace (Z.to_nat (2 + 2 * Z.of_nat k + 1)) with (3 + 2 * k)%nat by lia.
    replace (Z.to_nat (2 + 2 * Z.of_nat k)) with (2 + 2 * k)%nat by lia.
    rewrite Hlo, Hhi.
    rewrite narrowed_char by exact (Forall_lookup_1 _ _ _ _ Hus Hu).
    unfold poke.
    assert ((Z.of_nat k <? 0) || (Z.of_nat (length buf) <=? Z.of_nat k) = false)
      as -> by lia.
    cbn [bind res_seq]. rewrite Nat2Z.id.
    replace (2 + 2 * Z.of_nat k + 2) with (2 + 2 * Z.of_nat (S k)) by lia.
    replace (Z.of_nat k + 1) with (Z.of_nat (S k)) by lia.
    rewrite IH; [|lia|lia|by rewrite length_insert].
    f_equal. f_equal.
    rewrite (take_S_r _ _ (narrowed u))
      by (apply list_lookup_insert_eq; lia).
    rewrite take_insert_ge by lia. rewrite drop_insert_lt by lia.
    rewrite (drop_S us u k Hu). cbn. by rewrite <- app_assoc.
Qed.

(** X18: [usb_get_string_simple] decodes a string descriptor.  Let the
    first transfer return at least 4 and the second leave in the local
    buffer the descriptor of the UTF-16 code units [us] (at most 62 of
    them), returning at least its length.  Then the call returns the
    number [n] of characters it stored and the caller's buffer holds, from
    its start, one character per code unit (the unit itself if it is below
    256, a question mark otherwise) and the null byte.  [n] is the number
    of code units cut at [buflen - 1]; with [buflen = 0] it is not cut at
    all, so the caller's array must hold [n + 1] bytes whatever [buflen]
    says. *)
Theorem usb_get_string_simple_decodes (env1 env2 : ipc)
    (reply1 reply2 : option Packet) (junk : list byte) (dev : ptr)
    (index : Z) (buf : list byte) (buflen : Z) (s s1 s2 : state)
    (r1 r2 : Z) (tbuf1 tbuf2 : list byte) (us : list Z) :
  let n := if buflen =? 0 then length us
           else (length us `min` Z.to_nat (buflen - 1))%nat in
  usb_get_string env1 reply1 dev 0 0 (resize 255 0 junk) 255 s
    = Ret (r1, tbuf1) s1 →
  4 ≤ r1 →
  usb_get_string env2 reply2 dev index (langid_of tbuf1) tbuf1 255 s1
    = Ret (r2, tbuf2) s2 →
  take (2 + 2 * length us) tbuf2 = string_descriptor us →
  Forall (λ u, 0 ≤ u < 2 ^ 16) us → (length us ≤ 62)%nat →
  2 + 2 * Z.of_nat (length us) ≤ r2 →
  0 ≤ buflen < 2 ^ 64 →
  (n < length buf)%nat →
  usb_get_string_simple env1 env2 reply1 reply2 junk dev index buf buflen s
  = Ret (Z.of_nat n, (narrowed <$> take n us) ++ 0 :: drop (S n) buf) s2.
Proof.
  intros n E1 Hr1 E2 Ht Hus Hlen Hr2 Hbl Hn.
  destruct (string_descriptor_fields _ _ Ht) as (H0 & Hty & _).
  assert (to_i8 (nth 0 tbuf2 0) = 2 + 2 * Z.of_nat (length us)) as Hl.
  { rewrite H0. unfold to_i8. rewrite Z.mod_small; lia. }
  assert (n = Z.to_nat (Z.min (Z.of_nat (length us)) (to_size (buflen - 1))))
    as HN.
  { subst n. unfold to_size. destruct (buflen =? 0) eqn:Ez.
    - assert (buflen = 0) as -> by lia.
      change ((0 - 1) mod 2 ^ 64) with 18446744073709551615. lia.
    - rewrite Z.mod_small by lia. lia. }
  clearbody n.
  assert (n ≤ length us)%nat as Hnu
    by (rewrite HN; generalize (to_size (buflen - 1)); intros; lia).
  unfold usb_get_string_simple. cbn [bind M_seq]. rewrite E1. cbn [fst snd].
  assert ((r1 <? 0) = false) as -> by lia.
  assert ((r1 <? 4) = false) as -> by lia.
  cbn [bind M_seq]. rewrite E2. cbn [fst snd].
  assert ((r2 <? 0) = false) as -> by lia.
  rewrite Hty, Hl.
  assert (negb (to_i8 USB_DT_STRING =? USB_DT_STRING) = false) as -> by done.
  assert ((2 + 2 * Z.of_nat (length us) >? r2) = false) as -> by lia.
  pose proof (copy_chars_decodes tbuf2 us buflen n Ht Hus Hlen HN n 0 buf
                (Z.to_nat (2 + 2 * Z.of_nat (length us)))) as Hc.
  change (2 + 2 * Z.of_nat 0) with 2 in Hc. change (Z.of_nat 0) with 0 in Hc.
  rewrite drop_0 in Hc. change (take 0 buf) with (@nil Z) in Hc.
  rewrite app_nil_l in Hc.
  rewrite Hc; [|lia|lia|lia]. clear Hc HN.
  cbn [lift bind M_seq ret fst snd]. unfold poke.
  rewrite length_app, length_fmap, length_take, length_drop.
  assert (n `min` length us = n)%nat as -> by lia.
  assert (n + (length buf - n) = length buf)%nat as -> by lia.
  assert ((Z.of_nat n <? 0) = false) as -> by lia.
  assert ((Z.of_nat (length buf) <=? Z.of_nat n) = false) as -> by lia.
  cbn. do 2 f_equal. rewrite Nat2Z.id.
  rewrite insert_app_r_alt; rewrite length_fmap, length_take; [|lia].
  replace (n - n `min` length us)%nat with 0%nat by lia.
  rewrite (drop_S buf (default 0 (buf !! n)) n).
  - done.
  - destruct (lookup_lt_is_Some_2 buf n) as [x ->]; [lia|done].
Qed.

(** ** The back pointer of the first bus *)

Lemma keeps_bus_links_store_bus p g :
  (∀ b, bus_next (g b) = bus_next b ∧ bus_prev (g b) = bus_prev b) →
  keeps bus_links (store_bus p g).
Proof.
  intros Hg s. unfold store_bus, load_bus, modify. cbn.
  destruct p as [|a]; [done|].
  destruct (bus_heap s !! a) as [b|] eqn:Hb; cbn; [|done].
  unfold bus_links. cbn. rewrite fmap_insert.
  destruct (Hg b) as [-> ->].
  apply insert_id. by rewrite lookup_fmap, Hb.
Qed.

Lemma keeps_bus_links_dev_ops :
  (∀ d, keeps bus_links (malloc_dev d)) ∧ (∀ p, keeps bus_links (free_dev p)) ∧
  (∀ p g, keeps bus_links (store_dev p g)).
Proof.
  split_and!; intros p; intros; intros s.
  all: unfold malloc_dev, free_dev, store_dev, load_dev, modify; cbn.
  all: repeat case_match; simplify_eq; done.
Qed.

Ltac keeps_bus_links :=
  repeat first
    [ apply keeps_ret
    | apply keeps_loads
    | apply keeps_pure
    | apply keeps_bus_links_dev_ops
    | apply keeps_bus_links_store_bus; intros []; split; reflexivity
    | apply keeps_bind; [|intros ?]
    | apply keeps_modify; intros ?; reflexivity
    | progress unfold skip, local_dev, pop_dev
    | assumption
    | match goal with
      | |- keeps _ (match ?x with _ => _ end) => destruct x
      | |- keeps _ (let '(_, _) := ?x in _) => destruct x
      end ].

Lemma keeps_bus_links_read_devices fuel rbus vdev :
  ∀ dev it, keeps bus_links (read_devices fuel rbus vdev dev it).
Proof.
  induction fuel as [|fuel IH]; intros dev it; cbn [read_devices].
  all: destruct (is_type it SequenceType); [|keeps_bus_links].
  - keeps_bus_links.
  - apply keeps_bind; [|intros r; apply IH].
    unfold read_device, next_device, fill_device, read_config,
      read_interfaces.
    keeps_bus_links.
Qed.

Lemma keeps_bus_links_free_unused_devices fuel dev :
  keeps bus_links (free_unused_devices fuel dev).
Proof.
  induction fuel as [|fuel IH]; cbn [free_unused_devices]; keeps_bus_links.
Qed.

(** X21: the bus loop links a new bus back to the node it stands on,
    whatever that node is.  On a node [x] without a successor, if
    [read_bus] returns, it returns the node it allocated, [x] points to it,
    and its [prev] is [x], also after the devices of the record were read.
    [usb_find_devices] starts the loop on its local [vbus]: for the first
    bus of a cache, [x] is the address of that local. *)
Theorem new_bus_points_back_to_the_loop_node (x : nat) (bx : usb_bus)
    (it it' : Iterator) (s s' : state) (r : ptr) :
  bus_heap s !! x = Some bx → bus_next bx = NULL →
  bus_heap s !! brk s = None →
  read_bus (Ptr x) it s = Ret (r, it') s' →
  r = Ptr (brk s) ∧
  ∃ b bx', bus_heap s' !! brk s = Some b ∧ bus_prev b = Ptr x ∧
           bus_heap s' !! x = Some bx' ∧ bus_next bx' = Ptr (brk s).
Proof.
  intros Hx Hn Hfresh.
  assert (x ≠ brk s) as Hne by (intros ->; by rewrite Hfresh in Hx).
  set (n := brk s).
  assert (∃ s1, next_bus (Ptr x) s = Ret (Ptr n) s1 ∧
                bus_links s1 !! n = Some (NULL, Ptr x) ∧
                bus_links s1 !! x = Some (Ptr n, bus_prev bx))
    as (s1 & En & Ln & Lx).
  { unfold next_bus, load_bus. cbn [bind M_seq]. rewrite Hx, Hn.
    cbn [ptr_is_null]. unfold malloc_bus, store_bus, load_bus, modify.
    cbn [bind M_seq]. cbn. rewrite lookup_insert_ne, Hx by done. cbn.
    rewrite lookup_insert_ne, lookup_insert_eq by done. cbn.
    eexists. split; [reflexivity|]. unfold bus_links. cbn.
    rewrite !lookup_fmap.
    rewrite lookup_insert_eq, lookup_insert_ne, lookup_insert_eq by done.
    done. }
  unfold read_bus. cbn [bind M_seq]. rewrite En.
  destruct (fill_bus (Ptr n) (iter_enter it) s1) as [it1 s2| |] eqn:Ef;
    try discriminate.
  assert (keeps bus_links (fill_bus (Ptr n) (iter_enter it))) as Kf
    by (unfold fill_bus; keeps_bus_links).
  pose proof (keeps_returns _ _ _ _ _ Kf Ef) as E2.
  unfold load_bus at 1.
  destruct (bus_heap s2 !! n) as [bn|] eqn:Hbn; [|discriminate].
  destruct (local_dev _ s2) as [v s3| |] eqn:El; try discriminate.
  assert (bus_links s3 = bus_links s2) as E3.
  { unfold local_dev in El.
    exact (keeps_returns _ _ _ _ _
             (proj1 keeps_bus_links_dev_ops _) El). }
  destruct (read_devices BUFSIZE (Ptr n) v (Ptr v) it1 s3)
    as [[r1 it2] s4| |] eqn:Er; try discriminate.
  pose proof (keeps_returns _ _ _ _ _
                (keeps_bus_links_read_devices _ _ _ _ _) Er) as E4.
  unfold get. cbn [fst snd].
  destruct (free_unused_devices _ r1 s4) as [[] s5| |] eqn:Et;
    try discriminate.
  pose proof (keeps_returns _ _ _ _ _
                (keeps_bus_links_free_unused_devices _ _) Et) as E5.
  unfold pop_dev, modify. cbn. intros [= <- <- <-]. split; [done|].
  assert (bus_links (set_dev_heap (delete v (dev_heap s5)) s5) = bus_links s1)
    as E by (unfold bus_links in *; cbn; congruence).
  rewrite <- E in Ln, Lx.
  unfold bus_links in Ln, Lx. rewrite lookup_fmap in Ln, Lx. cbn in Ln, Lx.
  cbn [bus_heap set_dev_heap].
  destruct (bus_heap s5 !! n) as [b|]; [|done].
  destruct (bus_heap s5 !! x) as [bx'|]; [|done].
  cbn in Ln, Lx. injection Ln as _ Hp. injection Lx as Hnx _.
  exists b, bx'. done.
Qed.

End AnyCodec.


(** ** Scenarios on the concrete codec *)

Section Scenarios.
Import Wire.

(** C7 at work: the reply (result 0, token 7) to opening device 4 yields a
    handle whose token is 7; the reply (result -1) yields [NULL]; closing
    the handle frees it although the close reply is for another
    operation. *)
Lemma usb_open_close_contract_witness :
  (∃ p s1 h,
     usb_open up (Some (reply2 UsbOpen [0; 0; 0; 0] [7; 0; 0; 0])) (Ptr 4)
       enumerated = Ret (Ptr p) s1 ∧
     hdl_heap s1 !! p = Some h ∧ h_fd h = 7) ∧
  (∃ s1, usb_open up (Some (reply2 UsbOpen minus_one [7; 0; 0; 0])) (Ptr 4)
           enumerated = Ret NULL s1) ∧
  (∃ s1, usb_close up (Some (reply2 UsbOpen minus_one [])) (Ptr 5) opened
           = Ret (-1) s1 ∧ hdl_heap s1 !! 5%nat = None).
Proof.
  assert (∃ s0, init_hostfd up enumerated = Ret 5 s0) as [s0 Hi]
    by (eexists; vm_compute; reflexivity).
  assert (∃ s0, init_hostfd up opened = Ret 5 s0) as [s0' Hi']
    by (eexists; vm_compute; reflexivity).
  assert (∃ d, dev_heap enumerated !! 4%nat = Some d ∧ dev_bus d = Ptr 2)
    as (d & Hd & Hb) by (eexists; split; [vm_compute; reflexivity|reflexivity]).
  assert (is_Some (bus_heap enumerated !! 2%nat)) as Hbus
    by (eexists; vm_compute; reflexivity).
  repeat split.
  - destruct (@usb_open_close_contract codec up
                (Some (reply2 UsbOpen [0; 0; 0; 0] [7; 0; 0; 0]))
                enumerated s0 5 Hi) as [Hopen _].
    destruct (Hopen _ _ _ Hd Hb Hbus) as (p & s1 & E & Hiff & Hp).
    destruct p as [|a].
    + exfalso. destruct Hiff as [_ Hn]. apply Hn; [vm_compute; discriminate|done].
    + destruct Hp as (-> & _ & h & Hh & _ & _ & _ & _ & _ & Htok).
      exists (brk enumerated), s1, h. split; [exact E|].
      split; [rewrite Hh; apply lookup_insert_eq|].
      apply (Htok _ eq_refl). reflexivity.
  - destruct (@usb_open_close_contract codec up
                (Some (reply2 UsbOpen minus_one [7; 0; 0; 0]))
                enumerated s0 5 Hi) as [Hopen _].
    destruct (Hopen _ _ _ Hd Hb Hbus) as (p & s1 & E & Hiff & Hp).
    destruct p as [|a]; [by exists s1|].
    exfalso. destruct Hiff as [Hn _].
    assert (0 ≤ -1) by (apply Hn; discriminate). lia.
  - destruct (@usb_open_close_contract codec up
                (Some (reply2 UsbOpen minus_one [])) opened s0' 5 Hi')
      as [_ Hclose].
    assert (∃ h, hdl_heap opened !! 5%nat = Some h) as [h Hh]
      by (eexists; vm_compute; reflexivity).
    destruct (Hclose _ _ Hh) as (s1 & E & _ & Hgone).
    exists s1. split; [exact E | exact Hgone].
Defined.

(** C8, as stated, fails.  The handle at address 5 has its configuration
    unset; [usb_set_configuration] with request value 5 gets no reply,
    returns [-1], and the handle's configuration is 5. *)
Lemma failed_set_configuration_stores_request :
  (∃ h, hdl_heap opened !! 5%nat = Some h ∧ h_config h = -1) ∧
  ∃ s1 h,
    usb_set_configuration up None (Ptr 5) 5 opened = Ret (-1) s1 ∧
    hdl_heap s1 !! 5%nat = Some h ∧ h_config h = 5.
Proof.
  split; [eexists; split; [vm_compute; reflexivity|reflexivity]|].
  eexists _, _. split; [vm_compute; reflexivity|].
  split; [vm_compute; reflexivity|]. vm_compute. reflexivity.
Qed.

(** C8 amended, at work: no reply stores the request value 5; the reply
    (result -1, echo 9) stores 9. *)
Lemma selector_overwritten_by_echo_or_request_witness :
  (∃ s1 h, usb_set_configuration up None (Ptr 5) 5 opened = Ret (-1) s1 ∧
           hdl_heap s1 !! 5%nat = Some h ∧ h_config h = 5) ∧
  (∃ s1 h, usb_set_altinterface up
             (Some (reply2 UsbSetAltInterface minus_one [9; 0; 0; 0]))
             (Ptr 5) 5 opened = Ret (-1) s1 ∧
           hdl_heap s1 !! 5%nat = Some h ∧ h_altsetting h = 9).
Proof.
  assert (∃ s0, init_hostfd up opened = Ret 5 s0) as [s0 Hi]
    by (eexists; vm_compute; reflexivity).
  assert (∃ h, hdl_heap opened !! 5%nat = Some h) as [h Hh]
    by (eexists; vm_compute; reflexivity).
  split.
  - destruct (@selector_overwritten_by_echo_or_request codec up None 5 h 5 opened
                s0 5 Hi Hh) as [(s1 & sel & E & Hheap & Hnone & _) _].
    exists s1, (with_h_config sel h). split; [exact E|].
    split; [rewrite Hheap; apply lookup_insert_eq|].
    cbn. apply Hnone. reflexivity.
  - destruct (@selector_overwritten_by_echo_or_request codec up
                (Some (reply2 UsbSetAltInterface minus_one [9; 0; 0; 0]))
                5 h 5 opened s0 5 Hi Hh) as [_ (s1 & sel & E & Hheap & _ & Hit)].
    exists s1, (with_h_altsetting sel h). split; [exact E|].
    split; [rewrite Hheap; apply lookup_insert_eq|].
    cbn. destruct (Hit _ eq_refl) as [Hecho _]. apply Hecho. reflexivity.
Defined.

(** C10 at work: after the open, claiming interface 0, a new enumeration,
    selecting alternate setting 1 and a bulk write leave the interface
    selector at [-1]. *)
Lemma interface_selector_never_assigned_witness :
  ∃ s2 h,
    run_steps
      [OnHandle (Ptr 5) (ClaimInterface 0) up
         (Some (reply2 UsbClaimInterface [0; 0; 0; 0] []));
       FindDevices up (Some one_device);
       OnHandle (Ptr 5) (SetAltinterface 1) up
         (Some (reply2 UsbSetAltInterface [0; 0; 0; 0] [1; 0; 0; 0]));
       OnHandle (Ptr 5) (BulkWrite 2 [1; 2; 3] 3 1000) up
         (Some (reply2 UsbBulkWrite [3; 0; 0; 0] []))]
      opened = Ret tt s2 ∧
    hdl_heap s2 !! 5%nat = Some h ∧ h_altsetting h = 1 ∧ h_interface h = -1.
Proof.
  match goal with
  | |- ∃ s2 h, run_steps ?l _ = _ ∧ _ => set (sts := l)
  end.
  destruct (run_steps sts opened) as [[] s2| |] eqn:E;
    [|vm_compute in E; discriminate..].
  destruct (hdl_heap s2 !! 5%nat) as [h|] eqn:Hh.
  2: { exfalso. vm_compute in E. injection E as <-.
       vm_compute in Hh. discriminate. }
  exists s2, h. split; [reflexivity|]. split; [exact Hh|]. split.
  - vm_compute in E. injection E as <-.
    vm_compute in Hh. injection Hh as <-. reflexivity.
  - eapply (@interface_selector_never_assigned codec up
              (Some (reply2 UsbOpen [0; 0; 0; 0] [7; 0; 0; 0])) (Ptr 4)
              enumerated opened s2 5 sts h);
      [vm_compute; reflexivity | exact E | exact Hh].
Defined.

End Scenarios.

Section Synchroniser.
Import Wire.

(** C5: the reply describing bus "001" at location 1 with device "003"
    (vendor [0x1d6b], product [0x0002], one interface with one alternate
    setting and no endpoint, number 3), synchronised into the empty cache,
    yields exactly one bus holding exactly one device with these values;
    the other bytes of the descriptors and the change count are
    arbitrary. *)
Theorem enumeration_scenario
    (count : list byte)
    (b0 b1 b2 b3 b4 b5 b6 b7 b12 b13 b14 b15 b16 b17 : Z)
    (c0 c1 c2 c3 c5 c6 c7 c8 a0 a1 a2 a3 a5 a6 a7 a8 : Z) :
  ∃ r s bus dev cfg ifc alt,
    usb_find_devices up
      (Some (enumeration count
         [device_003
            (hub_descriptor b0 b1 b2 b3 b4 b5 b6 b7 b12 b13 b14 b15 b16 b17)
            (config_bytes 1 c0 c1 c2 c3 c5 c6 c7 c8)
            (altsetting_bytes 0 a0 a1 a2 a3 a5 a6 a7 a8)]))
      initial_state = Ret r s ∧
    remote_bus s = Ptr 2 ∧ usb_busses s = Ptr 2 ∧
    size (bus_heap s) = 1%nat ∧ size (dev_heap s) = 1%nat ∧
    bus_heap s !! 2%nat = Some bus ∧ bus_next bus = NULL ∧
    dirname bus = [48; 48; 49] ∧ location bus = 1 ∧
    devices bus = Ptr 4 ∧
    dev_heap s !! 4%nat = Some dev ∧ dev_next dev = NULL ∧
    dev_bus dev = Ptr 2 ∧ filename dev = [48; 48; 51] ∧
    idVendor (descriptor dev) = 0x1d6b ∧ idProduct (descriptor dev) = 0x0002 ∧
    config dev = Some cfg ∧ bNumInterfaces cfg = Some 1 ∧
    interface cfg = Some [ifc] ∧
    num_altsetting ifc = 1 ∧ altsetting ifc = Some [alt] ∧
    bNumEndpoints alt = Some 0 ∧ endpoint alt = None ∧
    devnum dev = 3.
Proof.
  unfold usb_find_devices. cbn [bind M_seq].
  destruct (init_hostfd up initial_state) as [fd s0| |] eqn:Hi;
    vm_compute in Hi; [|discriminate..].
  injection Hi as <- <-.
  match goal with
  | |- context [ret (if ?c then ?x else 0)] =>
      generalize (if c then x else 0)
  end.
  intros r. exists r.
  eexists _, _, _, _, _, _.
  split; [vm_compute; reflexivity|].
  repeat (split; [vm_compute; reflexivity|]). vm_compute. reflexivity.
Qed.

(** A synchronisation repeated with the same reply on a cache without
    dangling pointers: the bus and the device stay at their addresses with
    the same contents, and neither heap gains or loses a node. *)
Example resync_same_reply_reuses_nodes :
  ∃ s1 s2,
    syncs [one_device] initial_state = Ret 1 s1 ∧
    usb_find_devices up (Some one_device) s1 = Ret 1 s2 ∧
    remote_bus s2 = remote_bus s1 ∧
    bus_heap s2 !! 2%nat = bus_heap s1 !! 2%nat ∧
    dev_heap s2 !! 4%nat = dev_heap s1 !! 4%nat ∧
    size (bus_heap s2) = 1%nat ∧ size (dev_heap s2) = 1%nat.
Proof.
  eexists _, _. split; [vm_compute; reflexivity|].
  split; [vm_compute; reflexivity|].
  repeat (split; [vm_compute; reflexivity|]). vm_compute. reflexivity.
Qed.

(** C2 fails on the code.  After the cache holds bus "001" with device
    "003", a reply that reports the same bus without devices frees the
    device node (address 4) but leaves the bus's [devices] pointer on it:
    the per-bus list is not empty, its head is a freed node. *)
Theorem emptied_bus_keeps_freed_device_linked :
  ∃ s1 s2 bus dev,
    syncs [one_device] initial_state = Ret 1 s1 ∧
    bus_heap s1 !! 2%nat = Some bus ∧ devices bus = Ptr 4 ∧
    dev_heap s1 !! 4%nat = Some dev ∧
    usb_find_devices up (Some no_device) s1 = Ret 1 s2 ∧
    ∃ bus',
      remote_bus s2 = Ptr 2 ∧ bus_heap s2 !! 2%nat = Some bus' ∧
      devices bus' = Ptr 4 ∧ dev_heap s2 !! 4%nat = None.
Proof.
  eexists _, _, _, _. split; [vm_compute; reflexivity|].
  split; [vm_compute; reflexivity|]. split; [reflexivity|].
  split; [vm_compute; reflexivity|].
  split; [vm_compute; reflexivity|].
  eexists. repeat (split; [vm_compute; reflexivity|]). vm_compute. reflexivity.
Qed.

(** The bus-level trim writes the list head back: after a reply without
    busses the cache is empty and [usb_get_busses] returns [NULL].  The
    unlinked bus node is not freed. *)
Example shrink_to_empty :
  ∃ s1 s2,
    syncs [one_device] initial_state = Ret 1 s1 ∧
    usb_find_devices up (Some no_bus) s1 = Ret 1 s2 ∧
    remote_bus s2 = NULL ∧ usb_busses s2 = NULL ∧
    usb_get_busses s2 = Ret NULL s2 ∧
    is_Some (bus_heap s2 !! 2%nat).
Proof.
  eexists _, _. split; [vm_compute; reflexivity|].
  split; [vm_compute; reflexivity|].
  repeat (split; [vm_compute; reflexivity|]). eexists. vm_compute. reflexivity.
Qed.

(** C1 fails on the code.  From the cache the previous theorem ends in,
    two synchronisations with the same reply (the bus without devices):
    the first returns, the second follows the stale [devices] pointer to
    the node already freed, reads it and frees it again. *)
Theorem identical_resync_touches_freed_device :
  ∃ s1 s2,
    syncs [one_device] initial_state = Ret 1 s1 ∧
    usb_find_devices up (Some no_device) s1 = Ret 1 s2 ∧
    usb_find_devices up (Some no_device) s2 = Fault UseAfterFree.
Proof.
  eexists _, _. split; [vm_compute; reflexivity|].
  split; [vm_compute; reflexivity|]. vm_compute. reflexivity.
Qed.

(** The copies of the configuration, alternate-setting and endpoint
    descriptors are clipped: at most [size] bytes are taken, and no more
    than the field holds. *)
Lemma clipped_copy_within_bounds (size : Z) (it : @Iterator codec) :
  0 ≤ size →
  let copied := take (Z.to_nat (clip_len size it)) (it_val it) in
  Z.of_nat (length copied) ≤ size ∧
  Z.of_nat (length copied) ≤ it_len it ∧
  copied `prefix_of` it_val it.
Proof.
  intros Hs copied. subst copied. unfold clip_len, it_len.
  rewrite length_take. split; [|split]; [| |apply prefix_take].
  all: destruct (size >? Z.of_nat (length (it_val it))) eqn:E; lia.
Qed.

(** C3 fails on the code.  The device descriptor is copied with the length
    of the wire field, unclipped: a field of 19 bytes is written over the
    18 bytes of [struct usb_device_descriptor] and one byte beyond. *)
Theorem long_descriptor_written_past_bound :
  Z.of_nat (length (linux_hub ++ [255])) = sizeof_usb_device_descriptor + 1 ∧
  usb_find_devices up (Some long_descriptor) initial_state
    = Fault OutOfBounds.
Proof. split; vm_compute; reflexivity. Qed.

(** C4 fails on the code.  A device record without the raw configuration
    field, synchronised into the empty cache: the new device's [config]
    is [NULL] and the interface loop reads [dev->config->bNumInterfaces]. *)
Theorem absent_config_dereferences_null :
  usb_find_devices up (Some device_without_config) initial_state
    = Fault NullDeref.
Proof. vm_compute. reflexivity. Qed.

(** C6 fails on the code.  [usb_bulk_read] is handed a reply whose leading
    byte names the bulk write: it returns the reply's result 4 and copies
    four payload bytes into the caller's buffer. *)
Theorem bulk_read_accepts_foreign_reply :
  ∃ s1,
    usb_bulk_read up (Some (reply_data UsbBulkWrite [4; 0; 0; 0] [1; 2; 3; 4]))
      (Ptr 5) 129 [0; 0; 0; 0; 0; 0; 0; 0] 8 1000 opened
    = Ret (4, [1; 2; 3; 4; 0; 0; 0; 0]) s1.
Proof. eexists. vm_compute. reflexivity. Qed.

(** The sibling [usb_interrupt_read] rejects the same reply. *)
Example interrupt_read_rejects_foreign_reply :
  ∃ s1,
    usb_interrupt_read up
      (Some (reply_data UsbBulkWrite [4; 0; 0; 0] [1; 2; 3; 4]))
      (Ptr 5) 129 [0; 0; 0; 0; 0; 0; 0; 0] 8 1000 opened
    = Ret (-1, [0; 0; 0; 0; 0; 0; 0; 0]) s1.
Proof. eexists. vm_compute. reflexivity. Qed.

End Synchroniser.


(** ** Further scenarios on the concrete codec *)

Section FurtherScenarios.
Import Wire.

(** X2 at work: the descriptor obtained from the segment is returned again
    after the segment has gone. *)
Lemma init_hostfd_reuses_descriptor_witness :
  ∃ s', init_hostfd up initial_state = Ret 5 s' ∧
        init_hostfd detached s' = Ret 5 s'.
Proof.
  eexists. split; [vm_compute; reflexivity|].
  apply (init_hostfd_reuses_descriptor up detached initial_state _ 5);
    [vm_compute; reflexivity|reflexivity].
Defined.

(** X3 at work: an interrupt write of three bytes that is answered with
    the reply to a bulk write. *)
Lemma foreign_reply_yields_minus_one_witness :
  ∃ s1, perform up (Some (reply2 UsbBulkWrite [3; 0; 0; 0] [])) (Ptr 5)
          (InterruptWrite 1 [1; 2; 3] 3 1000) opened
        = Ret (-1, [1; 2; 3]) s1.
Proof.
  assert (∃ s0, init_hostfd up opened = Ret 5 s0) as [s0 Hi]
    by (eexists; vm_compute; reflexivity).
  assert (∃ h, hdl_heap opened !! 5%nat = Some h) as [h Hh]
    by (eexists; vm_compute; reflexivity).
  apply (@foreign_reply_yields_minus_one codec up
           (Some (reply2 UsbBulkWrite [3; 0; 0; 0] [])) 5 h
           (InterruptWrite 1 [1; 2; 3] 3 1000) opened s0 5 Hi Hh).
  - intros; discriminate.
  - cbn. discriminate.
  - cbn. lia.
Defined.

(** X4 at work: a reply with result 4 and the payload 1 2 3 4, read into
    a buffer of eight bytes. *)
Lemma read_transfer_delivers_payload_witness :
  ∃ s0,
    (∀ ep, usb_bulk_read up
             (Some (reply_data UsbInterruptRead [4; 0; 0; 0] [1; 2; 3; 4]))
             (Ptr 5) ep (replicate 8 9) 8 1000 opened
           = Ret (4, [1; 2; 3; 4; 9; 9; 9; 9]) s0) ∧
    (∀ ep, usb_interrupt_read up
             (Some (reply_data UsbInterruptRead [4; 0; 0; 0] [1; 2; 3; 4]))
             (Ptr 5) ep (replicate 8 9) 8 1000 opened
           = Ret (4, [1; 2; 3; 4; 9; 9; 9; 9]) s0).
Proof.
  assert (∃ s0, init_hostfd up opened = Ret 5 s0) as [s0 Hi]
    by (eexists; vm_compute; reflexivity).
  assert (∃ h, hdl_heap opened !! 5%nat = Some h) as [h Hh]
    by (eexists; vm_compute; reflexivity).
  exists s0.
  destruct (@read_transfer_delivers_payload codec up
              (reply_data UsbInterruptRead [4; 0; 0; 0] [1; 2; 3; 4]) 5 h
              (replicate 8 9) 8 1000 opened s0 5 Hi Hh)
    as (Hbulk & Hint & _).
  - reflexivity.
  - reflexivity.
  - vm_compute. reflexivity.
  - vm_compute. split; discriminate.
  - vm_compute. lia.
  - split; [exact Hbulk|]. apply Hint. reflexivity.
Defined.

(** X5 at work: a bulk read whose reply announces six bytes and carries
    four.  The call returns 6; the buffer holds the four bytes of the
    payload, the two bytes that lie behind it in the packet buffer, and
    its own bytes from index 6 on. *)
Lemma transfer_keeps_buffer_tail_witness :
  ∃ s',
    perform up
      (Some (reply_in_buffer UsbBulkRead [6; 0; 0; 0] [1; 2; 3; 4]
               [5; 6; 7; 8]))
      (Ptr 5) (BulkRead 1 (replicate 8 9) 8 1000) opened
    = Ret (6, [1; 2; 3; 4; 5; 6; 9; 9]) s' ∧
    ∀ i, (6 ≤ i)%nat →
      [1; 2; 3; 4; 5; 6; 9; 9] !! i = replicate 8 9 !! i.
Proof.
  assert (∃ s0, init_hostfd up opened = Ret 5 s0) as [s0 Hi]
    by (eexists; vm_compute; reflexivity).
  assert (∃ h, hdl_heap opened !! 5%nat = Some h) as [h Hh]
    by (eexists; vm_compute; reflexivity).
  destruct (@transfer_keeps_buffer_tail codec up
              (Some (reply_in_buffer UsbBulkRead [6; 0; 0; 0] [1; 2; 3; 4]
                       [5; 6; 7; 8]))
              5 h (BulkRead 1 (replicate 8 9) 8 1000) opened s0 5 Hi Hh)
    as (r & out & s' & E & Hl & Ht).
  - vm_compute. split; discriminate.
  - vm_compute. discriminate.
  - assert (r = 6 ∧ out = [1; 2; 3; 4; 5; 6; 9; 9]) as [-> ->].
    { vm_compute in E. injection E as <- <- _. done. }
    exists s'. split; [exact E|exact Ht].
Defined.

(** X22 at work: an interrupt read answered with result 6 and a payload of
    four bytes, in a packet buffer that holds 5 6 7 8 behind them. *)
Lemma short_payload_is_filled_from_the_buffer_witness :
  ∃ s0,
    ∀ ep, usb_interrupt_read up
            (Some (reply_in_buffer UsbInterruptRead [6; 0; 0; 0] [1; 2; 3; 4]
                     [5; 6; 7; 8]))
            (Ptr 5) ep (replicate 8 9) 8 1000 opened
          = Ret (6, [1; 2; 3; 4; 5; 6; 9; 9]) s0.
Proof.
  assert (∃ s0, init_hostfd up opened = Ret 5 s0) as [s0 Hi]
    by (eexists; vm_compute; reflexivity).
  assert (∃ h, hdl_heap opened !! 5%nat = Some h) as [h Hh]
    by (eexists; vm_compute; reflexivity).
  exists s0.
  destruct (@short_payload_is_filled_from_the_buffer codec up
              (reply_in_buffer UsbInterruptRead [6; 0; 0; 0] [1; 2; 3; 4]
                 [5; 6; 7; 8]) 5 h
              (replicate 8 9) 8 1000 opened s0 5 Hi Hh)
    as (_ & Hint & _).
  - reflexivity.
  - reflexivity.
  - vm_compute. reflexivity.
  - vm_compute. split; discriminate.
  - vm_compute. lia.
  - apply Hint. reflexivity.
Defined.

(** X7 at work: selecting configuration 1 on the handle at address 5. *)
Lemma handle_calls_touch_the_handle_only_witness :
  ∃ r s',
    perform up (Some (reply2 UsbSetConfiguration [0; 0; 0; 0] [1; 0; 0; 0]))
      (Ptr 5) (SetConfiguration 1) opened = Ret r s' ∧
    bus_heap s' = bus_heap opened ∧ dev_heap s' = dev_heap opened ∧
    remote_bus s' = remote_bus opened.
Proof.
  destruct (@perform codec up
              (Some (reply2 UsbSetConfiguration [0; 0; 0; 0] [1; 0; 0; 0]))
              (Ptr 5) (SetConfiguration 1) opened)
    as [r s'| |] eqn:E; [|vm_compute in E; discriminate..].
  exists r, s'. split; [reflexivity|].
  destruct (@handle_calls_touch_the_handle_only codec _ _ _ _ _ _ _ E)
    as (Hr & _ & Hb & Hd & _).
  split_and!; [exact Hb|exact Hd|exact Hr].
Defined.

(** X9 at work: initialisation, an enumeration, an open and a reset. *)
Lemma public_list_is_the_cache_witness :
  ∃ s',
    run_steps
      [Init up; FindDevices up (Some one_device);
       Open (Ptr 4) up (Some (reply2 UsbOpen [0; 0; 0; 0] [7; 0; 0; 0]));
       OnHandle (Ptr 5) Reset up (Some (reply2 UsbReset [0; 0; 0; 0] []))]
      initial_state = Ret tt s' ∧
    usb_busses s' = remote_bus s' ∧
    usb_get_busses s' = Ret (usb_busses s') s'.
Proof.
  match goal with
  | |- ∃ s', run_steps ?l _ = _ ∧ _ => set (sts := l)
  end.
  destruct (@run_steps codec sts initial_state) as [[] s'| |] eqn:E;
    [|vm_compute in E; discriminate..].
  exists s'. split; [reflexivity|].
  exact (@public_list_is_the_cache codec sts initial_state s' eq_refl E).
Defined.

Ltac no_node_lives_there :=
  let k := fresh "k" in
  let Hk := fresh "Hk" in
  let d := fresh "d" in
  let Hd := fresh "Hd" in
  intros k Hk;
  match goal with
  | |- ?m !! k = None =>
      destruct (m !! k) as [d|] eqn:Hd; [exfalso|reflexivity];
      apply elem_of_map_to_list in Hd;
      let l := eval vm_compute in (map_to_list m) in
      assert (map_to_list m = l) as Hl by (vm_compute; reflexivity);
      rewrite Hl in Hd;
      apply list_elem_of_singleton in Hd; injection Hd as -> _;
      vm_compute in Hk; lia
  end.

(** X10 at work: the record of bus "001" with device "003" is read again
    into the cache that holds them; the bus keeps a well-formed list that
    starts like the old one. *)
Lemma read_bus_keeps_device_list_witness :
  ∃ it' s',
    local_bus (with_bus_next (remote_bus enumerated) zero_bus) enumerated
      = Ret 5%nat resync_entry ∧
    read_bus (Ptr 5) (next (begin one_device)).1 resync_entry
      = Ret (Ptr 2, it') s' ∧
    ∃ bn' l', bus_heap s' !! 2%nat = Some bn' ∧
              dev_chain s' (devices bn') l' ∧ NoDup l' ∧ l' ≠ [] ∧
              (l' `prefix_of` [4%nat] ∨ [4%nat] `prefix_of` l').
Proof.
  eexists _, _. split; [vm_compute; reflexivity|].
  split; [vm_compute; reflexivity|].
  epose proof (@read_bus_keeps_device_list codec 5 2
                 (next (begin one_device)).1 _ _ resync_entry resync_entry
                 _ _ _ [4%nat] (Ptr 2)) as W.
  destruct W as (_ & bn' & l' & H1 & H2 & H3 & H4 & H5 & _).
  - vm_compute. reflexivity.
  - vm_compute. reflexivity.
  - vm_compute. reflexivity.
  - vm_compute. reflexivity.
  - split; [vm_compute; reflexivity|].
    eexists. split; [vm_compute; reflexivity|]. vm_compute. reflexivity.
  - apply NoDup_singleton.
  - no_node_lives_there.
  - vm_compute. reflexivity.
  - exists bn', l'. split_and!; done.
Defined.

(** X11 at work: the fields of one interface with one alternate setting
    and one endpoint. *)
Lemma interfaces_loaded_in_shape_witness :
  ∃ ifs it',
    load_interfaces 1 0 (replicate 1 blank_interface)
      (begin {| op := None;
                fields := [Int [1; 0; 0; 0];
                           Raw (altsetting_bytes 1 9 4 0 0 3 1 2 0);
                           Raw endpoint_bytes];
                slack := [] |})
    = Ok (ifs, it') ∧
    length ifs = 1%nat ∧ Forall interface_loaded ifs.
Proof.
  match goal with
  | |- ∃ ifs it', ?m = _ ∧ _ => destruct m as [[ifs it']|f] eqn:E
  end; [|vm_compute in E; discriminate].
  exists ifs, it'. split; [reflexivity|].
  exact (@interfaces_loaded_in_shape codec _ _ _ _ E).
Defined.

(** X12 at work: the device "004" as the synchroniser built it. *)
Lemma loaded_configuration_is_destroyed_witness :
  ∃ d, dev_heap with_mouse !! 4%nat = Some d ∧
       usb_destroy_configuration d = Ok tt.
Proof.
  destruct (dev_heap with_mouse !! 4%nat) as [d|] eqn:Hd;
    [|vm_compute in Hd; discriminate].
  exists d. split; [reflexivity|].
  vm_compute in Hd. injection Hd as <-.
  eapply loaded_configuration_is_destroyed.
  - reflexivity.
  - vm_compute. discriminate.
  - reflexivity.
  - reflexivity.
  - apply Forall_cons. split; [|apply Forall_nil_2].
    split; [cbn; lia|]. intros _. eexists. split; [reflexivity|].
    split; [reflexivity|].
    apply Forall_cons. split; [|apply Forall_nil_2].
    split_and!; [vm_compute; discriminate|reflexivity|reflexivity|].
    exists 1. split; [reflexivity|]. cbn. eexists. split; [reflexivity|].
    split; [reflexivity|].
    apply Forall_cons. split; [|apply Forall_nil_2].
    split_and!; [vm_compute; discriminate|reflexivity|reflexivity].
  - apply Forall_cons. split; [|apply Forall_nil_2].
    split; [cbn; lia|]. intros alts [= <-].
    apply Forall_cons. split; [|apply Forall_nil_2]. intros [=].
Defined.

(** X14 at work: the trim at bus 2 of a cache of two busses. *)
Lemma unlinked_busses_are_not_freed_witness :
  ∃ s' b, unlink_unused_busses 2 (Ptr 2) two_busses = Ret tt s' ∧
          bus_heap s' !! 2%nat = Some b ∧ bus_next b = NULL ∧
          is_Some (bus_heap s' !! 3%nat).
Proof.
  destruct (unlinked_busses_are_not_freed [3%nat] 2 2
              (with_bus_next (Ptr 3) zero_bus) two_busses)
    as (s' & b' & E & Hb & Hn & Hkeep & _).
  - vm_compute. reflexivity.
  - split; [reflexivity|]. eexists. split; [vm_compute; reflexivity|].
    reflexivity.
  - intros Hin. apply list_elem_of_singleton in Hin. discriminate.
  - cbn. lia.
  - exists s', b'. split_and!; [exact E|exact Hb|exact Hn|].
    apply Hkeep, list_elem_of_here.
Defined.

(** X15 at work: the exit hook on the cache with bus "001" and device
    "004". *)
Lemma deinit_hostfd_frees_the_cache_witness :
  ∃ s', deinit_hostfd with_mouse = Ret tt s' ∧
        remote_bus s' = NULL ∧ usb_busses s' = NULL ∧
        bus_heap s' !! 2%nat = None ∧ dev_heap s' !! 4%nat = None.
Proof.
  destruct (deinit_hostfd_frees_the_cache with_mouse [(2%nat, [4%nat])])
    as (s' & E & Hr & Hu & Hb & Hd & _).
  - split; [vm_compute; reflexivity|]. eexists.
    split; [vm_compute; reflexivity|].
    split; [|vm_compute; reflexivity].
    split; [vm_compute; reflexivity|]. eexists.
    split; [vm_compute; reflexivity|]. vm_compute. reflexivity.
  - apply NoDup_singleton.
  - apply NoDup_singleton.
  - intros k d Hk Hd. cbn in Hk. apply list_elem_of_singleton in Hk. subst k.
    vm_compute in Hd. injection Hd as <-. split; vm_compute; reflexivity.
  - exists s'. split_and!; [exact E|exact Hr|exact Hu| |].
    + rewrite Hb, decide_True; [done|]. apply list_elem_of_here.
    + rewrite Hd, decide_True; [done|]. apply list_elem_of_here.
Defined.

(** X16 at work: the exit hook after bus "001" lost its only device. *)
Lemma deinit_hostfd_follows_dangling_head_witness :
  ∃ b, remote_bus emptied = Ptr 2 ∧ bus_heap emptied !! 2%nat = Some b ∧
       devices b = Ptr 4 ∧ dev_heap emptied !! 4%nat = None ∧
       deinit_hostfd emptied = Fault UseAfterFree.
Proof.
  assert (∃ b, bus_heap emptied !! 2%nat = Some b ∧ devices b = Ptr 4)
    as (b & Hb & Hd)
    by (eexists; split; [vm_compute; reflexivity|reflexivity]).
  assert (remote_bus emptied = Ptr 2) as Hr by (vm_compute; reflexivity).
  assert (dev_heap emptied !! 4%nat = None) as Hgone
    by (vm_compute; reflexivity).
  exists b. split_and!; [exact Hr|exact Hb|exact Hd|exact Hgone|].
  exact (deinit_hostfd_follows_dangling_head emptied 2 4 b Hr Hb Hd Hgone).
Defined.

(** X17 at work: the string "Hi!" read into a buffer of eight bytes. *)
Lemma usb_get_string_simple_contract_witness :
  ∃ buf' s',
    usb_get_string_simple up up (Some languages)
      (Some (string_reply [72; 105; 33])) [] (Ptr 5) 1 (replicate 8 255) 8
      opened = Ret (3, buf') s' ∧
    length buf' = 8%nat ∧ buf' !! 3%nat = Some 0 ∧
    (∀ i, (3 < i)%nat → buf' !! i = replicate 8 255 !! i).
Proof.
  destruct (@usb_get_string_simple codec up up (Some languages)
              (Some (string_reply [72; 105; 33])) [] (Ptr 5) 1
              (replicate 8 255) 8 opened)
    as [[r buf'] s'| |] eqn:E; [|vm_compute in E; discriminate..].
  assert (r = 3) as -> by (vm_compute in E; by injection E as <- _ _).
  exists buf', s'. split; [reflexivity|].
  destruct (@usb_get_string_simple_contract codec _ _ _ _ _ _ _ _ _ _ _ _ _ E)
    as [_ Hpos].
  destruct Hpos as (Hlen & Hnul & Hrest & _); [lia|].
  split_and!; [exact Hlen|exact Hnul|exact Hrest].
Defined.

(** X18 at work: the code units H, U+263A, ! are stored as "H?!"; a
    [buflen] of 3 cuts the string after two characters, a [buflen] of 0
    does not cut it. *)
Lemma usb_get_string_simple_decodes_witness :
  usb_get_string_simple up up (Some languages)
    (Some (string_reply [72; 9786; 33])) [] (Ptr 5) 1 (replicate 8 255) 8
    opened = Ret (3, [72; 63; 33; 0; 255; 255; 255; 255]) opened ∧
  usb_get_string_simple up up (Some languages)
    (Some (string_reply [72; 9786; 33])) [] (Ptr 5) 1 (replicate 8 255) 3
    opened = Ret (2, [72; 63; 0; 255; 255; 255; 255; 255]) opened ∧
  usb_get_string_simple up up (Some languages)
    (Some (string_reply [72; 9786; 33])) [] (Ptr 5) 1 (replicate 8 255) 0
    opened = Ret (3, [72; 63; 33; 0; 255; 255; 255; 255]) opened.
Proof.
  assert (@usb_get_string codec up (Some languages) (Ptr 5) 0 0
            (resize 255 0 []) 255 opened
          = Ret (4, [4; 3; 9; 4] ++ replicate 251 0) opened) as E1
    by (vm_compute; reflexivity).
  assert (@usb_get_string codec up (Some (string_reply [72; 9786; 33]))
            (Ptr 5) 1 (langid_of ([4; 3; 9; 4] ++ replicate 251 0))
            ([4; 3; 9; 4] ++ replicate 251 0) 255 opened
          = Ret (8, string_descriptor [72; 9786; 33] ++ replicate 247 0)
              opened) as E2
    by (vm_compute; reflexivity).
  assert (Forall (λ u, 0 ≤ u < 2 ^ 16) [72; 9786; 33]) as Hus
    by (repeat (apply Forall_cons; split; [lia|]); apply Forall_nil_2).
  split_and!.
  - apply (@usb_get_string_simple_decodes codec up up _ _ [] (Ptr 5) 1
             (replicate 8 255) 8 opened opened opened 4 8 _ _
             [72; 9786; 33] E1 ltac:(lia) E2 eq_refl Hus);
      [cbn; lia|cbn; lia|lia|vm_compute; lia].
  - apply (@usb_get_string_simple_decodes codec up up _ _ [] (Ptr 5) 1
             (replicate 8 255) 3 opened opened opened 4 8 _ _
             [72; 9786; 33] E1 ltac:(lia) E2 eq_refl Hus);
      [cbn; lia|cbn; lia|lia|vm_compute; lia].
  - apply (@usb_get_string_simple_decodes codec up up _ _ [] (Ptr 5) 1
             (replicate 8 255) 0 opened opened opened 4 8 _ _
             [72; 9786; 33] E1 ltac:(lia) E2 eq_refl Hus);
      [cbn; lia|cbn; lia|lia|vm_compute; lia].
Defined.

(** X19 at work: the reply without a bus record, synchronised into the
    cache that holds bus "001" with device "003". *)
Lemma reply_without_bus_drops_the_cache_witness :
  ∃ s', usb_find_devices up (Some no_bus) enumerated = Ret 1 s' ∧
        remote_bus s' = NULL ∧ usb_busses s' = NULL ∧
        bus_heap s' = bus_heap enumerated ∧
        dev_heap s' = dev_heap enumerated.
Proof.
  assert (∃ s0, init_hostfd up enumerated = Ret 5 s0) as [s0 Hi]
    by (eexists; vm_compute; reflexivity).
  destruct (@reply_without_bus_drops_the_cache codec up no_bus enumerated s0
              5 [2%nat] Hi) as (s' & E & Hr & Hu & Hb & Hd & _).
  - vm_compute. reflexivity.
  - split; [vm_compute; reflexivity|]. eexists.
    split; [vm_compute; reflexivity|]. vm_compute. reflexivity.
  - apply NoDup_singleton.
  - vm_compute. reflexivity.
  - exists s'. split_and!; [exact E|exact Hr|exact Hu|exact Hb|exact Hd].
Defined.

(** X21 at work: the first bus record read into the empty cache; bus 2
    gets the address 1 of the local [vbus] as [prev], and that is what the
    cache holds after [usb_find_devices] has returned, when nothing lives
    at address 1. *)
Lemma new_bus_points_back_to_the_loop_node_witness :
  (∃ it' s' b,
     read_bus (Ptr 1) (next (begin one_device)).1 first_entry
       = Ret (Ptr 2, it') s' ∧
     bus_heap s' !! 2%nat = Some b ∧ bus_prev b = Ptr 1) ∧
  ∃ b, remote_bus enumerated = Ptr 2 ∧
       bus_heap enumerated !! 2%nat = Some b ∧ bus_prev b = Ptr 1 ∧
       bus_heap enumerated !! 1%nat = None.
Proof.
  split.
  - destruct (@read_bus codec (Ptr 1) (next (begin one_device)).1 first_entry)
      as [[r it'] s'| |] eqn:E; [|vm_compute in E; discriminate..].
    destruct (@new_bus_points_back_to_the_loop_node codec 1
                (with_bus_next NULL zero_bus) (next (begin one_device)).1 it'
                first_entry s' r)
      as (-> & b & bx' & Hb & Hp & _);
      [vm_compute; reflexivity|reflexivity|vm_compute; reflexivity|exact E|].
    exists it', s', b. split_and!; [reflexivity|exact Hb|exact Hp].
  - eexists. split; [vm_compute; reflexivity|].
    split; [vm_compute; reflexivity|].
    split; [reflexivity|]. vm_compute. reflexivity.
Defined.

End FurtherScenarios.
